(** * books-cron-report: the batch-ingestion and report pipeline

    A shallow embedding of [bulkCron.js] (the Ingestion Job), of the report
    cron module (the Report Job), of the book routes and of the
    authentication middleware in front of them, over an explicit world:
    the key-value store as a finite map, the document store, the message
    transport and the clock.  The host language's built-ins
    ([JSON.parse], number printing, date formatting) and the external
    collaborators (Mongoose models, PDFKit, nodemailer) are interfaces; the
    jobs are written against them and the theorems hold for every
    implementation.  A reference implementation of each interface is given
    for running the jobs on concrete stores. *)

From Stdlib Require Import Floats ZArith Ascii String.
From stdpp Require Import gmap strings list pretty sorting.

Local Open Scope string_scope.
Local Open Scope list_scope.
Local Open Scope nat_scope.
Set Warnings "-register-all".

(** ** JavaScript values *)

Module JS.

(** What [JSON.parse] can return, plus [undefined] (the value of a missing
    property).  Numbers are IEEE 754 doubles. *)
Inductive value :=
  | Undefined
  | Null
  | Bool (b : bool)
  | Num (x : float)
  | Str (s : string)
  | Arr (elems : list value)
  | Obj (props : list (string * value)).

(** A thrown [Error]: its [message], and the [code] some drivers attach. *)
Record exn := mkError { message : string; code : option Z }.

Definition TypeError (msg : string) : exn := mkError msg None.
Definition Error (msg : string) : exn := mkError msg None.

Inductive result (A : Type) :=
  | Ok (a : A)
  | Throw (e : exn).
Arguments Ok {A} a.
Arguments Throw {A} e.

Definition is_Ok {A} (r : result A) : bool :=
  match r with Ok _ => true | Throw _ => false end.

#[export] Instance result_ret : MRet result := λ A a, Ok a.
#[export] Instance result_bind : MBind result := λ A B f r,
  match r with Ok a => f a | Throw e => Throw e end.

(** [ToBoolean]: the falsy values are [undefined], [null], [false], [0],
    [-0], [NaN] and the empty string. *)
Definition truthy (v : value) : bool :=
  match v with
  | Undefined | Null => false
  | Bool b => b
  | Num x => negb (PrimFloat.is_nan x || PrimFloat.eqb x 0)
  | Str s => negb (String.eqb s "")
  | Arr _ | Obj _ => true
  end.

(** [a || b] *)
Definition or_else (a b : value) : value := if truthy a then a else b.

(** Own property of an object literal; [JSON.parse] keeps the last of
    duplicated names. *)
Fixpoint own_prop (props : list (string * value)) (name : string) : value :=
  match props with
  | [] => Undefined
  | (k, v) :: rest =>
      match own_prop rest name with
      | Undefined => if String.eqb k name then v else Undefined
      | later => later
      end
  end.

Definition of_nat (n : nat) : float := PrimFloat.of_uint63 (Uint63.of_Z (Z.of_nat n)).

(** [v.name] for the property names the jobs read.  Reading a property of
    [null] or [undefined] throws; primitives and arrays have none of these
    names on their prototypes, except [length]. *)
Definition get_prop (v : value) (name : string) : result value :=
  match v with
  | Undefined =>
      Throw (TypeError ("Cannot read properties of undefined (reading '" +:+ name +:+ "')"))
  | Null =>
      Throw (TypeError ("Cannot read properties of null (reading '" +:+ name +:+ "')"))
  | Obj props => Ok (own_prop props name)
  | Arr elems =>
      Ok (if String.eqb name "length" then Num (of_nat (length elems)) else Undefined)
  | Str s =>
      Ok (if String.eqb name "length" then Num (of_nat (String.length s)) else Undefined)
  | Bool _ | Num _ => Ok Undefined
  end.

(** [null] and [undefined], the values without properties. *)
Definition nullish (v : value) : bool :=
  match v with Undefined | Null => true | _ => false end.

(** [v === undefined] *)
Definition is_undefined (v : value) : bool :=
  match v with Undefined => true | _ => false end.

(** [Array.isArray(v)], and the elements of an array. *)
Definition is_array (v : value) : bool :=
  match v with Arr _ => true | _ => false end.

Definition elements (v : value) : list value :=
  match v with Arr elems => elems | _ => [] end.

(** A string or [undefined] (as [key.split(':')[1]] is) as a value, and
    inside a template literal. *)
Definition of_opt (s : option string) : value :=
  match s with Some s => Str s | None => Undefined end.

Definition tpl (s : option string) : string := default "undefined" s.

(** A string or [null] (as a store read is) is truthy when it is a
    non-empty string. *)
Definition truthy_str (s : option string) : bool :=
  match s with Some s => negb (String.eqb s "") | None => false end.

(** [s.split(sep)] for a one-character separator. *)
Fixpoint split_on (sep : ascii) (s : string) : list string :=
  match s with
  | EmptyString => [""]
  | String c rest =>
      if Ascii.eqb c sep then "" :: split_on sep rest
      else match split_on sep rest with
           | seg :: segs => String c seg :: segs
           | [] => [String c ""]
           end
  end.

(** *** Number formatting *)

(** The integer nearest to [m * 2^e * 100], the larger one on a tie. *)
Definition scaled_hundredths (m : positive) (e : Z) : Z :=
  if (0 <=? e)%Z then (Z.pos m * 2 ^ e * 100)%Z
  else ((2 * Z.pos m * 100 + 2 ^ (- e)) / (2 * 2 ^ (- e)))%Z.

(** The digits of [n] with a point before the last two, padded with zeros
    to three digits. *)
Definition two_decimals (n : Z) : string :=
  let digits := pretty (Z.to_N n) in
  let padded :=
    match String.length digits with
    | 1 => "00" +:+ digits
    | 2 => "0" +:+ digits
    | _ => digits
    end in
  let k := String.length padded in
  substring 0 (k - 2) padded +:+ "." +:+ substring (k - 2) 2 padded.

Definition at_least_1e21 (m : positive) (e : Z) : bool :=
  if (0 <=? e)%Z then (10 ^ 21 <=? Z.pos m * 2 ^ e)%Z else false.

End JS.
Export JS.

(** ** The host language *)

(** Built-ins the jobs call and this development does not define:
    the JSON codec, the printing of finite numbers, the conversion of
    strings and objects to primitives, and date formatting.  [JSON_parse]
    throws a [SyntaxError] on a text that is not JSON. *)
Class Host := {
  JSON_parse : string → result value;
  JSON_stringify : value → string;
  Number_toString_finite : float → string;
  StringToNumber : string → float;
  ObjectToString : value → result string;
  ObjectToNumber : value → result float;
  Date_toISOString : Z → string;
  Date_toLocaleString : Z → string;
}.

Section Coercions.
Context {host : Host}.

(** [Number::toString] *)
Definition Number_toString (x : float) : string :=
  if PrimFloat.is_nan x then "NaN"
  else if PrimFloat.is_infinity x then
    (if PrimFloat.ltb x 0 then "-Infinity" else "Infinity")
  else Number_toString_finite x.

(** [ToString], as a template literal applies it. *)
Definition ToString (v : value) : result string :=
  match v with
  | Undefined => Ok "undefined"
  | Null => Ok "null"
  | Bool true => Ok "true"
  | Bool false => Ok "false"
  | Num x => Ok (Number_toString x)
  | Str s => Ok s
  | Arr _ | Obj _ => ObjectToString v
  end.

(** [ToNumber], as [/] and [>] apply it. *)
Definition ToNumber (v : value) : result float :=
  match v with
  | Undefined => Ok PrimFloat.nan
  | Null => Ok PrimFloat.zero
  | Bool true => Ok PrimFloat.one
  | Bool false => Ok PrimFloat.zero
  | Num x => Ok x
  | Str s => Ok (StringToNumber s)
  | Arr _ | Obj _ => ObjectToNumber v
  end.

(** [x.toFixed(2)]: a value that is not finite prints as [Number::toString]
    does, one of magnitude [10^21] or more too; otherwise the sign, then
    the nearest hundredth. *)
Definition toFixed2 (x : float) : string :=
  match Prim2SF x with
  | S754_nan => "NaN"
  | S754_infinity s => if s then "-Infinity" else "Infinity"
  | S754_zero _ => "0.00"
  | S754_finite s m e =>
      if at_least_1e21 m e then Number_toString x
      else (if s then "-" else "") +:+ two_decimals (scaled_hundredths m e)
  end.

End Coercions.

(** ** External collaborators *)

(** One drawing call on a [PDFDocument]. *)
Inductive pdf_op :=
  | FontSize (size : nat)
  | Text (s : string) (x y : nat)
  | FillColor (color : string)
  | AddPage
  | SwitchToPage (i : nat)
  | EndDocument.

(** The message handed to the transport.  The static markup of the HTML
    body is left out: [html] lists the interpolated texts in their order,
    then the closing note. *)
Record Mail := {
  from : string;
  to : value;
  subject : string;
  html : list string;
  attachment_filename : string;
  attachment_content : string;
}.

(** The Document Store (the Mongoose models [Book] and [User]), the
    Document Renderer (PDFKit) and the Message Transport (nodemailer).
    Each operation of a stateful collaborator takes the collaborator's
    state and returns the next one with either a result or the error it
    throws; documents are plain objects.  [User_findById] and the two
    [findOneAnd] operations return [null] when nothing matches. *)
Class Collaborators := {
  Mongo : Type;
  Book_save : value → Mongo → result value * Mongo;
  Book_find : string → Mongo → result (list value) * Mongo;
  Book_findOneAndUpdate : string → string → value → Mongo → result value * Mongo;
  Book_findOneAndDelete : string → string → Mongo → result value * Mongo;
  Book_insertMany : list value → Mongo → result (list value) * Mongo;
  User_findById : option string → Mongo → result value * Mongo;
  PDF_bufferedPageCount : list pdf_op → nat;
  PDF_output : list pdf_op → result string;
  Smtp : Type;
  transporter_sendMail : Mail → Smtp → result string * Smtp;
}.

(** ** The world and the monad of the jobs *)

(** A key of the Key-Value Store holds a string and, when it was written
    with [setEx], the number of seconds it lives. *)
Record entry := { payload : string; ttl : option Z }.

(** [process.env] *)
Record Env := { DEFAULT_EMAIL : option string; EMAIL_FROM : option string }.

Section Pipeline.
Context {host : Host} {services : Collaborators}.

(** The store is reachable or not, command by command: [redis_faults]
    lists what happens to the next commands, [None] for a command that is
    executed and [Some e] for one that rejects with [e]; past the end of
    the list every command is executed.  The clock returns [now] and then
    advances by the next of [ticks]. *)
Record World := {
  redis : gmap string entry;
  redis_faults : list (option exn);
  mongo : Mongo;
  smtp : Smtp;
  now : Z;
  ticks : list Z;
  env : Env;
}.

Definition set_redis (m : gmap string entry) (w : World) : World :=
  {| redis := m; redis_faults := redis_faults w; mongo := mongo w;
     smtp := smtp w; now := now w; ticks := ticks w; env := env w |}.
Definition set_redis_faults (fs : list (option exn)) (w : World) : World :=
  {| redis := redis w; redis_faults := fs; mongo := mongo w;
     smtp := smtp w; now := now w; ticks := ticks w; env := env w |}.
Definition set_mongo (d : Mongo) (w : World) : World :=
  {| redis := redis w; redis_faults := redis_faults w; mongo := d;
     smtp := smtp w; now := now w; ticks := ticks w; env := env w |}.
Definition set_smtp (t : Smtp) (w : World) : World :=
  {| redis := redis w; redis_faults := redis_faults w; mongo := mongo w;
     smtp := t; now := now w; ticks := ticks w; env := env w |}.
Definition set_clock (t : Z) (ts : list Z) (w : World) : World :=
  {| redis := redis w; redis_faults := redis_faults w; mongo := mongo w;
     smtp := smtp w; now := t; ticks := ts; env := env w |}.

(** An asynchronous function: it runs on a world and leaves the next one,
    with its result or with the error it threw.  What was done before a
    throw stays done. *)
Definition M (A : Type) : Type := World → result A * World.

#[export] Instance M_ret : MRet M := λ A a w, (Ok a, w).
#[export] Instance M_bind : MBind M := λ A B f m w,
  match m w with
  | (Ok a, w') => f a w'
  | (Throw e, w') => (Throw e, w')
  end.

Definition throw {A} (e : exn) : M A := λ w, (Throw e, w).

Definition lift {A} (r : result A) : M A := λ w, (r, w).

(** [try { body } catch (error) { handler }] *)
Definition try_catch {A} (body : M A) (handler : exn → M A) : M A := λ w,
  match body w with
  | (Ok a, w') => (Ok a, w')
  | (Throw e, w') => handler e w'
  end.

(** What a [try] block hands to the statements after it: the outcome of
    its body, which does not propagate. *)
Definition outcome {A} (body : M A) : M (result A) := λ w,
  let (r, w') := body w in (Ok r, w').

(** [for (const x of xs) { body }] *)
Fixpoint for_of {A} (xs : list A) (body : A → M unit) : M unit :=
  match xs with
  | [] => mret tt
  | x :: rest => body x;; for_of rest body
  end.

(** [Date.now()], and the time of [new Date()] *)
Definition Date_now : M Z := λ w,
  (Ok (now w), set_clock (now w + hd 0%Z (ticks w)) (tl (ticks w)) w).

(** *** The store's commands *)

Definition redis_command {A} (run : gmap string entry → A * gmap string entry) : M A := λ w,
  match redis_faults w with
  | Some e :: later => (Throw e, set_redis_faults later w)
  | None :: later =>
      let (a, m) := run (redis w) in (Ok a, set_redis m (set_redis_faults later w))
  | [] =>
      let (a, m) := run (redis w) in (Ok a, set_redis m w)
  end.

Definition redis_get (key : string) : M (option string) :=
  redis_command (λ m, (payload <$> m !! key, m)).

Definition redis_setEx (key : string) (seconds : Z) (v : string) : M unit :=
  redis_command (λ m, (tt, <[key := {| payload := v; ttl := Some seconds |}]> m)).

Definition redis_del (key : string) : M unit :=
  redis_command (λ m, (tt, delete key m)).

(** [keys(prefix + '*')] *)
Definition redis_keys (prefix : string) : M (list string) :=
  redis_command (λ m, (filter (λ k, String.prefix prefix k = true) (map_to_list m).*1, m)).

(** The next command will be executed; the world once it has been. *)
Definition reachable (w : World) : Prop :=
  match redis_faults w with Some _ :: _ => False | _ => True end.

Definition after_command (w : World) : World :=
  set_redis_faults (tl (redis_faults w)) w.

Definition on_mongo {A} (op : Mongo → result A * Mongo) : M A := λ w,
  let (r, d) := op (mongo w) in (r, set_mongo d w).

Definition on_smtp {A} (op : Smtp → result A * Smtp) : M A := λ w,
  let (r, t) := op (smtp w) in (r, set_smtp t w).

(** [key.split(':')[1]] *)
Definition key_userId (key : string) : option string := split_on ":" key !! 1.

(** The log lines are left out, except where a template literal
    interpolates a value that [ToString] can throw on: [`${v}`]. *)
Definition interpolate (v : value) : M unit := _ ← lift (ToString v); mret tt.

(** ** The Ingestion Job ([bulkCron.js]) *)

(** An entry of [status.failures]: the position of the submission in the
    batch, the title it was submitted with or the placeholder, and the
    message of the error. *)
Record FailureDetail := { index : nat; title : value; error : string }.

(** The [status] object of a batch.  Its counters count the elements of an
    array and are natural numbers; [status_json] is the object that is
    written. *)
Record Status := {
  userId : option string;
  totalBooks : nat;
  successCount : nat;
  failureCount : nat;
  timestamp : string;
  failures : list FailureDetail;
}.

Definition failure_json (f : FailureDetail) : value :=
  Obj [("index", Num (of_nat (index f))); ("title", title f); ("error", Str (error f))].

Definition status_json (s : Status) : value :=
  Obj [("userId", of_opt (userId s));
       ("totalBooks", Num (of_nat (totalBooks s)));
       ("successCount", Num (of_nat (successCount s)));
       ("failureCount", Num (of_nat (failureCount s)));
       ("timestamp", Str (timestamp s));
       ("failures", Arr (failure_json <$> failures s))].

(** [status.successCount++] *)
Definition count_success (s : Status) : Status :=
  {| userId := userId s; totalBooks := totalBooks s;
     successCount := S (successCount s); failureCount := failureCount s;
     timestamp := timestamp s; failures := failures s |}.

(** [status.failureCount++; status.failures.push(f)] *)
Definition count_failure (f : FailureDetail) (s : Status) : Status :=
  {| userId := userId s; totalBooks := totalBooks s;
     successCount := successCount s; failureCount := S (failureCount s);
     timestamp := timestamp s; failures := failures s ++ [f] |}.

Definition missing_fields : exn := Error "Missing required fields: title and author".

(** [if (!book.title || !book.author) throw ...] *)
Definition validate (book : value) : M unit :=
  title ← lift (get_prop book "title");
  if negb (truthy title) then throw missing_fields
  else
    author ← lift (get_prop book "author");
    if negb (truthy author) then throw missing_fields else mret tt.

(** [new Book({ ... })] *)
Definition new_Book (userId : option string) (book : value) : M value :=
  title ← lift (get_prop book "title");
  author ← lift (get_prop book "author");
  isbn ← lift (get_prop book "isbn");
  publishedDate ← lift (get_prop book "publishedDate");
  genre ← lift (get_prop book "genre");
  description ← lift (get_prop book "description");
  mret (Obj [("title", title); ("author", author);
             ("isbn", or_else isbn Null);
             ("publishedDate", or_else publishedDate Null);
             ("genre", or_else genre Null);
             ("description", or_else description Null);
             ("userId", of_opt userId)]).

(** The inner [try] up to the save: validate, build the document, save
    it. *)
Definition insert_book (userId : option string) (book : value) : M unit :=
  validate book;;
  newBook ← new_Book userId book;
  on_mongo (Book_save newBook);;
  mret tt.

(** The inner [catch]: the failure detail of the book at position [i].
    It reads [book.title] again. *)
Definition record_failure (i : nat) (book : value) (e : exn) (status : Status) : M Status :=
  title ← lift (get_prop book "title");
  mret (count_failure
          {| index := i; title := or_else title (Str "Unknown"); error := message e |}
          status).

(** One turn of the loop, on the book at position [i]: the inner [try]
    and its [catch].  After the save the [try] counts the success and then
    logs the title; when that log line throws, the [catch] finds the
    success counted. *)
Definition attempt (userId : option string) (i : nat) (book : value) (status : Status)
    : M Status :=
  saved ← outcome (insert_book userId book);
  match saved with
  | Ok _ =>
      let status := count_success status in
      logged ← outcome (title ← lift (get_prop book "title"); interpolate title);
      match logged with
      | Ok _ => mret status
      | Throw e => record_failure i book e status
      end
  | Throw e => record_failure i book e status
  end.

(** [for (let i = 0; i < books.length; i++) { try { ... } catch { ... } }],
    from position [i] on. *)
Fixpoint process_books (userId : option string) (books : list value) (i : nat)
    (status : Status) : M Status :=
  match books with
  | [] => mret status
  | book :: rest =>
      status ← attempt userId i book status;
      process_books userId rest (S i) status
  end.

Definition status_key (userId : option string) (t : Z) : string :=
  "bulk_status:" +:+ tpl userId +:+ ":" +:+ pretty t.

Definition bulk_error_key (userId : option string) (t : Z) : string :=
  "bulk_error:" +:+ tpl userId +:+ ":" +:+ pretty t.

Definition bulk_error_json (userId : option string) (e : exn) (t : Z) : value :=
  Obj [("userId", of_opt userId); ("error", Str (message e));
       ("timestamp", Str (Date_toISOString t)); ("status", Str "failed")].

(** The outer [catch]: the Batch Error Record. *)
Definition store_bulk_error (userId : option string) (e : exn) : M unit :=
  t ← Date_now;
  let errorStatus := bulk_error_json userId e t in
  t ← Date_now;
  let errorKey := bulk_error_key userId t in
  redis_setEx errorKey 86400 (JSON_stringify errorStatus).

(** The body of the loop over the discovered keys: one pass over [key]. *)
Definition process_bulk_key (key : string) : M unit :=
  let userId := key_userId key in
  try_catch
    (booksData ← redis_get key;
     if negb (truthy_str booksData) then mret tt
     else
       books ← lift (JSON_parse (default "" booksData));
       if negb (is_array books) || (length (elements books) =? 0) then redis_del key
       else
         t ← Date_now;
         let status :=
           {| userId := userId; totalBooks := length (elements books);
              successCount := 0; failureCount := 0;
              timestamp := Date_toISOString t; failures := [] |} in
         status ← process_books userId (elements books) 0 status;
         t ← Date_now;
         redis_setEx (status_key userId t) 86400 (JSON_stringify (status_json status));;
         redis_del key)
    (store_bulk_error userId).

(** [processBulkBooks]: scan for the pending batches and pass over each.
    An error that escapes a pass ends the run. *)
Definition processBulkBooks : M unit :=
  try_catch
    (keys ← redis_keys "bulk_books:";
     match keys with
     | [] => mret tt
     | _ => for_of keys process_bulk_key
     end)
    (λ _, mret tt).

(** ** The Report Job *)

(** [${statusData.name}] *)
Definition field_text (statusData : value) (name : string) : result string :=
  v ← get_prop statusData name; ToString v.

(** [v > 0] *)
Definition gt0 (v : value) : result bool :=
  x ← ToNumber v; mret (PrimFloat.ltb 0 x).

(** [((statusData.successCount / statusData.totalBooks) * 100).toFixed(2)],
    followed by the percent sign. *)
Definition success_rate (statusData : value) : result string :=
  successCount ← get_prop statusData "successCount";
  totalBooks ← get_prop statusData "totalBooks";
  a ← ToNumber successCount;
  b ← ToNumber totalBooks;
  mret (toFixed2 (PrimFloat.mul (PrimFloat.div a b) 100) +:+ "%").

(** The callback of [statusData.failures.forEach], from the failure at
    position [index] on, with the pen at [yPosition]. *)
Fixpoint failure_blocks (items : list value) (index yPosition : nat)
    : result (list pdf_op) :=
  match items with
  | [] => mret []
  | failure :: rest =>
      let page := if 700 <? yPosition then [AddPage] else [] in
      let yPosition := if 700 <? yPosition then 50 else yPosition in
      title ← field_text failure "title";
      idx ← field_text failure "index";
      err ← field_text failure "error";
      later ← failure_blocks rest (S index) (yPosition + 50);
      mret (page ++
            [FontSize 12;
             Text (pretty (index + 1) +:+ ". Title: " +:+ title) 100 yPosition;
             Text ("   Index: " +:+ idx) 100 (yPosition + 15);
             Text ("   Error: " +:+ err) 100 (yPosition + 30)] ++
            later)
  end.

(** The failures section: present when [statusData.failures] is truthy and
    its [length] is positive; [forEach] exists on arrays only. *)
Definition failures_section (statusData : value) : result (list pdf_op) :=
  failures ← get_prop statusData "failures";
  len ← (if truthy failures then get_prop failures "length" else Ok Undefined);
  shown ← (if truthy failures then gt0 len else Ok false);
  if shown : bool then
    match failures with
    | Arr items =>
        blocks ← failure_blocks items 0 325;
        mret ([FontSize 16; Text "Failed Items Details" 100 300] ++ blocks)
    | _ => Throw (TypeError "statusData.failures.forEach is not a function")
    end
  else mret [].

(** The page footers, for the pages [i], [i+1], ... below [pageCount]. *)
Fixpoint footers (n i pageCount : nat) : list pdf_op :=
  match n with
  | 0 => []
  | S n =>
      [SwitchToPage i; FontSize 10;
       Text ("Page " +:+ pretty (i + 1) +:+ " of " +:+ pretty pageCount) 450 750]
      ++ footers n (S i) pageCount
  end.

(** The drawing calls of [generatePDFReport], up to the footer. *)
Definition report_content (statusData : value) (userId : option string)
    (generated reportId : Z) : result (list pdf_op) :=
  stamp ← field_text statusData "timestamp";
  total ← field_text statusData "totalBooks";
  succeeded ← field_text statusData "successCount";
  failed ← field_text statusData "failureCount";
  rate ← success_rate statusData;
  anySuccess ← (get_prop statusData "successCount" ≫= gt0);
  anyFailure ← (get_prop statusData "failureCount" ≫= gt0);
  details ← failures_section statusData;
  mret ([FontSize 20; Text "Books Bulk Insertion Report" 100 50;
         FontSize 12; Text ("Generated on: " +:+ Date_toLocaleString generated) 100 80;
         Text ("Report ID: " +:+ pretty reportId) 100 95;
         FontSize 16; Text "User Details" 100 130;
         FontSize 12; Text ("User ID: " +:+ tpl userId) 100 155;
         Text ("Process Timestamp: " +:+ stamp) 100 170;
         FontSize 16; Text "Summary" 100 200;
         FontSize 12; Text ("Total Books Processed: " +:+ total) 100 225;
         Text ("Successful Insertions: " +:+ succeeded) 100 240;
         Text ("Failed Insertions: " +:+ failed) 100 255;
         Text ("Success Rate: " +:+ rate) 100 270] ++
        (if anySuccess : bool
         then [FillColor "green"; Text "✓" 80 240; FillColor "black"] else []) ++
        (if anyFailure : bool
         then [FillColor "red"; Text "✗" 80 255; FillColor "black"] else []) ++
        details).

(** [generatePDFReport]: an error thrown while drawing rejects the promise. *)
Definition generatePDFReport (statusData : value) (userId : option string) : M string :=
  generated ← Date_now;
  reportId ← Date_now;
  content ← lift (report_content statusData userId generated reportId);
  let pageCount := PDF_bufferedPageCount content in
  lift (PDF_output (content ++ footers pageCount 0 pageCount ++ [EndDocument])).

(** [process.env.NAME || fallback] *)
Definition env_or (v : option string) (fallback : string) : string :=
  if truthy_str v then default "" v else fallback.

Definition get_env : M Env := λ w, (Ok (env w), w).

(** [getUserEmail] *)
Definition getUserEmail (userId : option string) : M value :=
  try_catch
    (user ← on_mongo (User_findById userId);
     email ← (if truthy user then lift (get_prop user "email") else mret Undefined);
     if truthy email then mret email
     else
       cachedEmail ← redis_get ("user_email:" +:+ tpl userId);
       if truthy_str cachedEmail then mret (of_opt cachedEmail)
       else
         e ← get_env;
         mret (Str (env_or (DEFAULT_EMAIL e) "admin@example.com")))
    (λ e, throw e).

Definition all_succeeded : string := "Success! All books were inserted successfully.".
Definition some_failed : string :=
  "Note: Some books failed to insert. Please check the attached PDF report for detailed error information.".

(** The interpolated texts of the message body, in their order. *)
Definition mail_texts (statusData : value) (userId : option string) : result (list string) :=
  total ← field_text statusData "totalBooks";
  succeeded ← field_text statusData "successCount";
  failed ← field_text statusData "failureCount";
  rate ← success_rate statusData;
  stamp ← field_text statusData "timestamp";
  anyFailure ← (get_prop statusData "failureCount" ≫= gt0);
  mret [tpl userId; total; succeeded; failed; rate; stamp;
        if anyFailure : bool then some_failed else all_succeeded].

(** [sendReportEmail]; its two log lines interpolate the address. *)
Definition sendReportEmail (userEmail : value) (pdfBuffer : string)
    (statusData : value) (userId : option string) : M string :=
  try_catch
    (e ← get_env;
     texts ← lift (mail_texts statusData userId);
     t ← Date_now;
     let mailOptions :=
       {| from := env_or (EMAIL_FROM e) "noreply@booksapi.com";
          to := userEmail;
          subject := "Books Bulk Insertion Report";
          html := texts;
          attachment_filename := "books-report-" +:+ tpl userId +:+ "-" +:+ pretty t +:+ ".pdf";
          attachment_content := pdfBuffer |} in
     info ← on_smtp (transporter_sendMail mailOptions);
     interpolate userEmail;;
     mret info)
    (λ e, interpolate userEmail;; throw e).

Definition report_error_key (userId : option string) (t : Z) : string :=
  "report_error:" +:+ tpl userId +:+ ":" +:+ pretty t.

Definition report_error_json (userId : option string) (key : string) (e : exn) (t : Z) : value :=
  Obj [("userId", of_opt userId); ("originalKey", Str key); ("error", Str (message e));
       ("timestamp", Str (Date_toISOString t)); ("retryCount", Num 0)].

(** [!parsedStatus.userId || parsedStatus.totalBooks === undefined] *)
Definition invalid_status (parsedStatus : value) : result bool :=
  userId ← get_prop parsedStatus "userId";
  if negb (truthy userId) then mret true
  else totalBooks ← get_prop parsedStatus "totalBooks"; mret (is_undefined totalBooks).

(** Lookup, render and send: the address, the document, the message
    (and between the last two a log line with the address). *)
Definition send_report (userId : option string) (parsedStatus : value) : M unit :=
  userEmail ← getUserEmail userId;
  pdfBuffer ← generatePDFReport parsedStatus userId;
  interpolate userEmail;;
  sendReportEmail userEmail pdfBuffer parsedStatus userId;;
  mret tt.

(** The [catch] of the loop: the Report Error Record. *)
Definition store_report_error (userId : option string) (key : string) (e : exn) : M unit :=
  t ← Date_now;
  let errorKey := report_error_key userId t in
  t ← Date_now;
  let errorData := report_error_json userId key e t in
  redis_setEx errorKey 86400 (JSON_stringify errorData).

(** The body of the loop over the discovered status keys: one pass over
    [key].  (The two counters of the loop are only logged.) *)
Definition process_status_key (key : string) : M unit :=
  let userId := key_userId key in
  try_catch
    (statusData ← redis_get key;
     if negb (truthy_str statusData) then mret tt
     else
       parsedStatus ← lift (JSON_parse (default "" statusData));
       invalid ← lift (invalid_status parsedStatus);
       if invalid : bool then redis_del key
       else
         send_report userId parsedStatus;;
         redis_del key)
    (store_report_error userId key).

(** [processStatusReports] *)
Definition processStatusReports : M unit :=
  try_catch
    (statusKeys ← redis_keys "bulk_status:";
     match statusKeys with
     | [] => mret tt
     | _ => for_of statusKeys process_status_key
     end)
    (λ _, mret tt).

End Pipeline.

(** ** The book routes *)

(** The handlers of [routes/books.js], each as a function of the
    authenticated user's id and of the request.  They reach the Key-Value
    Store through the client of [config/redis], taken here to be a client
    of the store the jobs use. *)

Section Routes.
Context {host : Host} {services : Collaborators}.

(** What a handler answers: [res.status(code).json(body)]. *)
Record Response := { status : nat; json : value }.

Definition getUserCacheKey (userId key : string) : string :=
  "user:" +:+ userId +:+ ":" +:+ key.

(** [invalidateUserCache] *)
Definition invalidateUserCache (userId : string) : M unit :=
  let cacheKey := getUserCacheKey userId "books" in
  redis_del cacheKey.

Definition error_body (msg : string) : value := Obj [("error", Str msg)].

Definition error_details (msg : string) (e : exn) : value :=
  Obj [("error", Str msg); ("details", Str (message e))].

(** [error.code === 11000] *)
Definition is_duplicate (e : exn) : bool := bool_decide (code e = Some 11000%Z).

(** [POST /]: add a book. *)
Definition create_book (userId : string) (body : value) : M Response :=
  try_catch
    (title ← lift (get_prop body "title");
     author ← lift (get_prop body "author");
     isbn ← lift (get_prop body "isbn");
     publishedYear ← lift (get_prop body "publishedYear");
     genre ← lift (get_prop body "genre");
     if negb (truthy title) || negb (truthy author) || negb (truthy isbn) then
       mret {| status := 400; json := error_body "Title, author, and ISBN are required" |}
     else
       book ← on_mongo (Book_save
                 (Obj [("title", title); ("author", author); ("isbn", isbn);
                       ("publishedYear", publishedYear); ("genre", genre);
                       ("userId", Str userId)]));
       invalidateUserCache userId;;
       mret {| status := 201;
               json := Obj [("message", Str "Book created successfully"); ("book", book)] |})
    (λ e,
       if is_duplicate e then
         mret {| status := 400; json := error_body "Book with this ISBN already exists" |}
       else mret {| status := 500; json := error_details "Error creating book" e |}).

(** [GET /]: the user's books, from the cache when it holds them. *)
Definition list_books (userId : string) : M Response :=
  try_catch
    (let cacheKey := getUserCacheKey userId "books" in
     cachedBooks ← redis_get cacheKey;
     if truthy_str cachedBooks then
       books ← lift (JSON_parse (default "" cachedBooks));
       mret {| status := 200; json := Obj [("source", Str "cache"); ("books", books)] |}
     else
       books ← on_mongo (Book_find userId);
       redis_setEx cacheKey 3600 (JSON_stringify (Arr books));;
       mret {| status := 200;
               json := Obj [("source", Str "database"); ("books", Arr books)] |})
    (λ e, mret {| status := 500; json := error_details "Error fetching books" e |}).

(** [PUT /:id]: update a book. *)
Definition update_book (userId id : string) (body : value) : M Response :=
  try_catch
    (title ← lift (get_prop body "title");
     author ← lift (get_prop body "author");
     isbn ← lift (get_prop body "isbn");
     publishedYear ← lift (get_prop body "publishedYear");
     genre ← lift (get_prop body "genre");
     book ← on_mongo (Book_findOneAndUpdate id userId
               (Obj [("title", title); ("author", author); ("isbn", isbn);
                     ("publishedYear", publishedYear); ("genre", genre)]));
     if negb (truthy book) then
       mret {| status := 404; json := error_body "Book not found" |}
     else
       invalidateUserCache userId;;
       mret {| status := 200;
               json := Obj [("message", Str "Book updated successfully"); ("book", book)] |})
    (λ e,
       if is_duplicate e then
         mret {| status := 400; json := error_body "Book with this ISBN already exists" |}
       else mret {| status := 500; json := error_details "Error updating book" e |}).

(** [DELETE /:id]: delete a book. *)
Definition delete_book (userId id : string) : M Response :=
  try_catch
    (book ← on_mongo (Book_findOneAndDelete id userId);
     if negb (truthy book) then
       mret {| status := 404; json := error_body "Book not found" |}
     else
       invalidateUserCache userId;;
       mret {| status := 200;
               json := Obj [("message", Str "Book deleted successfully"); ("book", book)] |})
    (λ e, mret {| status := 500; json := error_details "Error deleting book" e |}).

(** [!book.title || !book.author || !book.isbn] *)
Definition lacks_bulk_field (book : value) : result bool :=
  title ← get_prop book "title";
  if negb (truthy title) then Ok true
  else
    author ← get_prop book "author";
    if negb (truthy author) then Ok true
    else isbn ← get_prop book "isbn"; Ok (negb (truthy isbn)).

(** The validation loop of [POST /bulk]: true at the first book that
    lacks a field. *)
Fixpoint any_lacks_field (books : list value) : result bool :=
  match books with
  | [] => Ok false
  | book :: rest =>
      bad ← lacks_bulk_field book;
      if bad : bool then Ok true else any_lacks_field rest
  end.

(** [{ ...book, userId }]; the books that reach it passed the validation
    loop, so they are objects. *)
Definition with_userId (userId : string) (book : value) : value :=
  match book with
  | Obj props => Obj (props ++ [("userId", Str userId)])
  | _ => Obj [("userId", Str userId)]
  end.

(** [POST /bulk]: add several books at once. *)
Definition bulk_create (userId : string) (body : value) : M Response :=
  try_catch
    (books ← lift (get_prop body "books");
     if negb (truthy books) || negb (is_array books) || (length (elements books) =? 0) then
       mret {| status := 400;
               json := error_body "Books array is required and must not be empty" |}
     else
       bad ← lift (any_lacks_field (elements books));
       if bad : bool then
         mret {| status := 400;
                 json := error_body "Each book must have title, author, and ISBN" |}
       else
         insertedBooks ← on_mongo (Book_insertMany (with_userId userId <$> elements books));
         invalidateUserCache userId;;
         mret {| status := 201;
                 json := Obj [("message",
                               Str (pretty (length insertedBooks) +:+ " books inserted successfully"));
                              ("books", Arr insertedBooks)] |})
    (λ e,
       if is_duplicate e then
         invalidateUserCache userId;;
         mret {| status := 400;
                 json := error_details "Some books have duplicate ISBNs" e |}
       else mret {| status := 500; json := error_details "Error bulk inserting books" e |}).

(** [DELETE /cache/invalidate] *)
Definition invalidate_cache (userId : string) : M Response :=
  try_catch
    (invalidateUserCache userId;;
     mret {| status := 200; json := Obj [("message", Str "Cache invalidated successfully")] |})
    (λ e, mret {| status := 500; json := error_details "Error invalidating cache" e |}).

End Routes.

(** ** Predicates on computations *)

Section Predicates.
Context {host : Host} {services : Collaborators}.

(** [m] leaves every key outside [P] as it was. *)
Definition keeps {A} (P : string → Prop) (m : M A) : Prop :=
  ∀ w k, ¬ P k → redis (m w).2 !! k = redis w !! k.

(** The keys of the Ingestion Job: pending batches, status and error
    records. *)
Definition ingestion_key (k : string) : Prop :=
  String.prefix "bulk_books:" k = true ∨ String.prefix "bulk_status:" k = true ∨
  String.prefix "bulk_error:" k = true.

(** What holds of the answer of [m] and of the world it leaves. *)
Definition ensures {A} (m : M A) (Q : A → World → Prop) : Prop :=
  ∀ w a w', m w = (Ok a, w') → Q a w'.

(** A handler invalidates the user's cache when an answer with status 201
    or 200 comes with the cache entry gone. *)
Definition invalidated (uid : string) (resp : Response) (w : World) : Prop :=
  status resp = 201 ∨ status resp = 200 →
  redis w !! getUserCacheKey uid "books" = None.

(** What reading a property of [null] throws. *)
Definition null_userId : exn :=
  TypeError "Cannot read properties of null (reading 'userId')".

End Predicates.

(** ** The batch, as the specification describes it *)

Section Batch.
Context {host : Host} {services : Collaborators}.

(** The property [name] of a value that is neither [null] nor [undefined]. *)
Definition field (v : value) (name : string) : value :=
  match get_prop v name with Ok x => x | Throw _ => Undefined end.

(** The address of a user record, when the lookup found one that has it:
    [user && user.email]. *)
Definition address_of (user : value) : value :=
  if truthy user then field user "email" else Undefined.

(** What a count [n] over a total of zero is rendered as, the zero being
    [-0] when [negative] and [+0] otherwise: not a number for a count of
    zero, an infinity otherwise, negative when the signs of the count and
    of the zero differ. *)
Definition rate_over_zero (negative : bool) (n : float) : string :=
  match Prim2SF n with
  | S754_nan | S754_zero _ => "NaN%"
  | S754_infinity s | S754_finite s _ _ =>
      if xorb s negative then "-Infinity%" else "Infinity%"
  end.

(** A Book Submission: a value that has properties, with a title that a
    log line can interpolate (any text, number or other primitive). *)
Definition submission (book : value) : Prop :=
  nullish book = false ∧ is_Ok (ToString (field book "title")) = true.

(** A submission has both its title and its author. *)
Definition has_required_fields (book : value) : bool :=
  truthy (field book "title") && truthy (field book "author").

(** The document a submission is persisted as. *)
Definition book_document (userId : option string) (book : value) : value :=
  Obj [("title", field book "title"); ("author", field book "author");
       ("isbn", or_else (field book "isbn") Null);
       ("publishedDate", or_else (field book "publishedDate") Null);
       ("genre", or_else (field book "genre") Null);
       ("description", or_else (field book "description") Null);
       ("userId", of_opt userId)].

(** The submissions taken in their order, each against the document store
    the earlier ones left: [None] for one that has its required fields and
    persists without error, [Some e] for one rejected with the error [e].
    With the verdicts comes the document store after the batch. *)
Fixpoint run_batch (userId : option string) (books : list value) (d : Mongo)
    : list (option exn) * Mongo :=
  match books with
  | [] => ([], d)
  | book :: rest =>
      if has_required_fields book then
        let (r, d) := Book_save (book_document userId book) d in
        let (vs, d) := run_batch userId rest d in
        (match r with Ok _ => None | Throw e => Some e end :: vs, d)
      else
        let (vs, d) := run_batch userId rest d in
        (Some missing_fields :: vs, d)
  end.

(** The same for mappings whatever their titles: for each, whether it was
    saved, and the error it is recorded with, if any.  That error is the
    one of the validation or of the document store or, for a mapping that
    was saved, the one of the log line that fails to print its title. *)
Fixpoint run_mappings (userId : option string) (books : list value) (d : Mongo)
    : list (bool * option exn) * Mongo :=
  match books with
  | [] => ([], d)
  | book :: rest =>
      if has_required_fields book then
        let (r, d) := Book_save (book_document userId book) d in
        let (vs, d) := run_mappings userId rest d in
        (match r with
         | Ok _ =>
             (true, match ToString (field book "title") with
                    | Ok _ => None
                    | Throw e => Some e
                    end)
         | Throw e => (false, Some e)
         end :: vs, d)
      else
        let (vs, d) := run_mappings userId rest d in
        ((false, Some missing_fields) :: vs, d)
  end.

(** The number K of accepted submissions, and of rejected ones. *)
Definition accepted_count (vs : list (option exn)) : nat :=
  length (filter (λ v, v = None) vs).

Definition rejected_count (vs : list (option exn)) : nat :=
  length (filter (λ v, v ≠ None) vs).

(** The Failure Details of the rejected submissions, the first submission
    being at position [i]. *)
Fixpoint rejected (i : nat) (books : list value) (vs : list (option exn))
    : list FailureDetail :=
  match books, vs with
  | book :: books, Some e :: vs =>
      {| index := i; title := or_else (field book "title") (Str "Unknown");
         error := message e |}
      :: rejected (S i) books vs
  | _ :: books, None :: vs => rejected (S i) books vs
  | _, _ => []
  end.

End Batch.

(** ** The single-book read *)

(** [Book.findOne({ _id, userId })]: the document, or [null] when nothing
    matches. *)
Class Finder {services : Collaborators} := {
  Book_findOne : string → string → Mongo → result value * Mongo;
}.

Section SingleBook.
Context {host : Host} {services : Collaborators} {finder : Finder}.

(** [GET /:id]: one book of the user. *)
Definition get_book (userId id : string) : M Response :=
  try_catch
    (book ← on_mongo (Book_findOne id userId);
     if negb (truthy book) then
       mret {| status := 404; json := error_body "Book not found" |}
     else mret {| status := 200; json := Obj [("book", book)] |})
    (λ e, mret {| status := 500; json := error_details "Error fetching book" e |}).

End SingleBook.

(** ** The authentication middleware ([middleware/auth.js]) *)

Module Auth.

(** An error as [jwt.verify] throws it: its [name] and the error. *)
Record failure := { name : string; reason : exn }.

(** [jwt.verify(token, secret)]: the decoded payload, or the error it
    throws. *)
Class Jwt := { jwt_verify : string → option string → failure + value }.

(** [req.user] *)
Record user := { id : value; email : value; username : value }.

(** What the middleware does with a request: it answers it, or it sets
    [req.user] and calls [next()].  (The handlers behind it are
    asynchronous functions: the call returns.) *)
Inductive decision :=
  | Answered (res : Response)
  | Next (req_user : user).

Definition access_denied (msg : string) : decision :=
  Answered {| status := 401;
              json := Obj [("error", Str "Access denied"); ("message", Str msg)] |}.

(** The [catch]: the answer by the name of the error. *)
Definition on_error (error_name : string) : decision :=
  if String.eqb error_name "JsonWebTokenError" then access_denied "Invalid token"
  else if String.eqb error_name "TokenExpiredError" then access_denied "Token has expired"
  else access_denied "Token validation failed".

(** [{ id: decoded.id || decoded.userId, email: decoded.email,
       username: decoded.username }] *)
Definition attach (decoded : value) : result user :=
  id ← get_prop decoded "id";
  userId ← (if truthy id then Ok id else get_prop decoded "userId");
  email ← get_prop decoded "email";
  username ← get_prop decoded "username";
  Ok {| id := userId; email := email; username := username |}.

(** [authMiddleware], on the [Authorization] header of the request and
    [process.env.JWT_SECRET]. *)
Definition authMiddleware {jwt : Jwt} (JWT_SECRET authorization : option string) : decision :=
  if negb (truthy_str authorization) then access_denied "No authorization token provided"
  else
    let authHeader := default "" authorization in
    if negb (String.prefix "Bearer " authHeader) then
      access_denied "Invalid authorization format. Use Bearer token"
    else
      let token := substring 7 (String.length authHeader - 7) authHeader in
      if String.eqb token "" then access_denied "No token provided"
      else
        match jwt_verify token JWT_SECRET with
        | inl error => on_error (name error)
        | inr decoded =>
            match attach decoded with
            | Ok req_user => Next req_user
            | Throw _ => on_error "TypeError"
            end
        end.

End Auth.

(** ** More predicates on computations *)

Section Footprints.
Context {host : Host} {services : Collaborators}.

(** Every run of [m] relates the world it starts on to the one it
    leaves. *)
Definition respects {A} (R : relation World) (m : M A) : Prop := ∀ w, R w (m w).2.

(** Nothing was handed to the Message Transport. *)
Definition same_smtp : relation World := λ w w', smtp w' = smtp w.

(** A store that was reachable for good still is. *)
Definition still_up : relation World := λ w w',
  redis_faults w = [] → redis_faults w' = [].

(** [m] hands nothing to the Message Transport. *)
Definition silent {A} (m : M A) : Prop := respects same_smtp m.

(** [m] hands at most one message to the Message Transport. *)
Definition sends_at_most_one {A} (m : M A) : Prop :=
  ∀ w, smtp (m w).2 = smtp w ∨
       ∃ mail, smtp (m w).2 = (transporter_sendMail mail (smtp w)).2.

(** [m] finds the store reachable at each of its commands when it is for
    good. *)
Definition stays_up {A} (m : M A) : Prop := respects still_up m.

(** The keys of the Report Job: status records and its error records. *)
Definition report_key (k : string) : Prop :=
  String.prefix "bulk_status:" k = true ∨ String.prefix "report_error:" k = true.

(** The pages a run of drawing calls adds, and the rows of its texts. *)
Definition page_breaks (ops : list pdf_op) : nat :=
  length (List.filter (λ op, match op with AddPage => true | _ => false end) ops).

Definition text_rows (ops : list pdf_op) : list nat :=
  omap (λ op, match op with Text _ _ y => Some y | _ => None end) ops.

(** A pending batch that a pass leaves in place: its text is empty or
    does not parse. *)
Definition left_pending (e : entry) : bool :=
  String.eqb (payload e) "" || negb (is_Ok (JSON_parse (payload e))).

(** A required field of [POST /bulk] that a book lacks. *)
Definition lacks_field (book : value) : bool :=
  negb (truthy (field book "title")) || negb (truthy (field book "author")) ||
  negb (truthy (field book "isbn")).

End Footprints.

(** ** Reference implementations *)

Module Reference.

(** *** A host for the JSON texts without escapes, fractions and exponents *)

Definition dquote : string := String "034" "".

Definition quoted (s : string) : string := dquote +:+ s +:+ dquote.

Fixpoint join (sep : string) (parts : list string) : string :=
  match parts with
  | [] => ""
  | [p] => p
  | p :: rest => p +:+ sep +:+ join sep rest
  end.

(** The integer a finite double is, when it is one. *)
Definition integer_of (x : float) : option Z :=
  match Prim2SF x with
  | S754_zero _ => Some 0%Z
  | S754_finite s m e =>
      let n := if (0 <=? e)%Z then Some (Z.pos m * 2 ^ e)%Z
               else if (Z.pos m mod 2 ^ (- e) =? 0)%Z then Some (Z.pos m / 2 ^ (- e))%Z
               else None in
      (λ n, if s then (- n)%Z else n) <$> n
  | _ => None
  end.

(** Integers print in decimal; the other finite numbers are outside the
    fragment. *)
Definition number_text (x : float) : string :=
  match integer_of x with
  | Some n => pretty n
  | None => "<number>"
  end.

Definition float_of_Z (n : Z) : float :=
  if (n <? 0)%Z then PrimFloat.opp (PrimFloat.of_uint63 (Uint63.of_Z (- n)))
  else PrimFloat.of_uint63 (Uint63.of_Z n).

(** [JSON.stringify]: a property whose value is [undefined] is left out;
    inside an array [undefined] prints as [null], and so does a number
    that is not finite. *)
Fixpoint stringify (v : value) : string :=
  match v with
  | Undefined | Null => "null"
  | Bool true => "true"
  | Bool false => "false"
  | Num x => if PrimFloat.is_nan x || PrimFloat.is_infinity x then "null" else number_text x
  | Str s => quoted s
  | Arr elems => "[" +:+ join "," (map stringify elems) +:+ "]"
  | Obj props =>
      let members :=
        (fix members (props : list (string * value)) : list string :=
           match props with
           | [] => []
           | (_, Undefined) :: rest => members rest
           | (name, v) :: rest => (quoted name +:+ ":" +:+ stringify v) :: members rest
           end) in
      "{" +:+ join "," (members props) +:+ "}"
  end.

Definition is_space (c : ascii) : bool :=
  Ascii.eqb c " " || Ascii.eqb c "009" || Ascii.eqb c "010" || Ascii.eqb c "013".

Fixpoint skip_spaces (s : string) : string :=
  match s with
  | String c rest => if is_space c then skip_spaces rest else s
  | EmptyString => s
  end.

Definition digit_of (c : ascii) : option Z :=
  let n := nat_of_ascii c in
  if (48 <=? n) && (n <=? 57) then Some (Z.of_nat (n - 48)) else None.

(** The digits at the head of [s], as the number they spell after [acc],
    and how many they are. *)
Fixpoint read_digits (s : string) (acc : Z) (count : nat) : Z * nat * string :=
  match s with
  | String c rest =>
      match digit_of c with
      | Some d => read_digits rest (acc * 10 + d)%Z (S count)
      | None => (acc, count, s)
      end
  | EmptyString => (acc, count, s)
  end.

(** An integer literal of at most eighteen digits. *)
Definition read_integer (s : string) : option (float * string) :=
  let negative := match s with String "-" _ => true | _ => false end in
  let body := match s with String "-" rest => rest | _ => s end in
  match read_digits body 0 0 with
  | (n, count, rest) =>
      let leading_zero := match body with String "0" _ => true | _ => false end in
      if (count =? 0) || (18 <? count) || (leading_zero && (1 <? count)) then None
      else Some (if negative then PrimFloat.opp (float_of_Z n) else float_of_Z n, rest)
  end.

(** The characters up to the closing quote; a backslash or a control
    character is outside the fragment. *)
Fixpoint read_string (s : string) : option (string * string) :=
  match s with
  | String c rest =>
      if Ascii.eqb c "034" then Some ("", rest)
      else if Ascii.eqb c "\" || (nat_of_ascii c <? 32) then None
      else '(text, rest) ← read_string rest; Some (String c text, rest)
  | EmptyString => None
  end.

Definition expect (word : string) (s : string) : option string :=
  if String.prefix word s then Some (String.substring (String.length word)
                                       (String.length s - String.length word) s)
  else None.

(** The elements of an array after the first, up to the closing bracket. *)
Fixpoint read_elements (read : string → option (value * string)) (fuel : nat)
    (s : string) : option (list value * string) :=
  match fuel with
  | 0 => None
  | S fuel =>
      match skip_spaces s with
      | String "]" rest => Some ([], rest)
      | String "," rest =>
          '(v, rest) ← read rest;
          '(vs, rest) ← read_elements read fuel rest;
          Some (v :: vs, rest)
      | _ => None
      end
  end.

Definition read_member (read : string → option (value * string)) (s : string)
    : option (string * value * string) :=
  match skip_spaces s with
  | String c rest =>
      if Ascii.eqb c "034" then
        '(name, rest) ← read_string rest;
        match skip_spaces rest with
        | String ":" rest => '(v, rest) ← read rest; Some (name, v, rest)
        | _ => None
        end
      else None
  | EmptyString => None
  end.

(** The members of an object after the first, up to the closing brace. *)
Fixpoint read_members (read : string → option (value * string)) (fuel : nat)
    (s : string) : option (list (string * value) * string) :=
  match fuel with
  | 0 => None
  | S fuel =>
      match skip_spaces s with
      | String "}" rest => Some ([], rest)
      | String "," rest =>
          '(name, v, rest) ← read_member read rest;
          '(ms, rest) ← read_members read fuel rest;
          Some ((name, v) :: ms, rest)
      | _ => None
      end
  end.

Fixpoint read_value (fuel : nat) (s : string) : option (value * string) :=
  match fuel with
  | 0 => None
  | S fuel =>
      match skip_spaces s with
      | String "n" _ => rest ← expect "null" (skip_spaces s); Some (Null, rest)
      | String "t" _ => rest ← expect "true" (skip_spaces s); Some (Bool true, rest)
      | String "f" _ => rest ← expect "false" (skip_spaces s); Some (Bool false, rest)
      | String "[" rest =>
          match skip_spaces rest with
          | String "]" rest => Some (Arr [], rest)
          | _ =>
              '(v, rest) ← read_value fuel rest;
              '(vs, rest) ← read_elements (read_value fuel) (String.length rest) rest;
              Some (Arr (v :: vs), rest)
          end
      | String "{" rest =>
          match skip_spaces rest with
          | String "}" rest => Some (Obj [], rest)
          | _ =>
              '(name, v, rest) ← read_member (read_value fuel) rest;
              '(ms, rest) ← read_members (read_value fuel) (String.length rest) rest;
              Some (Obj ((name, v) :: ms), rest)
          end
      | String c rest =>
          if Ascii.eqb c "034" then '(text, rest) ← read_string rest; Some (Str text, rest)
          else '(x, rest) ← read_integer (skip_spaces s); Some (Num x, rest)
      | EmptyString => None
      end
  end.

Definition SyntaxError (text : string) : exn :=
  TypeError ("Unexpected token in JSON: " +:+ text).

(** [JSON.parse] *)
Definition parse (text : string) : result value :=
  match read_value (S (String.length text)) text with
  | Some (v, rest) =>
      match skip_spaces rest with
      | EmptyString => Ok v
      | _ => Throw (SyntaxError text)
      end
  | None => Throw (SyntaxError text)
  end.

(** [StringToNumber]: the empty text is zero, a run of digits with an
    optional sign is that integer, anything else is [NaN]. *)
Definition to_number (s : string) : float :=
  let s := skip_spaces s in
  let negative := match s with String "-" _ => true | _ => false end in
  let body := match s with String "-" rest | String "+" rest => rest | _ => s end in
  match s with
  | EmptyString => PrimFloat.zero
  | _ =>
      match read_digits body 0 0 with
      | (n, count, rest) =>
          match skip_spaces rest with
          | EmptyString =>
              if (count =? 0) || (18 <? count) then PrimFloat.nan
              else if negative then PrimFloat.opp (float_of_Z n) else float_of_Z n
          | _ => PrimFloat.nan
          end
      end
  end.

Definition not_primitive : exn := TypeError "Cannot convert object to primitive value".

(** An object read from JSON prints as [[object Object]], unless it has a
    property [toString] of its own, which is not a function; an array
    prints its elements, [null] as the empty text, between commas. *)
Fixpoint to_text (v : value) : result string :=
  match v with
  | Undefined => Ok "undefined"
  | Null => Ok "null"
  | Bool true => Ok "true"
  | Bool false => Ok "false"
  | Num x =>
      Ok (if PrimFloat.is_nan x then "NaN"
          else if PrimFloat.is_infinity x then
            (if PrimFloat.ltb x 0 then "-Infinity" else "Infinity")
          else number_text x)
  | Str s => Ok s
  | Arr elems =>
      let texts :=
        (fix texts (elems : list value) : result (list string) :=
           match elems with
           | [] => Ok []
           | (Undefined | Null) :: rest => later ← texts rest; Ok ("" :: later)
           | v :: rest => t ← to_text v; later ← texts rest; Ok (t :: later)
           end) in
      parts ← texts elems; Ok (join "," parts)
  | Obj props =>
      if existsb (λ kv, String.eqb (fst kv) "toString") props then Throw not_primitive
      else Ok "[object Object]"
  end.

Definition to_number_object (v : value) : result float :=
  t ← to_text v; Ok (to_number t).

Definition pad (width : nat) (n : Z) : string :=
  let digits := pretty (Z.to_N n) in
  String.concat "" (replicate (width - String.length digits) "0") +:+ digits.

(** The civil date of the day [days] after 1970-01-01. *)
Definition civil_from_days (days : Z) : Z * Z * Z :=
  let z := (days + 719468)%Z in
  let era := (z / 146097)%Z in
  let doe := (z - era * 146097)%Z in
  let yoe := ((doe - doe / 1460 + doe / 36524 - doe / 146096) / 365)%Z in
  let doy := (doe - (365 * yoe + yoe / 4 - yoe / 100))%Z in
  let mp := ((5 * doy + 2) / 153)%Z in
  let d := (doy - (153 * mp + 2) / 5 + 1)%Z in
  let m := if (mp <? 10)%Z then (mp + 3)%Z else (mp - 9)%Z in
  let y := (yoe + era * 400 + (if (m <=? 2)%Z then 1 else 0))%Z in
  (y, m, d).

(** [toISOString], for the years 0000 to 9999. *)
Definition iso_text (t : Z) : string :=
  let '(y, m, d) := civil_from_days (t / 86400000) in
  let ms := (t mod 86400000)%Z in
  pad 4 y +:+ "-" +:+ pad 2 m +:+ "-" +:+ pad 2 d +:+ "T" +:+
  pad 2 (ms / 3600000) +:+ ":" +:+ pad 2 (ms / 60000 mod 60) +:+ ":" +:+
  pad 2 (ms / 1000 mod 60) +:+ "." +:+ pad 3 (ms mod 1000) +:+ "Z".

(** [toLocaleString], for the locale en-US in the zone UTC. *)
Definition locale_text (t : Z) : string :=
  let '(y, m, d) := civil_from_days (t / 86400000) in
  let ms := (t mod 86400000)%Z in
  let h := (ms / 3600000)%Z in
  let h12 := if (h mod 12 =? 0)%Z then 12%Z else (h mod 12)%Z in
  pad 1 m +:+ "/" +:+ pad 1 d +:+ "/" +:+ pad 1 y +:+ ", " +:+
  pad 1 h12 +:+ ":" +:+ pad 2 (ms / 60000 mod 60) +:+ ":" +:+
  pad 2 (ms / 1000 mod 60) +:+ (if (h <? 12)%Z then " AM" else " PM").

#[export] Instance host : Host := {|
  JSON_parse := parse;
  JSON_stringify := stringify;
  Number_toString_finite := number_text;
  StringToNumber := to_number;
  ObjectToString := to_text;
  ObjectToNumber := to_number_object;
  Date_toISOString := iso_text;
  Date_toLocaleString := locale_text;
|}.

(** *** An in-memory document store, renderer and transport *)

(** Modelled from the spec: the models [models/books] and [models/User]
    are not among the sources.  The store holds the Book Records in their
    order of insertion and the User Records by id, with the next [_id] and
    what happens to the next commands ([None]: executed, [Some e]:
    rejected with [e]). *)
Record store := {
  books : list value;
  users : list (string * value);
  next_id : nat;
  mongo_faults : list (option exn);
}.

Definition command {A} (run : store → result A * store) (d : store) : result A * store :=
  match mongo_faults d with
  | Some e :: later =>
      (Throw e, {| books := books d; users := users d; next_id := next_id d;
                   mongo_faults := later |})
  | None :: later =>
      run {| books := books d; users := users d; next_id := next_id d;
             mongo_faults := later |}
  | [] => run d
  end.

Definition same_text (a b : value) : bool :=
  match a, b with
  | Str x, Str y => String.eqb x y
  | _, _ => false
  end.

Definition duplicate_key : exn :=
  mkError "E11000 duplicate key error collection: books index: isbn_1" (Some 11000%Z).

Definition isbn_taken (doc : value) (stored : list value) : bool :=
  truthy (field doc "isbn") &&
  existsb (λ other, same_text (field other "isbn") (field doc "isbn")) stored.

Definition with_id (id : nat) (doc : value) : value :=
  match doc with
  | Obj props => Obj (("_id", Str (pretty id)) :: props)
  | _ => Obj [("_id", Str (pretty id))]
  end.

(** Modelled from the spec: the model [models/books] is not among the
    sources.  A Book Record is persisted unless its isbn, where present,
    is the isbn of a record of the store, whoever owns it. *)
Definition save (doc : value) : store → result value * store :=
  command (λ d,
    if isbn_taken doc (books d) then (Throw duplicate_key, d)
    else
      let saved := with_id (next_id d) doc in
      (Ok saved, {| books := books d ++ [saved]; users := users d;
                    next_id := S (next_id d); mongo_faults := mongo_faults d |})).

Definition owned_by (userId : string) (doc : value) : bool :=
  same_text (field doc "userId") (Str userId).

Definition is_doc (id userId : string) (doc : value) : bool :=
  same_text (field doc "_id") (Str id) && owned_by userId doc.

(** The user's books, the newest first. *)
Definition find (userId : string) : store → result (list value) * store :=
  command (λ d, (Ok (rev (List.filter (owned_by userId) (books d))), d)).

(** The properties of [update] that are defined replace those of [doc]. *)
Definition merge (doc update : value) : value :=
  match doc, update with
  | Obj props, Obj changes =>
      let changes := List.filter (λ kv, negb (is_undefined (snd kv))) changes in
      Obj (List.filter (λ kv, negb (existsb (λ c, String.eqb (fst c) (fst kv)) changes)) props
           ++ changes)
  | _, _ => doc
  end.

Definition findOneAndUpdate (id userId : string) (update : value)
    : store → result value * store :=
  command (λ d,
    match List.find (is_doc id userId) (books d) with
    | None => (Ok Null, d)
    | Some doc =>
        let others := List.filter (λ b, negb (is_doc id userId b)) (books d) in
        let changed := merge doc update in
        if isbn_taken changed others then (Throw duplicate_key, d)
        else
          (Ok changed,
           {| books := (λ b, if is_doc id userId b then changed else b) <$> books d;
              users := users d; next_id := next_id d; mongo_faults := mongo_faults d |})
    end).

Definition findOneAndDelete (id userId : string) : store → result value * store :=
  command (λ d,
    match List.find (is_doc id userId) (books d) with
    | None => (Ok Null, d)
    | Some doc =>
        (Ok doc,
         {| books := List.filter (λ b, negb (is_doc id userId b)) (books d);
            users := users d; next_id := next_id d; mongo_faults := mongo_faults d |})
    end).

(** Unordered insertion: every document that can be persisted is, and a
    duplicate is reported once the others are in. *)
Fixpoint insert_each (docs : list value) (d : store) : list value * bool * store :=
  match docs with
  | [] => ([], false, d)
  | doc :: rest =>
      if isbn_taken doc (books d) then
        let '(inserted, _, d) := insert_each rest d in (inserted, true, d)
      else
        let saved := with_id (next_id d) doc in
        let '(inserted, dup, d) :=
          insert_each rest {| books := books d ++ [saved]; users := users d;
                              next_id := S (next_id d); mongo_faults := mongo_faults d |} in
        (saved :: inserted, dup, d)
  end.

Definition insertMany (docs : list value) : store → result (list value) * store :=
  command (λ d,
    let '(inserted, dup, d) := insert_each docs d in
    (if dup : bool then Throw duplicate_key else Ok inserted, d)).

Definition findById (userId : option string) : store → result value * store :=
  command (λ d,
    (Ok (match userId with
         | Some id => default Null (snd <$> List.find (λ u, String.eqb (fst u) id) (users d))
         | None => Null
         end), d)).

(** A renderer that buffers every page and prints the texts, one a line. *)
Definition page_count (ops : list pdf_op) : nat :=
  S (length (List.filter (λ op, match op with AddPage => true | _ => false end) ops)).

Definition render (ops : list pdf_op) : result string :=
  Ok (join (String "010" "")
        (omap (λ op, match op with Text s _ _ => Some s | _ => None end) ops)).

(** The messages sent, and what happens to the next ones. *)
Record transport := { outbox : list Mail; refusals : list (option exn) }.

Definition sendMail (mail : Mail) (t : transport) : result string * transport :=
  match refusals t with
  | Some e :: later => (Throw e, {| outbox := outbox t; refusals := later |})
  | None :: later =>
      (Ok ("<" +:+ pretty (length (outbox t)) +:+ "@booksapi>"),
       {| outbox := outbox t ++ [mail]; refusals := later |})
  | [] =>
      (Ok ("<" +:+ pretty (length (outbox t)) +:+ "@booksapi>"),
       {| outbox := outbox t ++ [mail]; refusals := [] |})
  end.

#[export] Instance collaborators : Collaborators := {|
  Mongo := store;
  Book_save := save;
  Book_find := find;
  Book_findOneAndUpdate := findOneAndUpdate;
  Book_findOneAndDelete := findOneAndDelete;
  Book_insertMany := insertMany;
  User_findById := findById;
  PDF_bufferedPageCount := page_count;
  PDF_output := render;
  Smtp := transport;
  transporter_sendMail := sendMail;
|}.

(** A world with the store reachable, the clock at [t] and standing. *)
Definition world (kv : gmap string entry) (d : store) (t : Z) : World :=
  {| redis := kv; redis_faults := []; mongo := d;
     smtp := {| outbox := []; refusals := [] |};
     now := t; ticks := [];
     env := {| DEFAULT_EMAIL := None; EMAIL_FROM := None |} |}.

Definition fresh_entry (text : string) : entry := {| payload := text; ttl := None |}.

(** The book with this id among the user's. *)
Definition findOne (id userId : string) : store → result value * store :=
  command (λ d, (Ok (default Null (List.find (is_doc id userId) (books d))), d)).

#[export] Instance finder : Finder := {| Book_findOne := findOne |}.

(** *** A verifier of unsigned tokens *)

Definition JsonWebTokenError (msg : string) : Auth.failure :=
  {| Auth.name := "JsonWebTokenError"; Auth.reason := Error msg |}.

Definition TokenExpiredError : Auth.failure :=
  {| Auth.name := "TokenExpiredError"; Auth.reason := Error "jwt expired" |}.

(** A token is the secret, a point and the payload as a JSON text; a
    payload with a truthy [expired] has expired. *)
Definition verify (token : string) (secret : option string) : Auth.failure + value :=
  match secret with
  | None => inl (JsonWebTokenError "secret or public key must be provided")
  | Some key =>
      if String.prefix (key +:+ ".") token then
        let text := substring (String.length key + 1)
                      (String.length token - (String.length key + 1)) token in
        match parse text with
        | Ok payload =>
            if truthy (field payload "expired") then inl TokenExpiredError else inr payload
        | Throw _ => inl (JsonWebTokenError "jwt malformed")
        end
      else inl (JsonWebTokenError "invalid signature")
  end.

#[export] Instance jwt : Auth.Jwt := {| Auth.jwt_verify := verify |}.

End Reference.

(** ** Worlds to run the jobs on *)

Module Examples.
Import Reference.

(** The batch of the specification's example, and a store in which the
    isbn of its third submission is taken by a book of another user. *)
Definition batch : list value :=
  [Obj [("title", Str "A"); ("author", Str "X")];
   Obj [("title", Str ""); ("author", Str "Y")];
   Obj [("title", Str "C"); ("author", Str "Z"); ("isbn", Str "same")]].

Definition library : store :=
  {| books := [Obj [("_id", Str "0"); ("title", Str "Old"); ("author", Str "O");
                    ("isbn", Str "same"); ("userId", Str "u9")]];
     users := [("u1", Obj [("_id", Str "u1"); ("email", Str "u1@example.com")])];
     next_id := 1;
     mongo_faults := [] |}.

Definition pending : World :=
  world {[ "bulk_books:u1" := fresh_entry (stringify (Arr batch)) ]} library 1700000000000.

(** A pending batch whose text is not JSON, and an empty one. *)
Definition unparsed : World :=
  world {[ "bulk_books:u1" := fresh_entry "not json" ]} library 1700000000000.


Definition empty_batch : World :=
  world {[ "bulk_books:u1" := fresh_entry "[]" ]} library 1700000000000.

(** Status records: the one the example leaves, one with a total of zero,
    and the text [null]. *)
Definition report : value :=
  Obj [("userId", Str "u1"); ("totalBooks", Num 3); ("successCount", Num 1);
       ("failureCount", Num 2); ("timestamp", Str "2023-11-14T22:13:20.000Z");
       ("failures",
        Arr [Obj [("index", Num 1); ("title", Str "Unknown");
                  ("error", Str "Missing required fields: title and author")];
             Obj [("index", Num 2); ("title", Str "C"); ("error", Str "duplicate isbn")]])].

Definition zero_total : value :=
  Obj [("userId", Str "u1"); ("totalBooks", Num 0); ("successCount", Num 0);
       ("failureCount", Num 0); ("timestamp", Str "2023-11-14T22:13:20.000Z");
       ("failures", Arr [])].

Definition status_entry (v : value) : entry :=
  {| payload := stringify v; ttl := Some 86400%Z |}.

Definition reported (v : value) : World :=
  world {[ "bulk_status:u1:1699999999000" := status_entry v ]} library 1700000000000.

Definition null_status : World :=
  world {[ "bulk_status:u1:1699999999000" := fresh_entry "null" ]} library 1700000000000.

Definition empty_status : World :=
  world {[ "bulk_status:u1:1699999999000" := fresh_entry "" ]} library 1700000000000.

(** A status record without its [totalBooks]. *)
Definition incomplete : value := Obj [("userId", Str "u1"); ("successCount", Num 1)].

(** The transport refuses the next message; the document store rejects
    the next command. *)
Definition refused : exn := Error "Connection timeout".

Definition refusing (w : World) : World :=
  set_smtp {| outbox := []; refusals := [Some refused] |} w.

Definition disconnected : exn := Error "Topology was destroyed".

Definition unreachable_users (w : World) : World :=
  set_mongo {| books := books (mongo w); users := users (mongo w);
               next_id := next_id (mongo w); mongo_faults := [Some disconnected] |} w.

(** The store executes the read of the status record, rejects the next
    command and executes the one after; a document store without users. *)
Definition lost : exn := Error "Socket closed unexpectedly".

Definition flaky (w : World) : World := set_redis_faults [None; Some lost; None] w.

Definition anonymous (w : World) : World :=
  set_mongo {| books := books (mongo w); users := []; next_id := next_id (mongo w);
               mongo_faults := [] |} w.

(** A cached address for a user the document store does not know. *)
Definition addressed : World :=
  world {[ "user_email:u2" := fresh_entry "u2@example.org" ]} library 1700000000000.

(** A pending batch with a [null] after its first submission. *)
Definition holed : World :=
  world {[ "bulk_books:u1" :=
             fresh_entry (stringify (Arr [Obj [("title", Str "A"); ("author", Str "X")];
                                          Null])) ]}
        library 1700000000000.

(** A user's cached book list, empty, and a pending batch of one book. *)
Definition cached : World :=
  world {[ "bulk_books:u1" :=
             fresh_entry (stringify (Arr [Obj [("title", Str "A"); ("author", Str "X")]]));
           "user:u1:books" := {| payload := "[]"; ttl := Some 3600%Z |} ]}
        library 1700000000000.

(** Two pending batches: the batch of the example and an empty one. *)
Definition two_pending : World :=
  world {[ "bulk_books:u1" := fresh_entry (stringify (Arr batch));
           "bulk_books:u2" := fresh_entry "[]" ]}
        library 1700000000000.

(** Two pending batches: a text that is not JSON and the batch of the
    example. *)
Definition mixed_pending : World :=
  world {[ "bulk_books:u1" := fresh_entry "not json";
           "bulk_books:u2" := fresh_entry (stringify (Arr batch)) ]}
        library 1700000000000.

(** The store rejects the next command; it executes the next command and
    rejects the two after it. *)
Definition unreachable (w : World) : World := set_redis_faults [Some lost] w.

Definition going_down (w : World) : World :=
  set_redis_faults [None; Some lost; Some lost] w.

(** Nine failure details. *)
Definition nine_failures : list value :=
  replicate 9 (Obj [("index", Num 1); ("title", Str "Unknown");
                    ("error", Str "Missing required fields: title and author")]).

(** Request bodies: a book, a book without its isbn, a batch with such a
    book after a complete one, a batch with the isbn of the library's
    book. *)
Definition new_book : value :=
  Obj [("title", Str "A"); ("author", Str "X"); ("isbn", Str "111")].

Definition no_isbn : value := Obj [("title", Str "B"); ("author", Str "Y")].

Definition mixed_batch : value := Obj [("books", Arr [new_book; no_isbn])].

Definition taken : value :=
  Obj [("title", Str "C"); ("author", Str "Z"); ("isbn", Str "same")].

Definition duplicate_batch : value := Obj [("books", Arr [new_book; taken])].

(** A cached book list that is not JSON. *)
Definition corrupt : World :=
  world {[ "user:u1:books" := {| payload := "[{"; ttl := Some 3600%Z |} ]}
        library 1700000000000.

(** A token for the user u1, signed with the secret s3cret. *)
Definition token_u1 : string := "s3cret." +:+ stringify (Obj [("userId", Str "u1")]).

(** The default address of the configuration, set. *)
Definition configured (address : string) (w : World) : World :=
  {| redis := redis w; redis_faults := redis_faults w; mongo := mongo w; smtp := smtp w;
     now := now w; ticks := ticks w;
     env := {| DEFAULT_EMAIL := Some address; EMAIL_FROM := EMAIL_FROM (env w) |} |}.

(** The sender of the configuration, set. *)
Definition sending_as (address : string) (w : World) : World :=
  {| redis := redis w; redis_faults := redis_faults w; mongo := mongo w; smtp := smtp w;
     now := now w; ticks := ticks w;
     env := {| DEFAULT_EMAIL := DEFAULT_EMAIL (env w); EMAIL_FROM := Some address |} |}.

(** A book whose title is an object with a property [toString] that is
    not a function, and a pending batch of that one book. *)
Definition unprintable : value :=
  Obj [("title", Obj [("toString", Num 1)]); ("author", Str "X")].

Definition exotic : World :=
  world {[ "bulk_books:u1" := fresh_entry (stringify (Arr [unprintable])) ]}
        library 1700000000000.

End Examples.

(** * Correctness *)

Section Correctness.
Context {host : Host} {services : Collaborators}.

(** *** Running a computation *)

Lemma bind_Throw {A B} (m : M A) (f : A → M B) w e w' :
  m w = (Throw e, w') → (m ≫= f) w = (Throw e, w').
Proof. intros E. unfold mbind, M_bind. by rewrite E. Qed.

Lemma after_command_up w : redis_faults w = [] → after_command w = w.
Proof. unfold after_command. destruct w; simpl. by intros ->. Qed.

Lemma reachable_up w : redis_faults w = [] → reachable w.
Proof. unfold reachable. by intros ->. Qed.

Lemma redis_command_run {A} (run : gmap string entry → A * gmap string entry) w :
  reachable w →
  redis_command run w =
    (Ok (run (redis w)).1, set_redis (run (redis w)).2 (after_command w)).
Proof.
  unfold reachable, redis_command, after_command.
  destruct w as [m [|[e|] fs] ? ? ? ? ?]; simpl; try done; by destruct (run m).
Qed.

Lemma redis_command_fault {A} (run : gmap string entry → A * gmap string entry) w err fs :
  redis_faults w = Some err :: fs → redis_command run w = (Throw err, after_command w).
Proof. unfold redis_command, after_command. by intros ->. Qed.

(** *** The loop over the submissions *)

Lemma get_prop_field v name : nullish v = false → get_prop v name = Ok (field v name).
Proof. unfold field. by destruct v. Qed.

(** A value with properties whose title is neither an array nor an object
    is a submission. *)
Lemma submission_primitive book :
  nullish book = false →
  is_array (field book "title") = false →
  (∀ props, field book "title" ≠ Obj props) →
  submission book.
Proof.
  intros Hn Harr Hobj. split; [done|].
  destruct (field book "title") as [| |[]| | | |props]; try done.
  by destruct (Hobj props).
Qed.

Lemma validate_run book w :
  nullish book = false →
  validate book w = (if has_required_fields book then Ok tt else Throw missing_fields, w).
Proof.
  intros Hn. unfold validate, has_required_fields.
  rewrite !(get_prop_field _ _ Hn). unfold mbind, M_bind, lift, throw, mret, M_ret.
  destruct (truthy (field book "title")); simpl; [|done].
  by destruct (truthy (field book "author")).
Qed.

Lemma new_Book_run userId book w :
  nullish book = false → new_Book userId book w = (Ok (book_document userId book), w).
Proof.
  intros Hn. unfold new_Book. rewrite !(get_prop_field _ _ Hn). done.
Qed.

Lemma insert_book_run uid book w :
  nullish book = false →
  insert_book uid book w =
    if has_required_fields book then
      let (r, d) := Book_save (book_document uid book) (mongo w) in
      (match r with Ok _ => Ok tt | Throw e => Throw e end, set_mongo d w)
    else (Throw missing_fields, w).
Proof.
  intros Hn. unfold insert_book.
  unfold mbind at 1, M_bind. rewrite (validate_run _ _ Hn).
  destruct (has_required_fields book); [|done].
  unfold mbind at 1, M_bind. rewrite (new_Book_run _ _ _ Hn).
  unfold mbind, M_bind, on_mongo, mret, M_ret.
  by destruct (Book_save _ _) as [[?|?] ?].
Qed.

Lemma record_failure_run i book e st w :
  nullish book = false →
  record_failure i book e st w =
    (Ok (count_failure
           {| index := i; title := or_else (field book "title") (Str "Unknown");
              error := message e |} st), w).
Proof. intros Hn. unfold record_failure. by rewrite (get_prop_field _ _ Hn). Qed.

Lemma accepted_count_cons v vs :
  accepted_count (v :: vs) = (if v is None then 1 else 0) + accepted_count vs.
Proof. unfold accepted_count. rewrite filter_cons. by destruct v; case_decide. Qed.

Lemma rejected_count_cons v vs :
  rejected_count (v :: vs) = (if v is None then 0 else 1) + rejected_count vs.
Proof. unfold rejected_count. rewrite filter_cons. by destruct v; case_decide. Qed.

Lemma attempt_run uid i book st w :
  submission book →
  attempt uid i book st w =
    if has_required_fields book then
      let (r, d) := Book_save (book_document uid book) (mongo w) in
      (Ok match r with
          | Ok _ => count_success st
          | Throw e =>
              count_failure
                {| index := i; title := or_else (field book "title") (Str "Unknown");
                   error := message e |} st
          end, set_mongo d w)
    else
      (Ok (count_failure
             {| index := i; title := or_else (field book "title") (Str "Unknown");
                error := message missing_fields |} st), w).
Proof.
  intros [Hn Hprint]. unfold attempt.
  unfold mbind at 1, M_bind, outcome. rewrite (insert_book_run _ _ _ Hn).
  destruct (has_required_fields book).
  - destruct (Book_save _ _) as [[doc|e] d].
    + unfold mbind at 1, M_bind. unfold mbind at 1, M_bind, lift, interpolate.
      rewrite (get_prop_field _ _ Hn).
      unfold mbind at 1, M_bind, lift.
      by destruct (ToString (field book "title")).
    + by rewrite (record_failure_run _ _ _ _ _ Hn).
  - by rewrite (record_failure_run _ _ _ _ _ Hn).
Qed.

Lemma process_books_run uid books : ∀ i st w,
  Forall submission books →
  ∃ st',
    process_books uid books i st w =
      (Ok st', set_mongo (run_batch uid books (mongo w)).2 w) ∧
    userId st' = userId st ∧ totalBooks st' = totalBooks st ∧
    timestamp st' = timestamp st ∧
    successCount st' = successCount st + accepted_count (run_batch uid books (mongo w)).1 ∧
    failureCount st' = failureCount st + rejected_count (run_batch uid books (mongo w)).1 ∧
    failures st' = failures st ++ rejected i books (run_batch uid books (mongo w)).1.
Proof.
  induction books as [|book rest IH]; intros i st w Hall.
  - exists st. destruct w; simpl. unfold accepted_count, rejected_count; simpl.
    rewrite !Nat.add_0_r, app_nil_r. done.
  - apply Forall_cons in Hall as [Hbook Hall].
    cbn [process_books run_batch].
    unfold mbind at 1, M_bind. rewrite (attempt_run _ _ _ _ _ Hbook).
    destruct (has_required_fields book).
    + destruct (Book_save _ _) as [r d] eqn:Esave.
      match goal with |- context [process_books uid rest (S i) ?s (set_mongo d w)] =>
        destruct (IH (S i) s (set_mongo d w) Hall)
          as (st' & Hrun & ? & ? & ? & Hs & Hf & Hl)
      end.
      cbn [mongo set_mongo] in *.
      destruct (run_batch uid rest d) as [vs d'] eqn:Erest.
      exists st'. rewrite Hrun. cbn [fst snd] in *.
      rewrite accepted_count_cons, rejected_count_cons, Hs, Hf, Hl.
      destruct r as [doc|e]; split_and!; try done; try (by destruct w); simpl; try lia.
      by rewrite <- app_assoc.
    + match goal with |- context [process_books uid rest (S i) ?s w] =>
        destruct (IH (S i) s w Hall) as (st' & Hrun & ? & ? & ? & Hs & Hf & Hl)
      end.
      destruct (run_batch uid rest (mongo w)) as [vs d'] eqn:Erest.
      exists st'. rewrite Hrun. cbn [fst snd] in *.
      rewrite accepted_count_cons, rejected_count_cons, Hs, Hf, Hl.
      split_and!; try done; simpl; try lia.
      by rewrite <- app_assoc.
Qed.

Lemma run_batch_length uid books : ∀ d, length (run_batch uid books d).1 = length books.
Proof.
  induction books as [|book rest IH]; intros d; [done|]. cbn [run_batch].
  destruct (has_required_fields book).
  - destruct (Book_save _ _) as [r d1]. specialize (IH d1).
    destruct (run_batch uid rest d1). simpl in *. by rewrite IH.
  - specialize (IH d). destruct (run_batch uid rest d). simpl in *. by rewrite IH.
Qed.

Lemma accepted_rejected_count vs : accepted_count vs + rejected_count vs = length vs.
Proof.
  induction vs as [|v vs IH]; [done|].
  rewrite accepted_count_cons, rejected_count_cons. destruct v; simpl; lia.
Qed.

Lemma rejected_length books : ∀ i vs,
  length books = length vs → length (rejected i books vs) = rejected_count vs.
Proof.
  induction books as [|book rest IH]; intros i [|v vs] Hlen; try done.
  rewrite rejected_count_cons. destruct v; simpl; rewrite IH; auto.
Qed.

Lemma rejected_bounds books : ∀ i vs,
  Forall (λ j, i ≤ j < i + length books) (index <$> rejected i books vs).
Proof.
  induction books as [|book rest IH]; intros i vs; [by constructor|].
  destruct vs as [|[e|] vs]; simpl; [by constructor|..].
  - constructor; [simpl; lia|].
    eapply Forall_impl; [apply (IH (S i) vs)|]. simpl. lia.
  - eapply Forall_impl; [apply (IH (S i) vs)|]. simpl. lia.
Qed.

Lemma rejected_increasing books : ∀ i vs,
  StronglySorted lt (index <$> rejected i books vs).
Proof.
  induction books as [|book rest IH]; intros i vs; [by constructor|].
  destruct vs as [|[e|] vs]; simpl; [by constructor| |apply IH].
  constructor; [apply IH|].
  eapply Forall_impl; [apply (rejected_bounds rest (S i) vs)|]. simpl. lia.
Qed.

Lemma rejected_elem books : ∀ i vs f,
  f ∈ rejected i books vs ↔
  ∃ j book e, books !! j = Some book ∧ vs !! j = Some (Some e) ∧
    f = {| index := i + j; title := or_else (field book "title") (Str "Unknown");
           error := message e |}.
Proof.
  induction books as [|book rest IH]; intros i vs f.
  - simpl. split; [by intros ?%elem_of_nil|]. by intros (j & ? & ? & ? & _).
  - destruct vs as [|[e|] vs]; simpl.
    + split; [by intros ?%elem_of_nil|]. by intros (j & ? & ? & _ & ? & _).
    + rewrite elem_of_cons, IH. split.
      * intros [->|(j & b & e' & ? & ? & ->)].
        -- exists 0, book, e. by rewrite Nat.add_0_r.
        -- exists (S j), b, e'. split_and!; try done. f_equal. lia.
      * intros ([|j] & b & e' & Hb & Hv & ->); simpl in *.
        -- left. simplify_eq. by rewrite Nat.add_0_r.
        -- right. exists j, b, e'. split_and!; try done. f_equal. lia.
    + rewrite IH. split.
      * intros (j & b & e' & ? & ? & ->).
        exists (S j), b, e'. split_and!; try done. f_equal. lia.
      * intros ([|j] & b & e' & Hb & Hv & ->); simpl in *; [done|].
        exists j, b, e'. split_and!; try done. f_equal. lia.
Qed.

(** *** The store's commands, executed *)

Lemma redis_get_run key w :
  reachable w → redis_get key w = (Ok (payload <$> redis w !! key), after_command w).
Proof.
  intros E. unfold redis_get. rewrite redis_command_run by done. simpl.
  by destruct w.
Qed.

Lemma redis_setEx_run key seconds v w :
  reachable w →
  redis_setEx key seconds v w =
    (Ok tt, set_redis (<[key := {| payload := v; ttl := Some seconds |}]> (redis w))
              (after_command w)).
Proof. intros E. unfold redis_setEx. by rewrite redis_command_run. Qed.

Lemma redis_del_run key w :
  reachable w →
  redis_del key w = (Ok tt, set_redis (delete key (redis w)) (after_command w)).
Proof. intros E. unfold redis_del. by rewrite redis_command_run. Qed.

Lemma redis_get_up key w :
  redis_faults w = [] → redis_get key w = (Ok (payload <$> redis w !! key), w).
Proof.
  intros E. rewrite redis_get_run by by apply reachable_up. by rewrite after_command_up.
Qed.

Lemma redis_setEx_up key seconds v w :
  redis_faults w = [] →
  redis_setEx key seconds v w =
    (Ok tt, set_redis (<[key := {| payload := v; ttl := Some seconds |}]> (redis w)) w).
Proof.
  intros E. rewrite redis_setEx_run by by apply reachable_up. by rewrite after_command_up.
Qed.

Lemma redis_del_up key w :
  redis_faults w = [] → redis_del key w = (Ok tt, set_redis (delete key (redis w)) w).
Proof.
  intros E. rewrite redis_del_run by by apply reachable_up. by rewrite after_command_up.
Qed.

Lemma truthy_str_Some s : s ≠ "" → truthy_str (Some s) = true.
Proof. intros Hs. simpl. by destruct (String.eqb_spec s ""). Qed.

Lemma status_key_not_pending uid t key :
  String.prefix "bulk_books:" key = true → key ≠ status_key uid t.
Proof. intros Hp ->. unfold status_key in Hp. simpl in Hp. done. Qed.

Lemma process_bulk_key_batch key w e books :
  redis_faults w = [] →
  redis w !! key = Some e →
  payload e ≠ "" →
  JSON_parse (payload e) = Ok (Arr books) →
  books ≠ [] →
  Forall submission books →
  ∃ st w',
    process_bulk_key key w = (Ok tt, w') ∧
    redis w' =
      delete key
        (<[status_key (key_userId key) (now w + hd 0%Z (ticks w)) :=
             {| payload := JSON_stringify (status_json st); ttl := Some 86400%Z |}]>
           (redis w)) ∧
    mongo w' = (run_batch (key_userId key) books (mongo w)).2 ∧
    userId st = key_userId key ∧
    totalBooks st = length books ∧
    timestamp st = Date_toISOString (now w) ∧
    successCount st = accepted_count (run_batch (key_userId key) books (mongo w)).1 ∧
    failureCount st = rejected_count (run_batch (key_userId key) books (mongo w)).1 ∧
    failures st = rejected 0 books (run_batch (key_userId key) books (mongo w)).1.
Proof.
  intros Hup Hkey Hne Hparse Hbooks Hall.
  set (st0 := {| userId := key_userId key; totalBooks := length books;
                 successCount := 0; failureCount := 0;
                 timestamp := Date_toISOString (now w); failures := [] |}).
  set (w1 := set_clock (now w + hd 0%Z (ticks w)) (tl (ticks w)) w).
  destruct (process_books_run (key_userId key) books 0 st0 w1 Hall)
    as (st & Hrun & ? & ? & ? & Hs & Hf & Hl).
  exists st. eexists. split.
  - unfold process_bulk_key, try_catch.
    unfold mbind at 1, M_bind. rewrite redis_get_up by done. rewrite Hkey.
    cbn [fmap option_fmap option_map].
    rewrite truthy_str_Some by done. cbn [negb from_option id].
    unfold mbind at 1, M_bind, lift. rewrite Hparse. cbn [is_array elements negb orb].
    replace (length books =? 0) with false by (by destruct books).
    unfold mbind at 1, M_bind, Date_now.
    unfold mbind at 1, M_bind. fold w1. fold st0. rewrite Hrun.
    unfold mbind at 1, M_bind. cbn [now set_clock set_mongo].
    unfold mbind at 1, M_bind. rewrite redis_setEx_up by done.
    rewrite redis_del_up by done. reflexivity.
  - cbn. split_and!; done.
Qed.

(** *** The keys a computation writes *)

Lemma keeps_ret {A} P (a : A) : keeps P (mret a).
Proof. done. Qed.

Lemma keeps_throw {A} P e : keeps P (throw (A:=A) e).
Proof. done. Qed.

Lemma keeps_lift {A} P (r : result A) : keeps P (lift r).
Proof. done. Qed.

Lemma keeps_get_env P : keeps P get_env.
Proof. done. Qed.

Lemma keeps_Date_now P : keeps P Date_now.
Proof. done. Qed.

Lemma keeps_on_mongo {A} P (op : Mongo → result A * Mongo) : keeps P (on_mongo op).
Proof. intros w k _. unfold on_mongo. by destruct (op (mongo w)). Qed.

Lemma keeps_on_smtp {A} P (op : Smtp → result A * Smtp) : keeps P (on_smtp op).
Proof. intros w k _. unfold on_smtp. by destruct (op (smtp w)). Qed.

Lemma keeps_bind {A B} P (m : M A) (f : A → M B) :
  keeps P m → (∀ a, keeps P (f a)) → keeps P (m ≫= f).
Proof.
  intros Hm Hf w k Hk. unfold mbind, M_bind.
  specialize (Hm w k Hk). destruct (m w) as [[a|e] w']; simpl in *; [|done].
  by rewrite Hf.
Qed.

Lemma keeps_try_catch {A} P (body : M A) (handler : exn → M A) :
  keeps P body → (∀ e, keeps P (handler e)) → keeps P (try_catch body handler).
Proof.
  intros Hm Hf w k Hk. unfold try_catch.
  specialize (Hm w k Hk). destruct (body w) as [[a|e] w']; simpl in *; [done|].
  by rewrite Hf.
Qed.

Lemma keeps_outcome {A} P (body : M A) : keeps P body → keeps P (outcome body).
Proof.
  intros Hb w k Hk. unfold outcome. specialize (Hb w k Hk). by destruct (body w).
Qed.

Lemma keeps_interpolate P v : keeps P (interpolate v).
Proof.
  unfold interpolate. apply keeps_bind; [apply keeps_lift|]. intros _. apply keeps_ret.
Qed.

Lemma keeps_redis_command {A} P (run : gmap string entry → A * gmap string entry) :
  (∀ m k, ¬ P k → (run m).2 !! k = m !! k) → keeps P (redis_command run).
Proof.
  intros Hrun w k Hk. unfold redis_command. specialize (Hrun (redis w) k Hk).
  destruct (redis_faults w) as [|[e|] fs]; try done; by destruct (run (redis w)).
Qed.

Lemma keeps_redis_get P key : keeps P (redis_get key).
Proof. by apply keeps_redis_command. Qed.

Lemma keeps_redis_setEx (P : string → Prop) key seconds v :
  P key → keeps P (redis_setEx key seconds v).
Proof.
  intros HP. apply keeps_redis_command. intros m k Hk. simpl.
  apply lookup_insert_ne. by intros ->.
Qed.

Lemma keeps_redis_del (P : string → Prop) key : P key → keeps P (redis_del key).
Proof.
  intros HP. apply keeps_redis_command. intros m k Hk. simpl.
  apply lookup_delete_ne. by intros ->.
Qed.

Lemma keeps_for_of {A} P (xs : list A) (body : A → M unit) :
  (∀ x, keeps P (body x)) → keeps P (for_of xs body).
Proof.
  intros Hb. induction xs as [|x xs IH]; [done|].
  simpl. apply keeps_bind; [apply Hb|]. by intros _.
Qed.

Lemma keeps_nothing {A} (m : M A) w : keeps (λ _, False) m → redis (m w).2 = redis w.
Proof. intros Hm. apply map_eq. intros k. apply Hm. tauto. Qed.

Ltac keeps_step :=
  first
    [ apply keeps_bind; [|intros ?]
    | apply keeps_try_catch; [|intros ?]
    | apply keeps_outcome
    | apply keeps_ret | apply keeps_throw | apply keeps_lift | apply keeps_get_env
    | apply keeps_interpolate
    | apply keeps_Date_now | apply keeps_on_mongo | apply keeps_on_smtp
    | apply keeps_redis_get
    | match goal with
      | |- keeps _ (if ?b then _ else _) => destruct b
      | |- keeps _ (match ?x with _ => _ end) => destruct x
      end ].

Lemma keeps_getUserEmail P uid : keeps P (getUserEmail uid).
Proof. unfold getUserEmail. repeat keeps_step. Qed.

Lemma keeps_generatePDFReport P st uid : keeps P (generatePDFReport st uid).
Proof. unfold generatePDFReport. repeat keeps_step. Qed.

Lemma keeps_sendReportEmail P a b st uid : keeps P (sendReportEmail a b st uid).
Proof. unfold sendReportEmail. repeat keeps_step. Qed.

Lemma keeps_send_report P uid st : keeps P (send_report uid st).
Proof.
  unfold send_report.
  apply keeps_bind; [apply keeps_getUserEmail|intros ?].
  apply keeps_bind; [apply keeps_generatePDFReport|intros ?].
  apply keeps_bind; [apply keeps_interpolate|intros ?].
  apply keeps_bind; [apply keeps_sendReportEmail|intros ?]. apply keeps_ret.
Qed.

Lemma keeps_process_books P uid books : ∀ i st, keeps P (process_books uid books i st).
Proof.
  induction books as [|book rest IH]; intros i st; [apply keeps_ret|].
  simpl. apply keeps_bind; [|intros ?; apply IH].
  unfold attempt, insert_book, validate, new_Book, record_failure. repeat keeps_step.
Qed.

(** *** One pass of the Report Job *)

Lemma prefix_app p s : String.prefix p (p +:+ s) = true.
Proof.
  induction p as [|c p IH]; simpl; [by destruct s|].
  by destruct (ascii_dec c c).
Qed.

Lemma append_inj_l p s1 s2 : p +:+ s1 = p +:+ s2 → s1 = s2.
Proof. induction p as [|c p IH]; simpl; [done|]. intros [=]. auto. Qed.

Lemma report_error_key_inj uid t1 t2 :
  report_error_key uid t1 = report_error_key uid t2 → t1 = t2.
Proof.
  unfold report_error_key. intros E.
  apply (append_inj_l "report_error:") in E.
  apply append_inj_l in E. apply (append_inj_l ":") in E.
  by apply (inj pretty) in E.
Qed.

Lemma store_report_error_run uid key err w :
  reachable w →
  ∃ w', store_report_error uid key err w = (Ok tt, w') ∧
    redis w' =
      <[report_error_key uid (now w) :=
          {| payload :=
               JSON_stringify (report_error_json uid key err (now w + hd 0%Z (ticks w)));
             ttl := Some 86400%Z |}]> (redis w).
Proof.
  intros Hr. eexists. split.
  - unfold store_report_error. unfold mbind at 1, M_bind, Date_now.
    unfold mbind at 1, M_bind. rewrite redis_setEx_run by done. reflexivity.
  - done.
Qed.

Lemma store_bulk_error_run uid err w :
  reachable w →
  ∃ w', store_bulk_error uid err w = (Ok tt, w') ∧
    redis w' =
      <[bulk_error_key uid (now w + hd 0%Z (ticks w)) :=
          {| payload := JSON_stringify (bulk_error_json uid err (now w));
             ttl := Some 86400%Z |}]> (redis w) ∧
    redis_faults w' = tl (redis_faults w).
Proof.
  intros Hr. eexists. split.
  - unfold store_bulk_error. unfold mbind at 1, M_bind, Date_now.
    unfold mbind at 1, M_bind. rewrite redis_setEx_run by done. reflexivity.
  - done.
Qed.

(** One pass over a status key that holds a valid record. *)
Lemma process_status_key_valid key w e ps :
  reachable w →
  redis w !! key = Some e →
  payload e ≠ "" →
  JSON_parse (payload e) = Ok ps →
  invalid_status ps = Ok false →
  process_status_key key w =
    match send_report (key_userId key) ps (after_command w) with
    | (Ok _, w1) =>
        try_catch (redis_del key) (store_report_error (key_userId key) key) w1
    | (Throw err, w1) => store_report_error (key_userId key) key err w1
    end.
Proof.
  intros Hr Hkey Hne Hparse Hvalid.
  unfold process_status_key, try_catch.
  unfold mbind at 1, M_bind. rewrite redis_get_run by done. rewrite Hkey.
  cbn [fmap option_fmap option_map].
  rewrite truthy_str_Some by done. cbn [negb from_option id].
  unfold mbind at 1, M_bind, lift. rewrite Hparse.
  unfold mbind at 1, M_bind. rewrite Hvalid.
  unfold mbind at 1, M_bind.
  by destruct (send_report _ _ _) as [[[]|err] w1].
Qed.

Lemma redis_send_report uid ps w : redis (send_report uid ps w).2 = redis w.
Proof. apply keeps_nothing, keeps_send_report. Qed.

Lemma redis_after_command w : redis (after_command w) = redis w.
Proof. done. Qed.

Lemma report_error_key_not_status uid t key :
  String.prefix "bulk_status:" key = true → report_error_key uid t ≠ key.
Proof. intros Hp <-. unfold report_error_key in Hp. simpl in Hp. done. Qed.

(** [send_report] throws when the lookup, the rendering, the log line
    between or the send throws. *)
Lemma send_report_throws uid ps w err w1 :
  send_report uid ps w = (Throw err, w1) ↔
  getUserEmail uid w = (Throw err, w1) ∨
  ∃ address wa,
    getUserEmail uid w = (Ok address, wa) ∧
    (generatePDFReport ps uid wa = (Throw err, w1) ∨
     ∃ pdf wb,
       generatePDFReport ps uid wa = (Ok pdf, wb) ∧
       (interpolate address wb = (Throw err, w1) ∨
        (interpolate address wb = (Ok tt, wb) ∧
         sendReportEmail address pdf ps uid wb = (Throw err, w1)))).
Proof.
  unfold send_report. unfold mbind at 1, M_bind.
  destruct (getUserEmail uid w) as [[address|e] wa] eqn:Hget.
  2: { split; [intros [= -> ->]; by left|].
       by intros [[= -> ->]|(? & ? & ? & _)]. }
  unfold mbind at 1, M_bind.
  destruct (generatePDFReport ps uid wa) as [[pdf|e] wb] eqn:Hpdf.
  2: { split.
       - intros [= -> ->]. right. exists address, wa. split; [done|]. by left.
       - intros [?|(? & ? & [= <- <-] & [Hthrown|(? & ? & Hok & _)])];
           [done| |]; rewrite Hpdf in *; congruence. }
  unfold mbind at 1, M_bind.
  assert (Hlog : interpolate address wb = (Ok tt, wb) ∨
                 ∃ e, interpolate address wb = (Throw e, wb)).
  { unfold interpolate, mbind, M_bind, lift. destruct (ToString address); eauto. }
  destruct Hlog as [Hlog|[e Hlog]]; rewrite Hlog.
  2: { split.
       - intros [= -> ->]. right. exists address, wa. split; [done|]. right.
         eexists _, _. split; [exact Hpdf|]. by left.
       - intros [?|(? & ? & [= <- <-] & [Hthrown|(? & ? & Hok & Hrest)])];
           [done|rewrite Hpdf in *; congruence|].
         rewrite Hpdf in Hok. simplify_eq.
         rewrite Hlog in Hrest. destruct Hrest as [?|[? _]]; congruence. }
  unfold mbind at 1, M_bind.
  destruct (sendReportEmail address pdf ps uid wb) as [[info|e] wc] eqn:Hsend.
  - split; [done|].
    intros [?|(? & ? & [= <- <-] & [Hthrown|(? & ? & Hok & Hrest)])];
      [done|rewrite Hpdf in *; congruence|].
    rewrite Hpdf in Hok. simplify_eq.
    rewrite Hlog, Hsend in Hrest. destruct Hrest as [?|[_ ?]]; congruence.
  - split.
    + intros [= -> ->]. right. exists address, wa. split; [done|]. right.
      eexists _, _. split; [exact Hpdf|]. by right.
    + intros [?|(? & ? & [= <- <-] & [Hthrown|(? & ? & Hok & Hrest)])];
        [done|rewrite Hpdf in *; congruence|].
      rewrite Hpdf in Hok. simplify_eq.
      rewrite Hlog, Hsend in Hrest. destruct Hrest as [?|[_ ?]]; congruence.
Qed.

(** A key of the store with the prefix of a scan is among the keys found. *)
Lemma scan_finds p k w :
  reachable w → String.prefix p k = true → is_Some (redis w !! k) →
  ∃ ks, (redis_keys p w).1 = Ok ks ∧ k ∈ ks.
Proof.
  intros Hr Hp [v Hv]. unfold redis_keys. rewrite redis_command_run by done.
  eexists. split; [done|]. cbn [fst].
  apply list_elem_of_filter. split; [done|].
  apply list_elem_of_fmap. exists (k, v). split; [done|].
  by apply elem_of_map_to_list.
Qed.

(** One pass that fails: the error record is added, nothing else changes. *)
Lemma failed_pass key w e ps err w1 :
  reachable w →
  redis w !! key = Some e →
  payload e ≠ "" →
  JSON_parse (payload e) = Ok ps →
  invalid_status ps = Ok false →
  send_report (key_userId key) ps (after_command w) = (Throw err, w1) →
  reachable w1 →
  (process_status_key key w).1 = Ok tt ∧
  redis (process_status_key key w).2 =
    <[report_error_key (key_userId key) (now w1) :=
        {| payload :=
             JSON_stringify
               (report_error_json (key_userId key) key err (now w1 + hd 0%Z (ticks w1)));
           ttl := Some 86400%Z |}]> (redis w).
Proof.
  intros Hr Hkey Hne Hparse Hvalid Hsend Hr1.
  rewrite (process_status_key_valid _ _ _ _ Hr Hkey Hne Hparse Hvalid), Hsend.
  destruct (store_report_error_run (key_userId key) key err w1 Hr1) as (w' & -> & Hw').
  split; [done|]. simpl. rewrite Hw'.
  pose proof (redis_send_report (key_userId key) ps (after_command w)) as Hk.
  rewrite Hsend in Hk. simpl in Hk. by rewrite Hk.
Qed.

(** C4: one pass over a status key that holds a valid record, the store
    being reachable.  When lookup, render and send succeed the key is
    deleted.  When one of them throws, the key is left in place, so that
    the next scan finds it again, and a Report Error Record that lives
    86400 seconds is written; a second failure of the same record, at a
    later reading of the clock, leaves the first error record and writes a
    second one under another key. *)
Theorem report_disposition key w e ps r w1 :
  String.prefix "bulk_status:" key = true →
  reachable w →
  redis w !! key = Some e →
  payload e ≠ "" →
  JSON_parse (payload e) = Ok ps →
  invalid_status ps = Ok false →
  send_report (key_userId key) ps (after_command w) = (r, w1) →
  reachable w1 →
  let uid := key_userId key in
  let w' := (process_status_key key w).2 in
  match r with
  | Ok _ => redis w' = delete key (redis w)
  | Throw err =>
      let record :=
        {| payload :=
             JSON_stringify (report_error_json uid key err (now w1 + hd 0%Z (ticks w1)));
           ttl := Some 86400%Z |} in
      redis w' = <[report_error_key uid (now w1) := record]> (redis w) ∧
      redis w' !! key = Some e ∧
      (∀ w2, redis w2 = redis w' → reachable w2 →
         ∃ keys, (redis_keys "bulk_status:" w2).1 = Ok keys ∧ key ∈ keys) ∧
      ∀ w2 err2 w3,
        redis w2 = redis w' →
        reachable w2 →
        send_report uid ps (after_command w2) = (Throw err2, w3) →
        reachable w3 →
        now w3 ≠ now w1 →
        let w'' := (process_status_key key w2).2 in
        redis w'' !! key = Some e ∧
        redis w'' !! report_error_key uid (now w1) = Some record ∧
        redis w'' !! report_error_key uid (now w3) =
          Some {| payload :=
                    JSON_stringify
                      (report_error_json uid key err2 (now w3 + hd 0%Z (ticks w3)));
                  ttl := Some 86400%Z |} ∧
        report_error_key uid (now w1) ≠ report_error_key uid (now w3)
  end.
Proof.
  intros Hp Hr Hkey Hne Hparse Hvalid Hsend Hr1 uid w'.
  destruct r as [[]|err].
  - subst w'.
    rewrite (process_status_key_valid _ _ _ _ Hr Hkey Hne Hparse Hvalid), Hsend.
    unfold try_catch. rewrite redis_del_run by done. simpl.
    pose proof (redis_send_report (key_userId key) ps (after_command w)) as Hk.
    rewrite Hsend in Hk. simpl in Hk. by rewrite Hk.
  - destruct (failed_pass _ _ _ _ _ _ Hr Hkey Hne Hparse Hvalid Hsend Hr1) as [_ Hw'].
    fold w' uid in Hw'. intros record.
    assert (Hkept : redis w' !! key = Some e).
    { rewrite Hw', lookup_insert_ne; [done|]. by apply report_error_key_not_status. }
    split_and!; [done..| |].
    { intros w2 Hsame Hr2. apply scan_finds; [done..|]. rewrite Hsame, Hkept. by eexists. }
    intros w2 err2 w3 Hsame Hr2 Hsend2 Hr3 Hclock w''.
    assert (Hkey2 : redis w2 !! key = Some e) by by rewrite Hsame.
    destruct (failed_pass _ _ _ _ _ _ Hr2 Hkey2 Hne Hparse Hvalid Hsend2 Hr3) as [_ Hw''].
    fold w'' uid in Hw''.
    assert (Hdiff : report_error_key uid (now w1) ≠ report_error_key uid (now w3)).
    { intros E. apply report_error_key_inj in E. done. }
    rewrite Hw'', Hsame. split_and!; [| | |done].
    + rewrite lookup_insert_ne; [done|]. by apply report_error_key_not_status.
    + rewrite lookup_insert_ne by done. by rewrite Hw', lookup_insert_eq.
    + by rewrite lookup_insert_eq.
Qed.

(** *** One pass of the Ingestion Job *)

Lemma run_batch_lookup_invalid uid books : ∀ i d book,
  books !! i = Some book →
  has_required_fields book = false →
  (run_batch uid books d).1 !! i = Some (Some missing_fields).
Proof.
  induction books as [|b rest IH]; intros i d book Hi Hinv; [done|].
  cbn [run_batch]. destruct i as [|i]; simpl in Hi.
  - simplify_eq. rewrite Hinv. by destruct (run_batch uid rest d).
  - destruct (has_required_fields b).
    + destruct (Book_save _ _) as [r d1]. specialize (IH i d1 book Hi Hinv).
      by destruct (run_batch uid rest d1).
    + specialize (IH i d book Hi Hinv). by destruct (run_batch uid rest d).
Qed.

Lemma truthy_or_else v : truthy (or_else v (Str "Unknown")) = true.
Proof. unfold or_else. by destruct (truthy v) eqn:E. Qed.

(** *** Mappings whatever their titles *)

Lemma attempt_mapping uid i book st w :
  nullish book = false →
  attempt uid i book st w =
    let detail e :=
      {| index := i; title := or_else (field book "title") (Str "Unknown");
         error := message e |} in
    if has_required_fields book then
      let (r, d) := Book_save (book_document uid book) (mongo w) in
      (Ok match r with
          | Ok _ =>
              match ToString (field book "title") with
              | Ok _ => count_success st
              | Throw e => count_failure (detail e) (count_success st)
              end
          | Throw e => count_failure (detail e) st
          end, set_mongo d w)
    else (Ok (count_failure (detail missing_fields) st), w).
Proof.
  intros Hn. unfold attempt.
  unfold mbind at 1, M_bind, outcome. rewrite (insert_book_run _ _ _ Hn).
  destruct (has_required_fields book).
  - destruct (Book_save _ _) as [[doc|e] d].
    + unfold mbind at 1, M_bind. unfold mbind at 1, M_bind, lift, interpolate.
      rewrite (get_prop_field _ _ Hn).
      unfold mbind at 1, M_bind, lift.
      destruct (ToString (field book "title")); [done|].
      by rewrite (record_failure_run _ _ _ _ _ Hn).
    + by rewrite (record_failure_run _ _ _ _ _ Hn).
  - by rewrite (record_failure_run _ _ _ _ _ Hn).
Qed.

Lemma process_books_mappings uid books : ∀ i st w,
  Forall (λ book, nullish book = false) books →
  ∃ st',
    process_books uid books i st w =
      (Ok st', set_mongo (run_mappings uid books (mongo w)).2 w) ∧
    userId st' = userId st ∧ totalBooks st' = totalBooks st ∧
    timestamp st' = timestamp st ∧
    failures st' = failures st ++ rejected i books (run_mappings uid books (mongo w)).1.*2.
Proof.
  induction books as [|book rest IH]; intros i st w Hall.
  - exists st. destruct w; simpl. by rewrite app_nil_r.
  - apply Forall_cons in Hall as [Hbook Hall].
    cbn [process_books run_mappings].
    unfold mbind at 1, M_bind. rewrite (attempt_mapping _ _ _ _ _ Hbook). cbv zeta.
    destruct (has_required_fields book).
    + destruct (Book_save _ _) as [r d] eqn:Esave.
      match goal with |- context [process_books uid rest (S i) ?s (set_mongo d w)] =>
        destruct (IH (S i) s (set_mongo d w) Hall) as (st' & Hrun & ? & ? & ? & Hl)
      end.
      cbn [mongo set_mongo] in *.
      destruct (run_mappings uid rest d) as [vs d'] eqn:Erest.
      exists st'. rewrite Hrun. cbn [fst snd] in *. rewrite Hl.
      destruct r as [doc|e]; [destruct (ToString (field book "title"))|];
        split_and!; try done; try (by destruct w); simpl; by rewrite <- ?app_assoc.
    + match goal with |- context [process_books uid rest (S i) ?s w] =>
        destruct (IH (S i) s w Hall) as (st' & Hrun & ? & ? & ? & Hl)
      end.
      destruct (run_mappings uid rest (mongo w)) as [vs d'] eqn:Erest.
      exists st'. rewrite Hrun. cbn [fst snd] in *. rewrite Hl.
      split_and!; try done; simpl; by rewrite <- ?app_assoc.
Qed.

Lemma run_mappings_lookup_invalid uid books : ∀ i d book,
  books !! i = Some book →
  has_required_fields book = false →
  (run_mappings uid books d).1.*2 !! i = Some (Some missing_fields).
Proof.
  induction books as [|b rest IH]; intros i d book Hi Hinv; [done|].
  cbn [run_mappings]. destruct i as [|i]; simpl in Hi.
  - simplify_eq. rewrite Hinv. by destruct (run_mappings uid rest d).
  - destruct (has_required_fields b).
    + destruct (Book_save _ _) as [r d1]. specialize (IH i d1 book Hi Hinv).
      by destruct (run_mappings uid rest d1).
    + specialize (IH i d book Hi Hinv). by destruct (run_mappings uid rest d).
Qed.

(** One pass over a batch of mappings: the Batch Status Record that is
    written, member by member. *)
Lemma process_bulk_key_mappings key w e books :
  redis_faults w = [] →
  redis w !! key = Some e →
  payload e ≠ "" →
  JSON_parse (payload e) = Ok (Arr books) →
  books ≠ [] →
  Forall (λ book, nullish book = false) books →
  ∃ succeeded failed,
    redis (process_bulk_key key w).2 =
      delete key
        (<[status_key (key_userId key) (now w + hd 0%Z (ticks w)) :=
             {| payload :=
                  JSON_stringify
                    (Obj [("userId", of_opt (key_userId key));
                          ("totalBooks", Num (of_nat (length books)));
                          ("successCount", Num (of_nat succeeded));
                          ("failureCount", Num (of_nat failed));
                          ("timestamp", Str (Date_toISOString (now w)));
                          ("failures",
                           Arr ((λ f, Obj [("index", Num (of_nat (index f)));
                                           ("title", title f);
                                           ("error", Str (error f))])
                                  <$> rejected 0 books
                                        (run_mappings (key_userId key) books (mongo w)).1.*2))]);
                ttl := Some 86400%Z |}]>
           (redis w)).
Proof.
  intros Hup Hkey Hne Hparse Hbooks Hall.
  set (st0 := {| userId := key_userId key; totalBooks := length books;
                 successCount := 0; failureCount := 0;
                 timestamp := Date_toISOString (now w); failures := [] |}).
  set (w1 := set_clock (now w + hd 0%Z (ticks w)) (tl (ticks w)) w).
  destruct (process_books_mappings (key_userId key) books 0 st0 w1 Hall)
    as (st & Hrun & Huid & Htotal & Htime & Hl).
  change (mongo w1) with (mongo w) in Hrun, Hl.
  unfold st0 in Huid, Htotal, Htime, Hl.
  cbn [userId totalBooks timestamp failures app] in Huid, Htotal, Htime, Hl.
  exists (successCount st), (failureCount st).
  assert (∃ w', process_bulk_key key w = (Ok tt, w') ∧
            redis w' =
              delete key
                (<[status_key (key_userId key) (now w + hd 0%Z (ticks w)) :=
                     {| payload := JSON_stringify (status_json st); ttl := Some 86400%Z |}]>
                   (redis w))) as (w' & -> & Hredis).
  { eexists. split.
    - unfold process_bulk_key, try_catch.
      unfold mbind at 1, M_bind. rewrite redis_get_up by done. rewrite Hkey.
      cbn [fmap option_fmap option_map].
      rewrite truthy_str_Some by done. cbn [negb from_option id].
      unfold mbind at 1, M_bind, lift. rewrite Hparse. cbn [is_array elements negb orb].
      replace (length books =? 0) with false by (by destruct books).
      unfold mbind at 1, M_bind, Date_now.
      unfold mbind at 1, M_bind. fold w1. fold st0. rewrite Hrun.
      unfold mbind at 1, M_bind. cbn [now set_clock set_mongo].
      unfold mbind at 1, M_bind. rewrite redis_setEx_up by done.
      rewrite redis_del_up by done. reflexivity.
    - done. }
  cbn [snd]. rewrite Hredis.
  unfold status_json. rewrite Huid, Htotal, Htime, Hl.
  reflexivity.
Qed.

(** X30: a pending batch that parses to a sequence of N submissions
    whose titles a log line can print, K of which have their title and
    author and persist without error.  After the pass the store holds,
    under the status key of the user and the time and with a lifetime of
    24 hours, the text of a record with totalBooks N, successCount K,
    failureCount N - K and N - K Failure Details; their indexes are the
    positions of the rejected submissions, in increasing order and below
    N, and each holds the title of its submission (or 'Unknown') and the
    message of the error. *)
Theorem batch_status_record key w e books :
  String.prefix "bulk_books:" key = true →
  redis_faults w = [] →
  redis w !! key = Some e →
  payload e ≠ "" →
  JSON_parse (payload e) = Ok (Arr books) →
  books ≠ [] →
  Forall submission books →
  let uid := key_userId key in
  let verdicts := (run_batch uid books (mongo w)).1 in
  let N := length books in
  let K := accepted_count verdicts in
  ∃ details : list FailureDetail,
    redis (process_bulk_key key w).2 !! status_key uid (now w + hd 0%Z (ticks w)) =
      Some {| payload :=
                JSON_stringify
                  (Obj [("userId", of_opt uid);
                        ("totalBooks", Num (of_nat N));
                        ("successCount", Num (of_nat K));
                        ("failureCount", Num (of_nat (N - K)));
                        ("timestamp", Str (Date_toISOString (now w)));
                        ("failures",
                         Arr ((λ f, Obj [("index", Num (of_nat (index f)));
                                         ("title", title f);
                                         ("error", Str (error f))]) <$> details))]);
              ttl := Some 86400%Z |} ∧
    length details = N - K ∧
    (∀ i, i ∈ index <$> details ↔ ∃ err, verdicts !! i = Some (Some err)) ∧
    StronglySorted lt (index <$> details) ∧
    Forall (λ i, i < N) (index <$> details) ∧
    (∀ f, f ∈ details →
       ∃ book err, books !! index f = Some book ∧ verdicts !! index f = Some (Some err) ∧
         title f = or_else (field book "title") (Str "Unknown") ∧
         error f = message err).
Proof.
  intros Hp Hup Hkey Hne Hparse Hbooks Hall uid verdicts N K.
  destruct (process_bulk_key_batch _ _ _ _ Hup Hkey Hne Hparse Hbooks Hall)
    as (st & w' & Hrun & Hredis & _ & Huid & Htotal & Htime & Hs & Hf & Hl).
  fold uid verdicts in Hredis, Huid, Hs, Hf, Hl.
  pose proof (run_batch_length uid books (mongo w)) as Hlen. fold verdicts in Hlen.
  pose proof (accepted_rejected_count verdicts) as Hsum. fold K in Hsum.
  assert (failureCount st = N - K) as Hf' by (rewrite Hf; unfold N; lia).
  exists (rejected 0 books verdicts). rewrite Hrun. cbn [snd]. rewrite Hredis.
  split_and!.
  - rewrite lookup_delete_ne by by apply status_key_not_pending.
    rewrite lookup_insert_eq. unfold status_json.
    rewrite Huid, Htotal, Htime, Hs, Hf', Hl. reflexivity.
  - rewrite rejected_length by done. unfold N. lia.
  - intros i. rewrite list_elem_of_fmap. split.
    + intros (f & -> & (j & book & err & _ & Hv & ->)%rejected_elem). by exists err.
    + intros [err Hv].
      destruct (lookup_lt_is_Some_2 books i) as [book Hb].
      { rewrite <- Hlen. eapply lookup_lt_Some, Hv. }
      eexists. split; [|apply rejected_elem; by exists i, book, err]. done.
  - apply rejected_increasing.
  - eapply Forall_impl; [apply (rejected_bounds books 0 verdicts)|]. simpl. unfold N. lia.
  - intros f (j & book & err & Hb & Hv & ->)%rejected_elem. by exists book, err.
Qed.

(** C9: in a batch of mappings, a submission at position [i] whose title
    is missing or empty is written into the Batch Status Record as a
    Failure Detail with the title 'Unknown', the index [i] and the message
    of the validation error; it is the only detail of the record for that
    position, and no detail of the record has a title that is undefined
    or empty. *)
Theorem missing_title_placeholder key w e books i book :
  String.prefix "bulk_books:" key = true →
  redis_faults w = [] →
  redis w !! key = Some e →
  payload e ≠ "" →
  JSON_parse (payload e) = Ok (Arr books) →
  Forall (λ book, nullish book = false) books →
  books !! i = Some book →
  truthy (field book "title") = false →
  let detail :=
    {| index := i; title := Str "Unknown";
       error := "Missing required fields: title and author" |} in
  ∃ succeeded failed (details : list FailureDetail),
    redis (process_bulk_key key w).2
      !! status_key (key_userId key) (now w + hd 0%Z (ticks w)) =
      Some {| payload :=
                JSON_stringify
                  (Obj [("userId", of_opt (key_userId key));
                        ("totalBooks", Num (of_nat (length books)));
                        ("successCount", Num (of_nat succeeded));
                        ("failureCount", Num (of_nat failed));
                        ("timestamp", Str (Date_toISOString (now w)));
                        ("failures",
                         Arr ((λ f, Obj [("index", Num (of_nat (index f)));
                                         ("title", title f);
                                         ("error", Str (error f))]) <$> details))]);
              ttl := Some 86400%Z |} ∧
    detail ∈ details ∧
    (∀ f, f ∈ details → index f = i → f = detail) ∧
    (∀ f, f ∈ details → truthy (title f) = true).
Proof.
  intros Hp Hup Hkey Hne Hparse Hall Hi Htitle detail.
  assert (Hbooks : books ≠ []) by (intros ->; done).
  destruct (process_bulk_key_mappings _ _ _ _ Hup Hkey Hne Hparse Hbooks Hall)
    as (succeeded & failed & Hredis).
  assert (Hinv : has_required_fields book = false).
  { unfold has_required_fields. by rewrite Htitle. }
  pose proof (run_mappings_lookup_invalid (key_userId key) books i (mongo w) book Hi Hinv)
    as Hv.
  exists succeeded, failed. eexists. rewrite Hredis.
  split_and!.
  - rewrite lookup_delete_ne by by apply status_key_not_pending.
    by rewrite lookup_insert_eq.
  - apply rejected_elem. exists i, book, missing_fields. split_and!; [done..|].
    unfold detail, or_else. by rewrite Htitle.
  - intros f (j & b & err & Hb & Hvj & ->)%rejected_elem Hidx. simpl in Hidx. subst j.
    simplify_eq. unfold detail, or_else. by rewrite Htitle.
  - intros f (j & b & err & _ & _ & ->)%rejected_elem. apply truthy_or_else.
Qed.

Lemma process_bulk_key_empty key w e v :
  redis_faults w = [] →
  redis w !! key = Some e →
  payload e ≠ "" →
  JSON_parse (payload e) = Ok v →
  is_array v = false ∨ elements v = [] →
  process_bulk_key key w = (Ok tt, set_redis (delete key (redis w)) w).
Proof.
  intros Hup Hkey Hne Hparse Hv.
  unfold process_bulk_key, try_catch.
  unfold mbind at 1, M_bind. rewrite redis_get_up by done. rewrite Hkey.
  cbn [fmap option_fmap option_map].
  rewrite truthy_str_Some by done. cbn [negb from_option id].
  unfold mbind at 1, M_bind, lift. rewrite Hparse.
  replace (negb (is_array v) || (length (elements v) =? 0)) with true.
  - by rewrite redis_del_up.
  - destruct Hv as [->| ->]; [done|]. simpl. by rewrite orb_true_r.
Qed.

Lemma process_bulk_key_unparsed key w e err :
  redis_faults w = [] →
  redis w !! key = Some e →
  payload e ≠ "" →
  JSON_parse (payload e) = Throw err →
  process_bulk_key key w = store_bulk_error (key_userId key) err w.
Proof.
  intros Hup Hkey Hne Hparse.
  unfold process_bulk_key, try_catch.
  unfold mbind at 1, M_bind. rewrite redis_get_up by done. rewrite Hkey.
  cbn [fmap option_fmap option_map].
  rewrite truthy_str_Some by done. cbn [negb from_option id].
  unfold mbind at 1, M_bind, lift. by rewrite Hparse.
Qed.

Lemma bulk_error_key_not_pending uid t key :
  String.prefix "bulk_books:" key = true → bulk_error_key uid t ≠ key.
Proof. intros Hp <-. unfold bulk_error_key in Hp. simpl in Hp. done. Qed.

Lemma bulk_error_key_not_status uid t k :
  String.prefix "bulk_status:" k = true → bulk_error_key uid t ≠ k.
Proof. intros Hp <-. unfold bulk_error_key in Hp. simpl in Hp. done. Qed.

(** C2 (amended): a pending batch whose value parses to a value that is
    not a sequence, or to the empty sequence, is deleted and nothing is
    written for it.  One whose value does not parse stays in place: the
    pass writes a Batch Error Record that lives 86400 seconds and no
    Batch Status Record. *)
Theorem malformed_batch key w e :
  String.prefix "bulk_books:" key = true →
  redis_faults w = [] →
  redis w !! key = Some e →
  payload e ≠ "" →
  let uid := key_userId key in
  let w' := (process_bulk_key key w).2 in
  match JSON_parse (payload e) with
  | Ok v =>
      is_array v = false ∨ elements v = [] → redis w' = delete key (redis w)
  | Throw err =>
      redis w' =
        <[bulk_error_key uid (now w + hd 0%Z (ticks w)) :=
            {| payload := JSON_stringify (bulk_error_json uid err (now w));
               ttl := Some 86400%Z |}]> (redis w) ∧
      redis w' !! key = Some e ∧
      ∀ k, String.prefix "bulk_status:" k = true → redis w' !! k = redis w !! k
  end.
Proof.
  intros Hp Hup Hkey Hne uid w'.
  destruct (JSON_parse (payload e)) as [v|err] eqn:Hparse.
  - intros Hv. subst w'.
    by rewrite (process_bulk_key_empty _ _ _ _ Hup Hkey Hne Hparse Hv).
  - subst w'. rewrite (process_bulk_key_unparsed _ _ _ _ Hup Hkey Hne Hparse).
    destruct (store_bulk_error_run (key_userId key) err w (reachable_up _ Hup))
      as (w' & -> & Hw' & _).
    cbn [snd]. rewrite Hw'. split_and!; [done| |].
    + rewrite lookup_insert_ne; [done|]. by apply bulk_error_key_not_pending.
    + intros k Hk. rewrite lookup_insert_ne; [done|]. by apply bulk_error_key_not_status.
Qed.

Lemma process_bulk_key_falsy key w :
  redis_faults w = [] →
  truthy_str (payload <$> redis w !! key) = false →
  process_bulk_key key w = (Ok tt, w).
Proof.
  intros Hup Hkey. unfold process_bulk_key, try_catch.
  unfold mbind at 1, M_bind. rewrite redis_get_up by done. by rewrite Hkey.
Qed.


(** *** Address resolution *)

Lemma truthy_not_nullish v : truthy v = true → nullish v = false.
Proof. by destruct v. Qed.

Lemma getUserEmail_lookup_throws uid w err d :
  User_findById uid (mongo w) = (Throw err, d) →
  getUserEmail uid w = (Throw err, set_mongo d w).
Proof.
  intros Hfind. unfold getUserEmail, try_catch.
  unfold mbind at 1, M_bind, on_mongo. by rewrite Hfind.
Qed.

Lemma getUserEmail_address uid w user d :
  User_findById uid (mongo w) = (Ok user, d) →
  getUserEmail uid w =
    if truthy (address_of user) then (Ok (address_of user), set_mongo d w)
    else
      try_catch
        (cachedEmail ← redis_get ("user_email:" +:+ tpl uid);
         if truthy_str cachedEmail then mret (of_opt cachedEmail)
         else e ← get_env; mret (Str (env_or (DEFAULT_EMAIL e) "admin@example.com")))
        (λ e, throw e) (set_mongo d w).
Proof.
  intros Hfind. unfold getUserEmail, try_catch.
  unfold mbind at 1, M_bind, on_mongo. rewrite Hfind.
  unfold mbind at 1, M_bind, address_of.
  destruct (truthy user) eqn:Hu.
  - unfold lift. rewrite (get_prop_field _ _ (truthy_not_nullish _ Hu)).
    by destruct (truthy (field user "email")).
  - unfold mret at 1, M_ret. done.
Qed.

Lemma getUserEmail_cache_throws uid w user d err fs :
  User_findById uid (mongo w) = (Ok user, d) →
  truthy (address_of user) = false →
  redis_faults w = Some err :: fs →
  getUserEmail uid w = (Throw err, after_command (set_mongo d w)).
Proof.
  intros Hfind Hno Hfault. rewrite (getUserEmail_address _ _ _ _ Hfind), Hno.
  unfold try_catch. unfold mbind at 1, M_bind, redis_get.
  by rewrite (redis_command_fault _ _ err fs).
Qed.

Lemma getUserEmail_cache uid w user d :
  User_findById uid (mongo w) = (Ok user, d) →
  truthy (address_of user) = false →
  reachable w →
  let cached := payload <$> redis w !! ("user_email:" +:+ tpl uid) in
  getUserEmail uid w =
    (Ok (if truthy_str cached then of_opt cached
         else Str (env_or (DEFAULT_EMAIL (env w)) "admin@example.com")),
     after_command (set_mongo d w)).
Proof.
  intros Hfind Hno Hr cached. rewrite (getUserEmail_address _ _ _ _ Hfind), Hno.
  unfold try_catch. unfold mbind at 1, M_bind.
  rewrite redis_get_run by done. cbn [redis set_mongo]. fold cached.
  by destruct (truthy_str cached).
Qed.

(** C8: the address a report goes to, when the lookup of the user does
    not throw: the address of the user record if it has one; otherwise the
    text cached under [user_email:] and the user id, if there is one that
    is not empty; otherwise the default address of the configuration,
    which is [DEFAULT_EMAIL] when it is set and not empty and
    'admin@example.com' when it is not. *)
Theorem address_resolution uid w user d :
  User_findById uid (mongo w) = (Ok user, d) →
  let cached := redis w !! ("user_email:" +:+ tpl uid) in
  let w' := after_command (set_mongo d w) in
  (truthy (address_of user) = true →
     getUserEmail uid w = (Ok (address_of user), set_mongo d w)) ∧
  (truthy (address_of user) = false → reachable w →
     (∀ e, cached = Some e → payload e ≠ "" →
        getUserEmail uid w = (Ok (Str (payload e)), w')) ∧
     (cached = None ∨ (∃ e, cached = Some e ∧ payload e = "") →
        (∀ address, DEFAULT_EMAIL (env w) = Some address → address ≠ "" →
           getUserEmail uid w = (Ok (Str address), w')) ∧
        (DEFAULT_EMAIL (env w) = None ∨ DEFAULT_EMAIL (env w) = Some "" →
           getUserEmail uid w = (Ok (Str "admin@example.com"), w')))).
Proof.
  intros Hfind cached w'. split.
  - intros Hyes. by rewrite (getUserEmail_address _ _ _ _ Hfind), Hyes.
  - intros Hno Hr. rewrite (getUserEmail_cache _ _ _ _ Hfind Hno Hr). fold cached w'.
    split.
    + intros e -> Hne. cbn [fmap option_fmap option_map].
      by rewrite truthy_str_Some.
    + intros Hcached.
      assert (truthy_str (payload <$> cached) = false) as ->.
      { destruct Hcached as [->|(e & -> & Hempty)]; [done|]. cbn. by rewrite Hempty. }
      unfold env_or. split.
      * intros address -> Hne. by rewrite truthy_str_Some.
      * by intros [->| ->].
Qed.

Lemma send_report_lookup_throws uid ps w err w1 :
  getUserEmail uid w = (Throw err, w1) → send_report uid ps w = (Throw err, w1).
Proof. intros E. unfold send_report. by rewrite (bind_Throw _ _ _ _ _ E). Qed.

(** C10: when the lookup of the user throws, or finds no address and the
    read of the cached address throws, [getUserEmail] throws that error
    instead of falling back to the default address, and the pass treats
    it as a failure of the record: the status key is left in place and a
    Report Error Record with the message of the error is written. *)
Theorem lookup_errors_propagate key w e ps err :
  String.prefix "bulk_status:" key = true →
  reachable w →
  redis w !! key = Some e →
  payload e ≠ "" →
  JSON_parse (payload e) = Ok ps →
  invalid_status ps = Ok false →
  let uid := key_userId key in
  let wa := after_command w in
  (User_findById uid (mongo wa)).1 = Throw err ∨
  (∃ user fs, (User_findById uid (mongo wa)).1 = Ok user ∧
     truthy (address_of user) = false ∧ redis_faults wa = Some err :: fs) →
  (getUserEmail uid wa).1 = Throw err ∧
  (reachable (getUserEmail uid wa).2 →
     let w' := (process_status_key key w).2 in
     redis w' !! key = Some e ∧
     redis w' !! report_error_key uid (now w) =
       Some {| payload :=
                 JSON_stringify
                   (report_error_json uid key err (now w + hd 0%Z (ticks w)));
               ttl := Some 86400%Z |}).
Proof.
  intros Hp Hr Hkey Hne Hparse Hvalid uid wa Hthrows.
  assert (∃ w1, getUserEmail uid wa = (Throw err, w1) ∧ now w1 = now w ∧ ticks w1 = ticks w)
    as (w1 & Hget & Hnow & Hticks).
  { destruct (User_findById uid (mongo wa)) as [r d] eqn:Hfind.
    destruct Hthrows as [Hthrow|(user & fs & Hfound & Hno & Hfault)];
      cbn [fst] in *; subst r.
    - rewrite (getUserEmail_lookup_throws uid wa err d Hfind). by eexists.
    - rewrite (getUserEmail_cache_throws uid wa user d err fs Hfind Hno Hfault).
      by eexists. }
  rewrite Hget. split; [done|]. cbn [snd]. intros Hr1.
  pose proof (send_report_lookup_throws uid ps wa err w1 Hget) as Hsend.
  destruct (failed_pass _ _ _ _ _ _ Hr Hkey Hne Hparse Hvalid Hsend Hr1) as [_ Hw'].
  fold uid in Hw'. rewrite Hw', Hnow, Hticks. split.
  - rewrite lookup_insert_ne; [done|]. by apply report_error_key_not_status.
  - by rewrite lookup_insert_eq.
Qed.

(** *** The success rate *)

(** C3 (amended): for a status record whose totalBooks is a zero, [+0] or
    [-0] (or converts to one), the success rate does not throw when
    successCount converts to a number; the division being unguarded, it
    is rendered as 'NaN%' for a count that is a zero or not a number, and
    otherwise as 'Infinity%' when the count and the zero have the same
    sign and as '-Infinity%' when their signs differ. *)
Theorem zero_total_rate statusData totalBooks zero negative successCount n :
  get_prop statusData "totalBooks" = Ok totalBooks →
  ToNumber totalBooks = Ok zero →
  Prim2SF zero = S754_zero negative →
  get_prop statusData "successCount" = Ok successCount →
  ToNumber successCount = Ok n →
  success_rate statusData = Ok (rate_over_zero negative n).
Proof.
  intros Htotal Hzero Hsign Hsc Hn. unfold success_rate.
  rewrite Hsc, Htotal. cbn [mbind result_bind]. rewrite Hn, Hzero.
  cbn [mbind result_bind mret result_ret]. f_equal.
  unfold toFixed2, rate_over_zero.
  rewrite mul_spec, div_spec, Hsign.
  destruct (Prim2SF n) as [s|s| |s m e]; try destruct s; destruct negative; reflexivity.
Qed.

(** *** What the Ingestion Job writes *)

Lemma keeps_bind_post {A B} P (Q : A → Prop) (m : M A) (f : A → M B) :
  keeps P m → (∀ w a w', m w = (Ok a, w') → Q a) → (∀ a, Q a → keeps P (f a)) →
  keeps P (m ≫= f).
Proof.
  intros Hm HQ Hf w k Hk. unfold mbind, M_bind.
  specialize (Hm w k Hk). specialize (HQ w).
  destruct (m w) as [[a|e] w']; simpl in *; [|done].
  rewrite Hf by eauto. done.
Qed.

Lemma keeps_for_of_Forall {A} P (Q : A → Prop) (xs : list A) (body : A → M unit) :
  (∀ x, Q x → keeps P (body x)) → Forall Q xs → keeps P (for_of xs body).
Proof.
  intros Hb. induction 1 as [|x xs Hx _ IH]; [done|].
  simpl. apply keeps_bind; [by apply Hb|]. by intros _.
Qed.

Lemma keeps_store_bulk_error uid e : keeps ingestion_key (store_bulk_error uid e).
Proof.
  unfold store_bulk_error. repeat keeps_step.
  apply keeps_redis_setEx. right; right. apply (prefix_app "bulk_error:").
Qed.

Lemma keeps_process_bulk_key key :
  String.prefix "bulk_books:" key = true → keeps ingestion_key (process_bulk_key key).
Proof.
  intros Hp. unfold process_bulk_key.
  apply keeps_try_catch; [|intros ?; apply keeps_store_bulk_error].
  repeat first
    [ apply keeps_process_books
    | apply keeps_redis_del; by left
    | apply keeps_redis_setEx; right; left; apply (prefix_app "bulk_status:")
    | keeps_step ].
Qed.

Lemma redis_keys_prefix p w ks w' :
  redis_keys p w = (Ok ks, w') → Forall (λ k, String.prefix p k = true) ks.
Proof.
  unfold redis_keys, redis_command.
  destruct (redis_faults w) as [|[e|] fs]; intros [= <- _]; try done;
    apply Forall_forall; by intros k [? _]%list_elem_of_filter.
Qed.

Lemma keeps_processBulkBooks : keeps ingestion_key processBulkBooks.
Proof.
  unfold processBulkBooks. apply keeps_try_catch; [|intros ?; apply keeps_ret].
  apply (keeps_bind_post _ (Forall (λ k, String.prefix "bulk_books:" k = true))).
  - by apply keeps_redis_command.
  - apply redis_keys_prefix.
  - intros ks Hks. destruct ks; [apply keeps_ret|].
    eapply keeps_for_of_Forall; [|done]. apply keeps_process_bulk_key.
Qed.

Lemma cache_key_not_ingestion uid : ¬ ingestion_key (getUserCacheKey uid "books").
Proof. unfold ingestion_key, getUserCacheKey. simpl. by intros [|[|]]. Qed.

(** The Ingestion Job leaves every user's cached book list as it was. *)
Lemma ingestion_keeps_cache uid w :
  redis (processBulkBooks w).2 !! getUserCacheKey uid "books" =
  redis w !! getUserCacheKey uid "books".
Proof. apply keeps_processBulkBooks, cache_key_not_ingestion. Qed.

(** *** Status records that are not valid *)

Lemma falsy_status_skipped key w :
  reachable w → truthy_str (payload <$> redis w !! key) = false →
  process_status_key key w = (Ok tt, after_command w).
Proof.
  intros Hr Hkey. unfold process_status_key, try_catch.
  unfold mbind at 1, M_bind. rewrite redis_get_run by done. by rewrite Hkey.
Qed.

Lemma invalid_status_missing ps :
  nullish ps = false →
  field ps "userId" = Undefined ∨ field ps "totalBooks" = Undefined →
  invalid_status ps = Ok true.
Proof.
  intros Hn Hmissing. unfold invalid_status.
  rewrite !(get_prop_field _ _ Hn). cbn [mbind result_bind].
  destruct Hmissing as [-> | ->]; [done|].
  by destruct (truthy (field ps "userId")).
Qed.

Lemma invalid_status_discarded key w e ps :
  reachable w →
  redis w !! key = Some e →
  payload e ≠ "" →
  JSON_parse (payload e) = Ok ps →
  invalid_status ps = Ok true →
  reachable (after_command w) →
  (process_status_key key w).1 = Ok tt ∧
  redis (process_status_key key w).2 = delete key (redis w).
Proof.
  intros Hr Hkey Hne Hparse Hinvalid Hr1.
  assert (process_status_key key w =
            (Ok tt, set_redis (delete key (redis w)) (after_command (after_command w))))
    as ->; [|done].
  unfold process_status_key, try_catch.
  unfold mbind at 1, M_bind. rewrite redis_get_run by done. rewrite Hkey.
  cbn [fmap option_fmap option_map].
  rewrite truthy_str_Some by done. cbn [negb from_option id].
  unfold mbind at 1, M_bind, lift. rewrite Hparse.
  unfold mbind at 1, M_bind. rewrite Hinvalid.
  by rewrite redis_del_run.
Qed.

(** C6 (amended): a discovered status key whose value is absent or empty
    is skipped and the store is left as it is; one whose value parses to a
    value other than [null] that lacks [userId] or [totalBooks] is deleted,
    and nothing is written for it. *)
Theorem malformed_status key w :
  reachable w →
  (truthy_str (payload <$> redis w !! key) = false →
     process_status_key key w = (Ok tt, after_command w)) ∧
  (∀ e ps,
     redis w !! key = Some e →
     payload e ≠ "" →
     JSON_parse (payload e) = Ok ps →
     nullish ps = false →
     field ps "userId" = Undefined ∨ field ps "totalBooks" = Undefined →
     reachable (after_command w) →
     (process_status_key key w).1 = Ok tt ∧
     redis (process_status_key key w).2 = delete key (redis w)).
Proof.
  intros Hr. split.
  - by apply falsy_status_skipped.
  - intros e ps Hkey Hne Hparse Hn Hmissing Hr1.
    apply (invalid_status_discarded key w e ps); try done.
    by apply invalid_status_missing.
Qed.

(** A status key that holds the text [null]: the pass throws on the first
    property it reads. *)
Lemma null_status_pass key w e :
  String.prefix "bulk_status:" key = true →
  reachable w →
  redis w !! key = Some e →
  payload e ≠ "" →
  JSON_parse (payload e) = Ok Null →
  reachable (after_command w) →
  redis (process_status_key key w).2 !! key = Some e ∧
  redis (process_status_key key w).2 !! report_error_key (key_userId key) (now w) =
    Some {| payload :=
              JSON_stringify
                (report_error_json (key_userId key) key null_userId
                   (now w + hd 0%Z (ticks w)));
            ttl := Some 86400%Z |}.
Proof.
  intros Hp Hr Hkey Hne Hparse Hr1.
  assert (process_status_key key w =
            store_report_error (key_userId key) key null_userId (after_command w)) as ->.
  { unfold process_status_key, try_catch.
    unfold mbind at 1, M_bind. rewrite redis_get_run by done. rewrite Hkey.
    cbn [fmap option_fmap option_map].
    rewrite truthy_str_Some by done. cbn [negb from_option id].
    unfold mbind at 1, M_bind, lift. by rewrite Hparse. }
  destruct (store_report_error_run (key_userId key) key null_userId (after_command w) Hr1)
    as (w' & -> & Hw').
  cbn [snd]. rewrite Hw'. cbn [redis now ticks after_command set_redis_faults]. split.
  - rewrite lookup_insert_ne; [done|]. by apply report_error_key_not_status.
  - by rewrite lookup_insert_eq.
Qed.

(** *** The routes invalidate the cache *)

Lemma ensures_bind {A B} (m : M A) (f : A → M B) Q :
  (∀ a, ensures (f a) Q) → ensures (m ≫= f) Q.
Proof.
  intros Hf w b w'. unfold mbind, M_bind.
  destruct (m w) as [[a|e] w1]; [apply Hf|done].
Qed.

Lemma ensures_try_catch {A} (body : M A) (handler : exn → M A) Q :
  ensures body Q → (∀ e, ensures (handler e) Q) → ensures (try_catch body handler) Q.
Proof.
  intros Hb Hh w a w'. unfold try_catch. specialize (Hb w).
  destruct (body w) as [[a'|e] w1]; [|apply Hh].
  intros [= <- <-]. by apply Hb.
Qed.

Lemma ensures_refusal uid (resp : Response) :
  status resp ≠ 201 → status resp ≠ 200 → ensures (mret resp) (invalidated uid).
Proof. intros ?? w a w' [= <- <-] [|]; done. Qed.

Lemma ensures_invalidate uid (resp : Response) :
  ensures (invalidateUserCache uid;; mret resp) (invalidated uid).
Proof.
  intros w a w'. unfold mbind, M_bind, invalidateUserCache, redis_del, redis_command.
  destruct (redis_faults w) as [|[e|] fs]; simpl; intros [= <- <-] _; simpl;
    apply lookup_delete_eq.
Qed.

Ltac ensures_step :=
  first
    [ apply ensures_invalidate
    | apply ensures_refusal; [done|done]
    | apply ensures_try_catch; [|intros ?]
    | apply ensures_bind; intros ?
    | match goal with
      | |- ensures (if ?b then _ else _) _ => destruct b
      end ].

Lemma create_book_invalidates uid body : ensures (create_book uid body) (invalidated uid).
Proof. unfold create_book. repeat ensures_step. Qed.

Lemma update_book_invalidates uid id body :
  ensures (update_book uid id body) (invalidated uid).
Proof. unfold update_book. repeat ensures_step. Qed.

Lemma delete_book_invalidates uid id : ensures (delete_book uid id) (invalidated uid).
Proof. unfold delete_book. repeat ensures_step. Qed.

Lemma bulk_create_invalidates uid body : ensures (bulk_create uid body) (invalidated uid).
Proof. unfold bulk_create. repeat ensures_step. Qed.

(** A read that misses the cache fills it with the list of the database. *)
Lemma list_books_fills_cache uid w books d :
  redis_faults w = [] →
  redis w !! getUserCacheKey uid "books" = None →
  Book_find uid (mongo w) = (Ok books, d) →
  (list_books uid w).1 =
    Ok {| status := 200; json := Obj [("source", Str "database"); ("books", Arr books)] |} ∧
  redis (list_books uid w).2 !! getUserCacheKey uid "books" =
    Some {| payload := JSON_stringify (Arr books); ttl := Some 3600%Z |}.
Proof.
  intros Hup Hmiss Hfind.
  assert (list_books uid w =
            (Ok {| status := 200;
                   json := Obj [("source", Str "database"); ("books", Arr books)] |},
             set_redis (<[getUserCacheKey uid "books" :=
                            {| payload := JSON_stringify (Arr books); ttl := Some 3600%Z |}]>
                          (redis w)) (set_mongo d w))) as ->.
  { unfold list_books, try_catch.
    unfold mbind at 1, M_bind. rewrite redis_get_up by done. rewrite Hmiss.
    cbn [fmap option_fmap option_map truthy_str].
    unfold mbind at 1, M_bind, on_mongo. rewrite Hfind.
    unfold mbind at 1, M_bind. by rewrite redis_setEx_up. }
  split; [done|]. apply lookup_insert_eq.
Qed.


(** ** The jobs as a whole *)

(** *** Relations every step of a computation respects *)

Lemma respects_ret (R : relation World) {A} (a : A) : PreOrder R → respects R (mret a).
Proof. intros ? w. exact (reflexivity w). Qed.

Lemma respects_throw (R : relation World) {A} e : PreOrder R → respects R (throw (A:=A) e).
Proof. intros ? w. exact (reflexivity w). Qed.

Lemma respects_lift (R : relation World) {A} (r : result A) : PreOrder R → respects R (lift r).
Proof. intros ? w. exact (reflexivity w). Qed.

Lemma respects_get_env (R : relation World) : PreOrder R → respects R get_env.
Proof. intros ? w. exact (reflexivity w). Qed.

Lemma respects_bind (R : relation World) {A B} (m : M A) (f : A → M B) :
  PreOrder R → respects R m → (∀ a, respects R (f a)) → respects R (m ≫= f).
Proof.
  intros ? Hm Hf w. unfold mbind, M_bind.
  specialize (Hm w). destruct (m w) as [[a|e] w']; simpl in *; [|done].
  etrans; [exact Hm|apply Hf].
Qed.

Lemma respects_try_catch (R : relation World) {A} (body : M A) (handler : exn → M A) :
  PreOrder R →
  respects R body → (∀ e, respects R (handler e)) → respects R (try_catch body handler).
Proof.
  intros ? Hb Hh w. unfold try_catch.
  specialize (Hb w). destruct (body w) as [[a|e] w']; simpl in *; [done|].
  etrans; [exact Hb|apply Hh].
Qed.

Lemma respects_outcome (R : relation World) {A} (body : M A) :
  respects R body → respects R (outcome body).
Proof. intros Hb w. unfold outcome. specialize (Hb w). by destruct (body w). Qed.

Lemma respects_interpolate (R : relation World) v : PreOrder R → respects R (interpolate v).
Proof.
  intros ?. unfold interpolate. apply respects_bind; [done|by apply respects_lift|].
  intros ?. by apply respects_ret.
Qed.

Lemma respects_for_of (R : relation World) {A} (xs : list A) (body : A → M unit) :
  PreOrder R → (∀ x, respects R (body x)) → respects R (for_of xs body).
Proof.
  intros ? Hb. induction xs as [|x xs IH]; [by apply respects_ret|].
  simpl. apply respects_bind; [done|apply Hb|]. by intros _.
Qed.

Lemma same_smtp_preorder : PreOrder same_smtp.
Proof.
  split; [by intros w|]. intros w1 w2 w3 H12 H23. unfold same_smtp in *. congruence.
Qed.

Lemma still_up_preorder : PreOrder still_up.
Proof.
  split; [by intros w Hw|]. intros w1 w2 w3 H12 H23 Hw. unfold still_up in *. auto.
Qed.

Lemma silent_Date_now : silent Date_now.
Proof. done. Qed.

Lemma silent_on_mongo {A} (op : Mongo → result A * Mongo) : silent (on_mongo op).
Proof. intros w. unfold on_mongo. by destruct (op (mongo w)). Qed.

Lemma silent_redis_command {A} (run : gmap string entry → A * gmap string entry) :
  silent (redis_command run).
Proof.
  intros w. unfold redis_command.
  destruct (redis_faults w) as [|[e|] fs]; try done; by destruct (run (redis w)).
Qed.

Lemma stays_up_Date_now : stays_up Date_now.
Proof. by intros w Hw. Qed.

Lemma stays_up_on_mongo {A} (op : Mongo → result A * Mongo) : stays_up (on_mongo op).
Proof. intros w Hw. unfold on_mongo. by destruct (op (mongo w)). Qed.

Lemma stays_up_on_smtp {A} (op : Smtp → result A * Smtp) : stays_up (on_smtp op).
Proof. intros w Hw. unfold on_smtp. by destruct (op (smtp w)). Qed.

Lemma stays_up_redis_command {A} (run : gmap string entry → A * gmap string entry) :
  stays_up (redis_command run).
Proof.
  intros w Hw. unfold redis_command. rewrite Hw. by destruct (run (redis w)).
Qed.

(** One step of a proof that a computation respects a preorder [order]:
    through the control structure, then [prim] at a primitive. *)
Ltac respects_step order prim :=
  first
    [ apply respects_bind; [exact order| |intros ?]
    | apply respects_try_catch; [exact order| |intros ?]
    | apply respects_outcome
    | apply respects_for_of; [exact order|intros ?]
    | apply respects_ret; exact order
    | apply respects_throw; exact order
    | apply respects_lift; exact order
    | apply respects_get_env; exact order
    | apply respects_interpolate; exact order
    | prim
    | match goal with
      | |- respects _ (if ?b then _ else _) => destruct b
      | |- respects _ (match ?x with _ => _ end) => destruct x
      end ].

Ltac silent_prim :=
  first [ apply silent_Date_now | apply silent_on_mongo | apply silent_redis_command ].

Ltac stays_up_prim :=
  first [ apply stays_up_Date_now | apply stays_up_on_mongo | apply stays_up_on_smtp
        | apply stays_up_redis_command ].

Ltac silent_auto := unfold silent; repeat respects_step same_smtp_preorder silent_prim.
Ltac stays_up_auto := unfold stays_up; repeat respects_step still_up_preorder stays_up_prim.

Lemma respects_process_books (R : relation World) (order : PreOrder R) uid books :
  (∀ {A} (op : Mongo → result A * Mongo), respects R (on_mongo op)) →
  ∀ i st, respects R (process_books uid books i st).
Proof.
  intros Hmongo. induction books as [|book rest IH]; intros i st; [by apply respects_ret|].
  simpl. apply respects_bind; [done| |intros ?; apply IH].
  unfold attempt, insert_book, validate, new_Book, record_failure.
  repeat respects_step order ltac:(apply Hmongo).
Qed.

Lemma silent_process_bulk_key key : silent (process_bulk_key key).
Proof.
  unfold process_bulk_key, store_bulk_error, redis_get, redis_setEx, redis_del.
  unfold silent.
  repeat first [ apply respects_process_books;
                   [exact same_smtp_preorder|intros; apply silent_on_mongo]
               | respects_step same_smtp_preorder silent_prim ].
Qed.

Lemma stays_up_process_bulk_key key : stays_up (process_bulk_key key).
Proof.
  unfold process_bulk_key, store_bulk_error, redis_get, redis_setEx, redis_del.
  unfold stays_up.
  repeat first [ apply respects_process_books;
                   [exact still_up_preorder|intros; apply stays_up_on_mongo]
               | respects_step still_up_preorder stays_up_prim ].
Qed.

(** The scan of a store that is reachable for good. *)
Lemma redis_keys_up p w :
  redis_faults w = [] →
  redis_keys p w =
    (Ok (filter (λ k, String.prefix p k = true) (map_to_list (redis w)).*1), w).
Proof.
  intros Hw. unfold redis_keys, redis_command. rewrite Hw. by destruct w.
Qed.

Lemma scanned p k w :
  k ∈ filter (λ k, String.prefix p k = true) (map_to_list (redis w)).*1 ↔
  String.prefix p k = true ∧ is_Some (redis w !! k).
Proof.
  rewrite list_elem_of_filter, list_elem_of_fmap. split.
  - intros [Hp ([k' e] & -> & He%elem_of_map_to_list)]. split; [done|]. by exists e.
  - intros [Hp [e He]]. split; [done|]. exists (k, e). split; [done|].
    by apply elem_of_map_to_list.
Qed.

(** X1: neither job ever throws: whatever the stores do, the run of a
    job ends normally. *)
Theorem jobs_never_throw w :
  (processBulkBooks w).1 = Ok tt ∧ (processStatusReports w).1 = Ok tt.
Proof.
  unfold processBulkBooks, processStatusReports, try_catch. split.
  - by destruct ((redis_keys "bulk_books:" ≫= _) w) as [[[]|e] w'].
  - by destruct ((redis_keys "bulk_status:" ≫= _) w) as [[[]|e] w'].
Qed.

(** X2: when the store rejects the scan, a job ends at once: it has read
    and written nothing, in the store, the document store or the
    transport. *)
Theorem scan_rejected w err fs :
  redis_faults w = Some err :: fs →
  processBulkBooks w = (Ok tt, after_command w) ∧
  processStatusReports w = (Ok tt, after_command w).
Proof.
  intros Hw. unfold processBulkBooks, processStatusReports, try_catch.
  unfold mbind, M_bind, redis_keys.
  by rewrite !(redis_command_fault _ _ _ _ Hw).
Qed.


(** *** A run of the Ingestion Job over batches that parse *)

(** One pass over a key whose value parses: the key is gone, the other
    pending batches are as they were, and the store is still reachable. *)
Lemma pass_over_parsed key w e v :
  String.prefix "bulk_books:" key = true →
  redis_faults w = [] →
  redis w !! key = Some e →
  payload e ≠ "" →
  JSON_parse (payload e) = Ok v →
  Forall submission (elements v) →
  ∃ w', process_bulk_key key w = (Ok tt, w') ∧
    redis_faults w' = [] ∧
    redis w' !! key = None ∧
    ∀ k, String.prefix "bulk_books:" k = true → k ≠ key → redis w' !! k = redis w !! k.
Proof.
  intros Hp Hup Hkey Hne Hparse Hall.
  assert (Hup' := stays_up_process_bulk_key key w Hup).
  destruct (decide (is_array v = false ∨ elements v = [])) as [Hv|Hv].
  - rewrite (process_bulk_key_empty _ _ _ _ Hup Hkey Hne Hparse Hv) in *.
    eexists. split; [done|]. split_and!; [done|apply lookup_delete_eq|].
    intros k _ Hk. cbn. by rewrite lookup_delete_ne.
  - destruct v as [| | | | |books|]; try (exfalso; apply Hv; by left).
    assert (books ≠ []) as Hbooks by (intros ->; apply Hv; by right).
    destruct (process_bulk_key_batch key w e books Hup Hkey Hne Hparse Hbooks Hall)
      as (st & w' & Hrun & Hredis & _).
    rewrite Hrun in Hup'. exists w'. split; [done|]. rewrite Hredis.
    split_and!; [done|apply lookup_delete_eq|].
    intros k Hk Hne'. rewrite lookup_delete_ne by done.
    rewrite lookup_insert_ne; [done|]. intros <-.
    by apply (status_key_not_pending (key_userId key) (now w + hd 0%Z (ticks w)) _ Hk).
Qed.

(** The loop over pending keys whose values parse. *)
Lemma drain_loop keys : ∀ w,
  NoDup keys →
  redis_faults w = [] →
  (∀ k, k ∈ keys →
     String.prefix "bulk_books:" k = true ∧
     ∃ e v, redis w !! k = Some e ∧ payload e ≠ "" ∧
       JSON_parse (payload e) = Ok v ∧ Forall submission (elements v)) →
  ∃ w', for_of keys process_bulk_key w = (Ok tt, w') ∧
    redis_faults w' = [] ∧
    (∀ k, k ∈ keys → redis w' !! k = None) ∧
    (∀ k, String.prefix "bulk_books:" k = true → k ∉ keys → redis w' !! k = redis w !! k).
Proof.
  induction keys as [|key rest IH]; intros w Hnd Hup Hall.
  - exists w. split_and!; [done|done| |done]. by intros k ?%elem_of_nil.
  - apply NoDup_cons in Hnd as [Hkey Hnd].
    destruct (Hall key) as (Hp & e & v & He & Hne & Hparse & Hsub); [by left|].
    destruct (pass_over_parsed key w e v Hp Hup He Hne Hparse Hsub)
      as (w1 & Hrun & Hup1 & Hgone & Hothers).
    destruct (IH w1 Hnd Hup1) as (w' & Hloop & Hup' & Hnone & Hkept).
    { intros k Hk. destruct (Hall k) as [Hpk Hk']; [by right|]. split; [done|].
      rewrite Hothers; [done|done|]. by intros ->. }
    exists w'. split_and!.
    + cbn [for_of]. unfold mbind, M_bind. by rewrite Hrun.
    + done.
    + intros k [->|Hk]%elem_of_cons; [|by apply Hnone].
      by rewrite Hkept.
    + intros k Hpk [Hne' Hk]%not_elem_of_cons.
      rewrite Hkept by done. by apply Hothers.
Qed.

Lemma no_pending_noop w :
  redis_faults w = [] →
  (∀ k, String.prefix "bulk_books:" k = true → redis w !! k = None) →
  processBulkBooks w = (Ok tt, w).
Proof.
  intros Hup Hnone. unfold processBulkBooks, try_catch.
  unfold mbind, M_bind. rewrite (redis_keys_up _ _ Hup).
  destruct (filter _ _) as [|k ks] eqn:Hks; [done|].
  assert (k ∈ k :: ks) as Hk by left. rewrite <- Hks in Hk.
  apply scanned in Hk as [Hp [e He]]. by rewrite Hnone in He.
Qed.

(** X3: when the store is reachable and every pending batch holds a text
    that parses (to a sequence of submissions, or to anything that is not
    one), one run of the Ingestion Job leaves no pending batch, and a
    second run right after it changes nothing. *)
Theorem ingestion_drains_pending w :
  redis_faults w = [] →
  (∀ k e, String.prefix "bulk_books:" k = true → redis w !! k = Some e →
     payload e ≠ "" ∧
     ∃ v, JSON_parse (payload e) = Ok v ∧ Forall submission (elements v)) →
  let w' := (processBulkBooks w).2 in
  (∀ k, String.prefix "bulk_books:" k = true → redis w' !! k = None) ∧
  processBulkBooks w' = (Ok tt, w').
Proof.
  intros Hup Hall w'.
  assert (redis_faults w' = [] ∧
          ∀ k, String.prefix "bulk_books:" k = true → redis w' !! k = None) as [Hup' Hnone].
  { subst w'. unfold processBulkBooks, try_catch.
    unfold mbind, M_bind. rewrite (redis_keys_up _ _ Hup).
    set (keys := filter _ _).
    assert (NoDup keys) as Hnd by apply NoDup_filter, NoDup_fst_map_to_list.
    destruct (drain_loop keys w Hnd Hup) as (w1 & Hloop & Hup1 & Hgone & Hkept).
    { intros k [Hp [e He]]%scanned. split; [done|].
      destruct (Hall k e Hp He) as (Hne & v & Hparse & Hsub). by exists e, v. }
    assert (∀ k, String.prefix "bulk_books:" k = true → redis w1 !! k = None) as Hnone.
    { intros k Hp. destruct (decide (k ∈ keys)) as [Hk|Hk]; [by apply Hgone|].
      rewrite Hkept by done. destruct (redis w !! k) as [e|] eqn:He; [|done].
      exfalso. apply Hk. apply scanned. split; [done|by exists e]. }
    destruct keys as [|k ks] eqn:Hks.
    - cbn. split; [done|]. intros k Hp. destruct (redis w !! k) as [e|] eqn:He; [|done].
      assert (k ∈ keys) as Hk by (apply scanned; split; [done|by exists e]).
      subst keys. rewrite Hks in Hk. by apply elem_of_nil in Hk.
    - rewrite Hloop. done. }
  split; [done|]. by apply no_pending_noop.
Qed.

(** X4: a run of the Ingestion Job changes no key of the store outside
    the pending batches, the status records and the batch error records,
    and hands nothing to the Message Transport. *)
Theorem ingestion_footprint w k :
  ¬ ingestion_key k →
  redis (processBulkBooks w).2 !! k = redis w !! k ∧
  smtp (processBulkBooks w).2 = smtp w.
Proof.
  intros Hk. split; [by apply keeps_processBulkBooks|].
  revert w. change (silent processBulkBooks). unfold processBulkBooks, redis_keys, silent.
  repeat first [ apply silent_process_bulk_key
               | respects_step same_smtp_preorder silent_prim ].
Qed.

(** X5: when the store turns unreachable after the scan, the run ends at
    the first pending batch: the read of the batch is rejected, then the
    write of the Batch Error Record, and the error that escapes the pass
    ends the run.  Two commands were attempted, whatever the number of
    pending batches; nothing was persisted. *)
Theorem run_ends_when_error_record_rejected w k e e1 e2 fs :
  redis_faults w = None :: Some e1 :: Some e2 :: fs →
  String.prefix "bulk_books:" k = true →
  redis w !! k = Some e →
  let w' := (processBulkBooks w).2 in
  redis w' = redis w ∧ mongo w' = mongo w ∧ smtp w' = smtp w ∧ redis_faults w' = fs.
Proof.
  intros Hf Hp He. destruct w as [m faults d t n ts en]. cbn in Hf, He. subst faults.
  unfold processBulkBooks, try_catch, mbind, M_bind, redis_keys, redis_command.
  cbn [redis_faults redis set_redis set_redis_faults].
  destruct (filter _ _) as [|k0 ks] eqn:Hks.
  - assert (k ∈ filter (λ k, String.prefix "bulk_books:" k = true) (map_to_list m).*1) as Hk.
    { apply (scanned _ _ {| redis := m; redis_faults := []; mongo := d; smtp := t;
                            now := n; ticks := ts; env := en |}). split; [done|by exists e]. }
    rewrite Hks in Hk. by apply elem_of_nil in Hk.
  - cbn [for_of]. unfold mbind, M_bind, process_bulk_key, try_catch.
    unfold mbind, M_bind, redis_get, redis_command. cbn.
    unfold store_bulk_error, mbind, M_bind, Date_now, redis_setEx, redis_command. cbn.
    done.
Qed.


(** *** The user id of a key *)

Lemma split_on_nonempty sep s : split_on sep s ≠ [].
Proof.
  destruct s as [|c s]; simpl; [done|].
  destruct (Ascii.eqb c sep); [done|]. by destruct (split_on sep s).
Qed.

(** A segment of a split holds no separator: it splits into itself. *)
Lemma split_on_segment sep s : ∀ seg, seg ∈ split_on sep s → split_on sep seg = [seg].
Proof.
  induction s as [|c s IH]; simpl; intros seg Hseg.
  - by apply list_elem_of_singleton in Hseg as ->.
  - destruct (Ascii.eqb c sep) eqn:Hc.
    + apply elem_of_cons in Hseg as [->|Hseg]; [done|by apply IH].
    + destruct (split_on sep s) as [|seg0 segs] eqn:Hs; [by destruct (split_on_nonempty sep s)|].
      apply elem_of_cons in Hseg as [->|Hseg]; [|apply IH; by right].
      simpl. rewrite Hc, (IH seg0) by left. done.
Qed.

Lemma split_on_app sep a b :
  split_on sep a = [a] → split_on sep (a +:+ String sep b) = a :: split_on sep b.
Proof.
  induction a as [|c a IH]; simpl.
  - intros _. by rewrite Ascii.eqb_refl.
  - destruct (Ascii.eqb c sep); [done|].
    destruct (split_on sep a) as [|seg segs] eqn:Ha; [by destruct (split_on_nonempty sep a)|].
    intros [= -> ->]. by rewrite IH.
Qed.

Lemma prefix_split p : ∀ s, String.prefix p s = true → ∃ r, s = p +:+ r.
Proof.
  induction p as [|a p IH]; intros s Hs; [by exists s|].
  destruct s as [|b s]; [done|]. simpl in Hs.
  destruct (ascii_dec a b) as [->|]; [|done].
  apply IH in Hs as [r ->]. by exists r.
Qed.

(** The user id of a pending key is the first segment after the prefix. *)
Lemma key_userId_pending key :
  String.prefix "bulk_books:" key = true →
  ∃ u, key_userId key = Some u ∧ split_on ":" u = [u].
Proof.
  intros [r ->]%prefix_split. unfold key_userId.
  change ("bulk_books:" +:+ r) with ("bulk_books" +:+ String ":" r).
  rewrite split_on_app by done. cbn [lookup list_lookup].
  destruct (split_on ":" r) as [|u segs] eqn:Hr; [by destruct (split_on_nonempty ":" r)|].
  exists u. split; [done|]. apply (split_on_segment ":" r). rewrite Hr. by left.
Qed.

(** X6: the Report Job reads from the key of a status record the user id
    the Ingestion Job read from the key of the pending batch. *)
Theorem report_reads_ingestion_user key t :
  String.prefix "bulk_books:" key = true →
  key_userId (status_key (key_userId key) t) = key_userId key.
Proof.
  intros (u & -> & Hu)%key_userId_pending. unfold key_userId, status_key.
  cbn [tpl default from_option id].
  change ("bulk_status:" +:+ u +:+ ":" +:+ pretty t)
    with ("bulk_status" +:+ String ":" (u +:+ String ":" (pretty t))).
  rewrite split_on_app by done. by rewrite split_on_app.
Qed.

(** X7: the user id of a pending key is what stands between the prefix
    and the next colon: a batch stored for an id that holds a colon is
    processed for the part of the id before it. *)
Theorem key_userId_first_segment u rest :
  split_on ":" u = [u] →
  key_userId ("bulk_books:" +:+ u) = Some u ∧
  key_userId ("bulk_books:" +:+ u +:+ ":" +:+ rest) = Some u.
Proof.
  intros Hu. unfold key_userId. split.
  - change ("bulk_books:" +:+ u) with ("bulk_books" +:+ String ":" u).
    rewrite split_on_app by done. by rewrite Hu.
  - change ("bulk_books:" +:+ u +:+ ":" +:+ rest)
      with ("bulk_books" +:+ String ":" (u +:+ String ":" rest)).
    rewrite split_on_app by done. by rewrite split_on_app.
Qed.

(** *** What the Report Job touches *)

Lemma keeps_store_report_error uid key e : keeps report_key (store_report_error uid key e).
Proof.
  unfold store_report_error. repeat keeps_step.
  apply keeps_redis_setEx. right. apply (prefix_app "report_error:").
Qed.

Lemma keeps_process_status_key key :
  String.prefix "bulk_status:" key = true → keeps report_key (process_status_key key).
Proof.
  intros Hp. unfold process_status_key.
  apply keeps_try_catch; [|intros ?; apply keeps_store_report_error].
  repeat first
    [ apply keeps_send_report
    | apply keeps_redis_del; by left
    | keeps_step ].
Qed.

(** X8: a run of the Report Job changes no key of the store outside the
    status records and its own error records: pending batches, cached
    book lists and cached addresses stay as they are. *)
Theorem report_footprint w k :
  ¬ report_key k → redis (processStatusReports w).2 !! k = redis w !! k.
Proof.
  revert w k. change (keeps report_key processStatusReports).
  unfold processStatusReports. apply keeps_try_catch; [|intros ?; apply keeps_ret].
  apply (keeps_bind_post _ (Forall (λ k, String.prefix "bulk_status:" k = true))).
  - by apply keeps_redis_command.
  - apply redis_keys_prefix.
  - intros ks Hks. destruct ks; [apply keeps_ret|].
    eapply keeps_for_of_Forall; [|done]. apply keeps_process_status_key.
Qed.

(** *** The messages of a pass *)

Lemma silent_getUserEmail uid : silent (getUserEmail uid).
Proof. unfold getUserEmail, redis_get. silent_auto. Qed.

Lemma silent_generatePDFReport ps uid : silent (generatePDFReport ps uid).
Proof. unfold generatePDFReport. silent_auto. Qed.

Lemma silent_store_report_error uid key e : silent (store_report_error uid key e).
Proof. unfold store_report_error, redis_setEx. silent_auto. Qed.

Lemma silent_redis_del key : silent (redis_del key).
Proof. apply silent_redis_command. Qed.

Lemma silent_redis_get key : silent (redis_get key).
Proof. apply silent_redis_command. Qed.

Lemma one_if_silent {A} (m : M A) : silent m → sends_at_most_one m.
Proof. intros Hm w. left. apply Hm. Qed.

Lemma one_after_silent {A B} (m : M A) (f : A → M B) :
  silent m → (∀ a, sends_at_most_one (f a)) → sends_at_most_one (m ≫= f).
Proof.
  intros Hm Hf w. unfold mbind, M_bind. specialize (Hm w). unfold same_smtp in Hm.
  destruct (m w) as [[a|e] w1]; simpl in *; [|by left].
  rewrite <- Hm. apply Hf.
Qed.

Lemma one_then_silent {A B} (m : M A) (f : A → M B) :
  sends_at_most_one m → (∀ a, silent (f a)) → sends_at_most_one (m ≫= f).
Proof.
  intros Hm Hf w. unfold mbind, M_bind. specialize (Hm w).
  destruct (m w) as [[a|e] w1]; simpl in *; [|done].
  specialize (Hf a w1). unfold same_smtp in Hf. by rewrite Hf.
Qed.

Lemma one_try_catch {A} (body : M A) (handler : exn → M A) :
  sends_at_most_one body → (∀ e, silent (handler e)) →
  sends_at_most_one (try_catch body handler).
Proof.
  intros Hb Hh w. unfold try_catch. specialize (Hb w).
  destruct (body w) as [[a|e] w1]; simpl in *; [done|].
  specialize (Hh e w1). unfold same_smtp in Hh. by rewrite Hh.
Qed.

Lemma one_sendReportEmail address pdf ps uid :
  sends_at_most_one (sendReportEmail address pdf ps uid).
Proof.
  unfold sendReportEmail. apply one_try_catch; [|intros ?; silent_auto].
  apply one_after_silent; [silent_auto|intros e].
  apply one_after_silent; [silent_auto|intros texts].
  apply one_after_silent; [silent_auto|intros t].
  apply one_then_silent; [|intros info; silent_auto].
  intros w. right. unfold on_smtp.
  match goal with |- context [transporter_sendMail ?mail (smtp w)] => exists mail end.
  by destruct (transporter_sendMail _ _).
Qed.

Lemma one_send_report uid ps : sends_at_most_one (send_report uid ps).
Proof.
  unfold send_report.
  apply one_after_silent; [apply silent_getUserEmail|intros address].
  apply one_after_silent; [apply silent_generatePDFReport|intros pdf].
  apply one_after_silent; [silent_auto|intros _].
  apply one_then_silent; [apply one_sendReportEmail|intros ?; silent_auto].
Qed.

(** X9: one pass over a status key hands at most one message to the
    Message Transport, whatever the pass meets. *)
Theorem one_message_per_pass key w :
  smtp (process_status_key key w).2 = smtp w ∨
  ∃ mail, smtp (process_status_key key w).2 = (transporter_sendMail mail (smtp w)).2.
Proof.
  revert w. change (sends_at_most_one (process_status_key key)).
  unfold process_status_key.
  apply one_try_catch; [|intros ?; apply silent_store_report_error].
  apply one_after_silent; [apply silent_redis_get|intros statusData].
  destruct (negb _); [apply one_if_silent; silent_auto|].
  apply one_after_silent; [silent_auto|intros ps].
  apply one_after_silent; [silent_auto|intros invalid].
  destruct invalid; [apply one_if_silent, silent_redis_del|].
  apply one_then_silent; [apply one_send_report|intros _; apply silent_redis_del].
Qed.

(** What the read of a key returns when it returns. *)
Lemma redis_get_returns key w r w' :
  redis_get key w = (r, w') →
  smtp w' = smtp w ∧ redis w' = redis w ∧
  ∀ v, r = Ok v → v = payload <$> redis w !! key.
Proof.
  unfold redis_get, redis_command.
  destruct (redis_faults w) as [|[e|] fs]; intros [= <- <-]; split_and!; try done;
    by intros ? [= <-].
Qed.

(** X10: a pass over a status key hands a message to the Message
    Transport only when the key holds a text that parses to a valid status
    record: nothing is sent for an absent, empty, unparseable or invalid
    one. *)
Theorem message_only_for_valid_record key w :
  smtp (process_status_key key w).2 ≠ smtp w →
  ∃ e ps, redis w !! key = Some e ∧ payload e ≠ "" ∧
    JSON_parse (payload e) = Ok ps ∧ invalid_status ps = Ok false.
Proof.
  intros Hsent.
  destruct (redis w !! key) as [e|] eqn:He; cycle 1.
  { destruct Hsent. unfold process_status_key, try_catch. unfold mbind at 1, M_bind.
    destruct (redis_get key w) as [[v|err] w1] eqn:Hget;
      apply redis_get_returns in Hget as (Hs & _ & Hv).
    - rewrite (Hv v eq_refl), He. cbn. done.
    - rewrite <- Hs. apply silent_store_report_error. }
  destruct (decide (payload e = "")) as [Hempty|Hne].
  { destruct Hsent. unfold process_status_key, try_catch. unfold mbind at 1, M_bind.
    destruct (redis_get key w) as [[v|err] w1] eqn:Hget;
      apply redis_get_returns in Hget as (Hs & _ & Hv).
    - rewrite (Hv v eq_refl), He. cbn. rewrite Hempty. cbn. done.
    - rewrite <- Hs. apply silent_store_report_error. }
  destruct (JSON_parse (payload e)) as [ps|err] eqn:Hparse; cycle 1.
  { destruct Hsent. unfold process_status_key, try_catch. unfold mbind at 1, M_bind.
    destruct (redis_get key w) as [[v|err'] w1] eqn:Hget;
      apply redis_get_returns in Hget as (Hs & _ & Hv).
    - rewrite (Hv v eq_refl), He. cbn [fmap option_fmap option_map].
      rewrite truthy_str_Some by done. cbn [negb default from_option id].
      unfold mbind at 1, M_bind, lift. rewrite Hparse.
      rewrite <- Hs. apply silent_store_report_error.
    - rewrite <- Hs. apply silent_store_report_error. }
  destruct (invalid_status ps) as [[]|err] eqn:Hinvalid; [|by exists e, ps|].
  - destruct Hsent. unfold process_status_key, try_catch. unfold mbind at 1, M_bind.
    destruct (redis_get key w) as [[v|err'] w1] eqn:Hget;
      apply redis_get_returns in Hget as (Hs & _ & Hv).
    + rewrite (Hv v eq_refl), He. cbn [fmap option_fmap option_map].
      rewrite truthy_str_Some by done. cbn [negb default from_option id].
      unfold mbind at 1, M_bind, lift. rewrite Hparse.
      unfold mbind at 1, M_bind. rewrite Hinvalid.
      assert (Hdel := silent_redis_del key w1). unfold same_smtp in Hdel.
      destruct (redis_del key w1) as [[[]|err'] w2]; cbn in *; [congruence|].
      rewrite <- Hs, <- Hdel. apply silent_store_report_error.
    + rewrite <- Hs. apply silent_store_report_error.
  - destruct Hsent. unfold process_status_key, try_catch. unfold mbind at 1, M_bind.
    destruct (redis_get key w) as [[v|err'] w1] eqn:Hget;
      apply redis_get_returns in Hget as (Hs & _ & Hv).
    + rewrite (Hv v eq_refl), He. cbn [fmap option_fmap option_map].
      rewrite truthy_str_Some by done. cbn [negb default from_option id].
      unfold mbind at 1, M_bind, lift. rewrite Hparse.
      unfold mbind at 1, M_bind. rewrite Hinvalid.
      rewrite <- Hs. apply silent_store_report_error.
    + rewrite <- Hs. apply silent_store_report_error.
Qed.

(** X11: the address [getUserEmail] resolves is never an absent or empty
    one, and resolving it writes nothing to the store. *)
Theorem resolved_address_is_present uid w address w' :
  getUserEmail uid w = (Ok address, w') →
  truthy address = true ∧ redis w' = redis w.
Proof.
  intros Hrun. split; cycle 1.
  { change w' with (Ok address, w').2. rewrite <- Hrun.
    apply keeps_nothing, keeps_getUserEmail. }
  revert Hrun. unfold getUserEmail, try_catch, throw.
  unfold mbind at 1, M_bind, on_mongo.
  destruct (User_findById uid (mongo w)) as [[user|err] d]; [|done].
  unfold mbind at 1, M_bind.
  assert (∀ (email : value) w1,
    (if truthy email then mret email
     else cachedEmail ← redis_get ("user_email:" +:+ tpl uid);
          if truthy_str cachedEmail then mret (of_opt cachedEmail)
          else e ← get_env; mret (Str (env_or (DEFAULT_EMAIL e) "admin@example.com")))
      w1 = (Ok address, w') → truthy address = true) as Hrest.
  { intros email w1. destruct (truthy email) eqn:Hemail; [by intros [= <- _]|].
    unfold mbind at 1, M_bind.
    destruct (redis_get _ w1) as [[cached|err] w2]; [|done].
    destruct (truthy_str cached) eqn:Hcached.
    - intros [= <- _]. by destruct cached.
    - unfold mbind, M_bind, get_env. intros [= <- _]. unfold env_or. simpl.
      destruct (truthy_str (DEFAULT_EMAIL (env w2))) eqn:Henv; [|done].
      by destruct (DEFAULT_EMAIL (env w2)). }
  destruct (truthy user).
  - unfold lift. destruct (get_prop user "email") as [email|err]; [|done].
    match goal with |- context [match ?m ?w1 with _ => _ end] =>
      specialize (Hrest email w1); destruct (m w1) as [[a|err] w2] eqn:E end.
    + intros [= -> ->]. by apply Hrest.
    + done.
  - cbn [mret M_ret].
    match goal with |- context [match ?m ?w1 with _ => _ end] =>
      specialize (Hrest Undefined w1); destruct (m w1) as [[a|err] w2] eqn:E end.
    + intros [= -> ->]. by apply Hrest.
    + done.
Qed.


(** *** The layout of the failure details *)

Lemma page_breaks_app a b : page_breaks (a ++ b) = page_breaks a + page_breaks b.
Proof. unfold page_breaks. by rewrite List.filter_app, length_app. Qed.

Lemma text_rows_app a b : text_rows (a ++ b) = text_rows a ++ text_rows b.
Proof. apply omap_app. Qed.

(** The blocks drawn from the row [y] on: the pages they add, their
    lines, and the rows of the lines. *)
Lemma failure_blocks_layout items : ∀ i y ops,
  failure_blocks items i y = Ok ops →
  y ≤ 750 →
  page_breaks ops = (length items + 13 - (750 - y) / 50) / 14 ∧
  length (text_rows ops) = 3 * length items ∧
  Forall (λ r, y `min` 50 ≤ r ≤ 730) (text_rows ops).
Proof.
  induction items as [|failure rest IH]; intros i y ops Hops Hy.
  - injection Hops as <-. split_and!; [|done|done].
    symmetry. apply Nat.div_small. cbn [length]. lia.
  - cbn [failure_blocks] in Hops. unfold mbind, result_bind in Hops.
    destruct (field_text failure "title") as [title|]; [|done].
    destruct (field_text failure "index") as [idx|]; [|done].
    destruct (field_text failure "error") as [err|]; [|done].
    destruct (700 <? y) eqn:Hbreak.
    + apply Nat.ltb_lt in Hbreak.
      destruct (failure_blocks rest (S i) (50 + 50)) as [later|] eqn:Hlater; [|done].
      injection Hops as <-.
      destruct (IH _ _ _ Hlater) as (Hpages & Hlines & Hrows); [lia|].
      split_and!.
      * transitivity (S (page_breaks later)); [done|]. rewrite Hpages.
        rewrite (Nat.div_small (750 - y)) by lia.
        change ((750 - (50 + 50)) / 50) with 13. cbn [length].
        replace (length rest + 13 - 13) with (length rest) by lia.
        replace (S (length rest) + 13 - 0) with (length rest + 1 * 14) by lia.
        rewrite Nat.div_add by lia. lia.
      * transitivity (3 + length (text_rows later)); [done|]. rewrite Hlines.
        cbn [length]. lia.
      * change (Forall (λ r, y `min` 50 ≤ r ≤ 730) (50 :: 65 :: 80 :: text_rows later)).
        repeat (apply Forall_cons; split; [lia|]).
        eapply Forall_impl; [exact Hrows|]. simpl. lia.
    + apply Nat.ltb_ge in Hbreak.
      destruct (failure_blocks rest (S i) (y + 50)) as [later|] eqn:Hlater; [|done].
      injection Hops as <-.
      destruct (IH _ _ _ Hlater) as (Hpages & Hlines & Hrows); [lia|].
      split_and!.
      * transitivity (page_breaks later); [done|]. rewrite Hpages.
        assert ((750 - y) / 50 = (750 - (y + 50)) / 50 + 1) as ->.
        { replace (750 - y) with ((750 - (y + 50)) + 1 * 50) by lia.
          apply Nat.div_add. lia. }
        cbn [length]. f_equal. lia.
      * transitivity (3 + length (text_rows later)); [done|]. rewrite Hlines.
        cbn [length]. lia.
      * change (Forall (λ r, y `min` 50 ≤ r ≤ 730)
                  (y :: y + 15 :: y + 30 :: text_rows later)).
        repeat (apply Forall_cons; split; [lia|]).
        eapply Forall_impl; [exact Hrows|]. simpl. lia.
Qed.

(** X12: the details of n failures, drawn from row 325 on with a new page
    whenever the row passes 700, add (n + 5) / 14 pages: none up to eight
    failures, then one more for every fourteen. *)
Theorem failure_details_pages items ops :
  failure_blocks items 0 325 = Ok ops →
  page_breaks ops = (length items + 5) / 14.
Proof.
  intros Hops. destruct (failure_blocks_layout items 0 325 ops Hops) as [-> _]; [lia|].
  change ((750 - 325) / 50) with 8. f_equal. lia.
Qed.

(** X13: every failure is drawn in three lines, and every line of the
    details stands between the rows 50 and 730: none reaches the row of
    the page footer, 750. *)
Theorem failure_details_rows items ops :
  failure_blocks items 0 325 = Ok ops →
  length (text_rows ops) = 3 * length items ∧
  Forall (λ r, 50 ≤ r ≤ 730) (text_rows ops).
Proof.
  intros Hops.
  destruct (failure_blocks_layout items 0 325 ops Hops) as (_ & Hlines & Hrows); [lia|].
  done.
Qed.


(** ** The book routes *)

Lemma invalidate_cache_invalidates uid : ensures (invalidate_cache uid) (invalidated uid).
Proof. unfold invalidate_cache. repeat ensures_step. Qed.

(** X14: whenever one of the routes that change the user's books, or the
    manual invalidation, answers with status 200 or 201, the user's cached
    book list is gone from the store. *)
Theorem routes_invalidate_cache uid id body w resp w' :
  create_book uid body w = (Ok resp, w') ∨
  update_book uid id body w = (Ok resp, w') ∨
  delete_book uid id w = (Ok resp, w') ∨
  bulk_create uid body w = (Ok resp, w') ∨
  invalidate_cache uid w = (Ok resp, w') →
  status resp = 200 ∨ status resp = 201 →
  redis w' !! getUserCacheKey uid "books" = None.
Proof.
  intros Hrun Hstatus.
  assert (invalidated uid resp w') as Hinv.
  { destruct Hrun as [H|[H|[H|[H|H]]]].
    - by apply (create_book_invalidates uid body w).
    - by apply (update_book_invalidates uid id body w).
    - by apply (delete_book_invalidates uid id w).
    - by apply (bulk_create_invalidates uid body w).
    - by apply (invalidate_cache_invalidates uid w). }
  apply Hinv. tauto.
Qed.

(** X15: [POST /] with a body that lacks its title, author or isbn
    answers 400 and has touched neither the document store nor the
    cache. *)
Theorem create_book_rejects_incomplete uid body w :
  nullish body = false →
  lacks_field body = true →
  create_book uid body w =
    (Ok {| status := 400; json := error_body "Title, author, and ISBN are required" |}, w).
Proof.
  intros Hn Hlacks. unfold create_book, try_catch. rewrite !(get_prop_field _ _ Hn).
  unfold mbind, M_bind, lift. unfold lacks_field in Hlacks. by rewrite Hlacks.
Qed.

Lemma lacks_bulk_field_run book :
  nullish book = false → lacks_bulk_field book = Ok (lacks_field book).
Proof.
  intros Hn. unfold lacks_bulk_field, lacks_field. rewrite !(get_prop_field _ _ Hn).
  unfold mbind, result_bind.
  destruct (truthy (field book "title")); [|done].
  by destruct (truthy (field book "author")).
Qed.

Lemma any_lacks_field_run books :
  Forall (λ b, nullish b = false) books →
  any_lacks_field books = Ok (existsb lacks_field books).
Proof.
  induction 1 as [|book rest Hn _ IH]; [done|].
  cbn [any_lacks_field existsb]. rewrite (lacks_bulk_field_run _ Hn).
  unfold mbind, result_bind. by destruct (lacks_field book).
Qed.

(** X16: [POST /bulk] validates the whole batch before it inserts: when
    one book lacks its title, author or isbn, the answer is 400 and no
    book of the batch is inserted, the complete ones included; the cache
    is left as it is. *)
Theorem bulk_create_all_or_nothing uid body books w :
  get_prop body "books" = Ok (Arr books) →
  Forall (λ b, nullish b = false) books →
  Exists (λ b, lacks_field b = true) books →
  bulk_create uid body w =
    (Ok {| status := 400; json := error_body "Each book must have title, author, and ISBN" |},
     w).
Proof.
  intros Hbooks Hall Hex. unfold bulk_create, try_catch.
  unfold mbind at 1, M_bind, lift. rewrite Hbooks. cbn [truthy is_array elements negb orb].
  replace (length books =? 0) with false by (by destruct Hex).
  unfold mbind, M_bind. rewrite (any_lacks_field_run _ Hall).
  replace (existsb lacks_field books) with true; [done|].
  symmetry. apply existsb_exists. apply Exists_exists in Hex as (b & Hb & Hlacks).
  exists b. split; [by apply list_elem_of_In|done].
Qed.

(** X17: when the insertion of [POST /bulk] fails on a duplicate key, the
    answer is 400 and the user's cached book list is invalidated all the
    same (some books of the batch may be in); when the store rejects that
    invalidation, the handler throws and answers nothing. *)
Theorem bulk_create_duplicate uid body books w e d :
  get_prop body "books" = Ok (Arr books) →
  books ≠ [] →
  any_lacks_field books = Ok false →
  Book_insertMany (with_userId uid <$> books) (mongo w) = (Throw e, d) →
  is_duplicate e = true →
  let w' := (bulk_create uid body w).2 in
  mongo w' = d ∧
  match redis_faults w with
  | Some err :: _ => (bulk_create uid body w).1 = Throw err
  | _ =>
      (bulk_create uid body w).1 =
        Ok {| status := 400; json := error_details "Some books have duplicate ISBNs" e |} ∧
      redis w' !! getUserCacheKey uid "books" = None
  end.
Proof.
  intros Hbooks Hne Hvalid Hinsert Hdup w'.
  set (resp := {| status := 400;
                  json := error_details "Some books have duplicate ISBNs" e |}).
  set (gone := delete (getUserCacheKey uid "books") (redis w)).
  assert (bulk_create uid body w =
          match redis_faults w with
          | Some err :: fs => (Throw err, set_redis_faults fs (set_mongo d w))
          | None :: fs => (Ok resp, set_redis gone (set_redis_faults fs (set_mongo d w)))
          | [] => (Ok resp, set_redis gone (set_mongo d w))
          end) as Hrun.
  { unfold bulk_create, try_catch.
    unfold mbind at 1, M_bind, lift. rewrite Hbooks. cbn [truthy is_array elements negb orb].
    replace (length books =? 0) with false by (by destruct books).
    unfold mbind at 1, M_bind. rewrite Hvalid.
    unfold mbind at 1, M_bind, on_mongo. rewrite Hinsert, Hdup.
    unfold mbind, M_bind, invalidateUserCache, redis_del, redis_command.
    cbn [redis_faults set_mongo]. by destruct (redis_faults w) as [|[err|] fs]. }
  subst w'. rewrite Hrun.
  destruct (redis_faults w) as [|[err|] fs]; cbn; split_and!; try done;
    apply lookup_delete_eq.
Qed.

(** X18: [PUT /:id] and [DELETE /:id] for a book that is not found answer
    404 and leave the cache as it is. *)
Theorem not_found_keeps_cache uid id body w :
  (nullish body = false →
   ∀ book d, Book_findOneAndUpdate id uid
       (Obj [("title", field body "title"); ("author", field body "author");
             ("isbn", field body "isbn"); ("publishedYear", field body "publishedYear");
             ("genre", field body "genre")]) (mongo w) = (Ok book, d) →
     truthy book = false →
     update_book uid id body w =
       (Ok {| status := 404; json := error_body "Book not found" |}, set_mongo d w)) ∧
  (∀ book d, Book_findOneAndDelete id uid (mongo w) = (Ok book, d) →
     truthy book = false →
     delete_book uid id w =
       (Ok {| status := 404; json := error_body "Book not found" |}, set_mongo d w)).
Proof.
  split.
  - intros Hn book d Hfind Hbook. unfold update_book, try_catch.
    rewrite !(get_prop_field _ _ Hn). unfold mbind, M_bind, lift, on_mongo.
    by rewrite Hfind, Hbook.
  - intros book d Hfind Hbook. unfold delete_book, try_catch.
    unfold mbind, M_bind, on_mongo. by rewrite Hfind, Hbook.
Qed.

Lemma try_catch_answers {A} (body : M A) (handler : exn → M A) w :
  (∀ e w1, is_Ok (handler e w1).1 = true) → is_Ok (try_catch body handler w).1 = true.
Proof. intros Hh. unfold try_catch. destruct (body w) as [[a|e] w1]; [done|apply Hh]. Qed.

(** X19: every route but [POST /bulk] answers whatever the stores do: an
    error becomes a response, none escapes the handler. *)
Theorem routes_always_answer uid id body w :
  is_Ok (create_book uid body w).1 = true ∧
  is_Ok (list_books uid w).1 = true ∧
  is_Ok (update_book uid id body w).1 = true ∧
  is_Ok (delete_book uid id w).1 = true ∧
  is_Ok (invalidate_cache uid w).1 = true.
Proof.
  unfold create_book, list_books, update_book, delete_book, invalidate_cache.
  split_and!; apply try_catch_answers; intros e w1; try done; by destruct (is_duplicate e).
Qed.


Lemma list_books_cache_hit uid w e v :
  redis_faults w = [] →
  redis w !! getUserCacheKey uid "books" = Some e →
  payload e ≠ "" →
  JSON_parse (payload e) = Ok v →
  list_books uid w =
    (Ok {| status := 200; json := Obj [("source", Str "cache"); ("books", v)] |}, w).
Proof.
  intros Hup He Hne Hparse. unfold list_books, try_catch.
  unfold mbind at 1, M_bind. rewrite redis_get_up by done. rewrite He.
  cbn [fmap option_fmap option_map]. rewrite truthy_str_Some by done.
  cbn [default from_option id]. unfold mbind, M_bind, lift. by rewrite Hparse.
Qed.

(** X20: a read of the user's books that finds no cached list answers
    from the document store and caches what it answers; the read after it
    is answered from the cache, with what the cached text parses to, and
    touches neither the document store nor the cache. *)
Theorem list_books_second_read uid w books d v :
  redis_faults w = [] →
  truthy_str (payload <$> redis w !! getUserCacheKey uid "books") = false →
  Book_find uid (mongo w) = (Ok books, d) →
  JSON_stringify (Arr books) ≠ "" →
  JSON_parse (JSON_stringify (Arr books)) = Ok v →
  let w1 := (list_books uid w).2 in
  (list_books uid w).1 =
    Ok {| status := 200; json := Obj [("source", Str "database"); ("books", Arr books)] |} ∧
  mongo w1 = d ∧
  list_books uid w1 =
    (Ok {| status := 200; json := Obj [("source", Str "cache"); ("books", v)] |}, w1).
Proof.
  intros Hup Hmiss Hfind Hne Hparse w1.
  assert (list_books uid w =
          (Ok {| status := 200;
                 json := Obj [("source", Str "database"); ("books", Arr books)] |},
           set_redis (<[getUserCacheKey uid "books" :=
                          {| payload := JSON_stringify (Arr books); ttl := Some 3600%Z |}]>
                        (redis w)) (set_mongo d w))) as Hrun.
  { unfold list_books, try_catch.
    unfold mbind at 1, M_bind. rewrite redis_get_up by done. rewrite Hmiss.
    unfold mbind at 1, M_bind, on_mongo. rewrite Hfind.
    unfold mbind, M_bind. by rewrite redis_setEx_up. }
  subst w1. rewrite Hrun. cbn [fst snd]. split_and!; [done|done|].
  eapply list_books_cache_hit; [done|apply lookup_insert_eq|done|done].
Qed.

(** X21: when the cached list of a user is a text that does not parse,
    the read of the user's books answers 500 and leaves the entry in
    place: the document store is not asked. *)
Theorem list_books_corrupt_cache uid w e err :
  redis_faults w = [] →
  redis w !! getUserCacheKey uid "books" = Some e →
  payload e ≠ "" →
  JSON_parse (payload e) = Throw err →
  list_books uid w =
    (Ok {| status := 500; json := error_details "Error fetching books" err |}, w).
Proof.
  intros Hup He Hne Hparse. unfold list_books, try_catch.
  unfold mbind at 1, M_bind. rewrite redis_get_up by done. rewrite He.
  cbn [fmap option_fmap option_map]. rewrite truthy_str_Some by done.
  cbn [default from_option id]. unfold mbind, M_bind, lift. by rewrite Hparse.
Qed.

Lemma length_append s t : String.length (s +:+ t) = String.length s + String.length t.
Proof. induction s as [|c s IH]; simpl; [done|]. by rewrite IH. Qed.

Lemma append_inj_r s1 : ∀ s2 t, s1 +:+ t = s2 +:+ t → s1 = s2.
Proof.
  induction s1 as [|c s1 IH]; intros [|c2 s2] t Ht; simpl in *.
  - done.
  - apply (f_equal String.length) in Ht. simpl in Ht.
    rewrite ?length_append in Ht. simpl in Ht. lia.
  - apply (f_equal String.length) in Ht. simpl in Ht.
    rewrite ?length_append in Ht. simpl in Ht. lia.
  - injection Ht as -> Ht. f_equal. by apply (IH s2 t).
Qed.

Lemma getUserCacheKey_inj u1 u2 key :
  getUserCacheKey u1 key = getUserCacheKey u2 key → u1 = u2.
Proof.
  unfold getUserCacheKey. intros Hk%append_inj_l. by apply append_inj_r in Hk.
Qed.

Lemma keeps_routes uid id body :
  let own k := k = getUserCacheKey uid "books" in
  keeps own (create_book uid body) ∧ keeps own (list_books uid) ∧
  keeps own (update_book uid id body) ∧ keeps own (delete_book uid id) ∧
  keeps own (bulk_create uid body) ∧ keeps own (invalidate_cache uid).
Proof.
  intros own.
  unfold create_book, list_books, update_book, delete_book, bulk_create, invalidate_cache,
    invalidateUserCache.
  split_and!;
    repeat first [ apply keeps_redis_del; reflexivity
                 | apply keeps_redis_setEx; reflexivity
                 | keeps_step ].
Qed.

(** X22: the handlers of one user leave every key of the store but that
    user's own cached book list as it is; the cached lists of two users
    are two keys, so no request changes the cached list of another
    user. *)
Theorem routes_keep_other_users uid other id body w :
  other ≠ uid →
  let theirs := getUserCacheKey other "books" in
  redis (create_book uid body w).2 !! theirs = redis w !! theirs ∧
  redis (list_books uid w).2 !! theirs = redis w !! theirs ∧
  redis (update_book uid id body w).2 !! theirs = redis w !! theirs ∧
  redis (delete_book uid id w).2 !! theirs = redis w !! theirs ∧
  redis (bulk_create uid body w).2 !! theirs = redis w !! theirs ∧
  redis (invalidate_cache uid w).2 !! theirs = redis w !! theirs.
Proof.
  intros Hother theirs.
  assert (theirs ≠ getUserCacheKey uid "books") as Hk.
  { intros Heq. by apply getUserCacheKey_inj in Heq. }
  destruct (keeps_routes uid id body) as (H1 & H2 & H3 & H4 & H5 & H6).
  split_and!; [by apply H1|by apply H2|by apply H3|by apply H4|by apply H5|by apply H6].
Qed.

(** X23: when [POST /] has saved the book and the store then rejects the
    invalidation of the cache, the answer is an error (500, or 400 when
    the rejection carries the code of a duplicate key) although the book
    is persisted. *)
Theorem create_book_saved_but_refused uid body w book d err fs :
  nullish body = false →
  lacks_field body = false →
  Book_save
    (Obj [("title", field body "title"); ("author", field body "author");
          ("isbn", field body "isbn"); ("publishedYear", field body "publishedYear");
          ("genre", field body "genre"); ("userId", Str uid)]) (mongo w) = (Ok book, d) →
  redis_faults w = Some err :: fs →
  (create_book uid body w).1 =
    Ok (if is_duplicate err
        then {| status := 400; json := error_body "Book with this ISBN already exists" |}
        else {| status := 500; json := error_details "Error creating book" err |}) ∧
  mongo (create_book uid body w).2 = d.
Proof.
  intros Hn Hlacks Hsave Hf.
  assert (create_book uid body w =
          (Ok (if is_duplicate err
               then {| status := 400;
                       json := error_body "Book with this ISBN already exists" |}
               else {| status := 500; json := error_details "Error creating book" err |}),
           set_redis_faults fs (set_mongo d w))) as ->; [|done].
  unfold create_book, try_catch. rewrite !(get_prop_field _ _ Hn).
  unfold mbind, M_bind, lift, on_mongo. unfold lacks_field in Hlacks. rewrite Hlacks, Hsave.
  unfold invalidateUserCache, redis_del, redis_command. cbn [redis_faults set_mongo].
  rewrite Hf. by destruct (is_duplicate err).
Qed.


(** *** A run of the Ingestion Job over any pending batches *)

(** One pass over a pending key, whatever its text: the key is gone when
    the text parses and stays otherwise; the other pending batches are as
    they were. *)
Lemma pass_over_pending key w e :
  String.prefix "bulk_books:" key = true →
  redis_faults w = [] →
  redis w !! key = Some e →
  (∀ v, JSON_parse (payload e) = Ok v → Forall submission (elements v)) →
  ∃ w', process_bulk_key key w = (Ok tt, w') ∧
    redis_faults w' = [] ∧
    redis w' !! key = (if left_pending e then Some e else None) ∧
    ∀ k, String.prefix "bulk_books:" k = true → k ≠ key → redis w' !! k = redis w !! k.
Proof.
  intros Hp Hup He Hsub. unfold left_pending.
  destruct (String.eqb_spec (payload e) "") as [Hempty|Hne].
  { exists w. split_and!; [|done|done|done].
    apply process_bulk_key_falsy; [done|]. rewrite He. cbn. by rewrite Hempty. }
  destruct (JSON_parse (payload e)) as [v|err] eqn:Hparse.
  - destruct (pass_over_parsed key w e v Hp Hup He Hne Hparse (Hsub v eq_refl))
      as (w' & Hrun & Hup' & Hgone & Hothers).
    by exists w'.
  - rewrite (process_bulk_key_unparsed _ _ _ _ Hup He Hne Hparse).
    destruct (store_bulk_error_run (key_userId key) err w (reachable_up _ Hup))
      as (w' & Hrun & Hredis & Hup').
    exists w'. rewrite Hup in Hup'. split_and!; [done|done| |]; rewrite Hredis.
    + rewrite lookup_insert_ne; [done|]. by apply bulk_error_key_not_pending.
    + intros k Hk _. rewrite lookup_insert_ne; [done|]. by apply bulk_error_key_not_pending.
Qed.

Lemma pending_loop keys : ∀ w,
  NoDup keys →
  redis_faults w = [] →
  (∀ k, k ∈ keys →
     String.prefix "bulk_books:" k = true ∧
     ∃ e, redis w !! k = Some e ∧
       ∀ v, JSON_parse (payload e) = Ok v → Forall submission (elements v)) →
  ∃ w', for_of keys process_bulk_key w = (Ok tt, w') ∧
    (∀ k e, k ∈ keys → redis w !! k = Some e →
       redis w' !! k = if left_pending e then Some e else None) ∧
    (∀ k, String.prefix "bulk_books:" k = true → k ∉ keys → redis w' !! k = redis w !! k).
Proof.
  induction keys as [|key rest IH]; intros w Hnd Hup Hall.
  - exists w. split_and!; [done| |done]. by intros k e ?%elem_of_nil.
  - apply NoDup_cons in Hnd as [Hkey Hnd].
    destruct (Hall key) as (Hp & e & He & Hsub); [by left|].
    destruct (pass_over_pending key w e Hp Hup He Hsub)
      as (w1 & Hrun & Hup1 & Hpass & Hothers).
    destruct (IH w1 Hnd Hup1) as (w' & Hloop & Hdone & Hkept).
    { intros k Hk. destruct (Hall k) as [Hpk Hk']; [by right|]. split; [done|].
      rewrite Hothers; [done|done|]. by intros ->. }
    exists w'. split_and!.
    + cbn [for_of]. unfold mbind, M_bind. by rewrite Hrun.
    + intros k e' [->|Hk]%elem_of_cons He'.
      * rewrite Hkept by done. rewrite Hpass. by simplify_eq.
      * apply Hdone; [done|]. destruct (Hall k) as [Hpk _]; [by right|].
        rewrite Hothers; [done|done|]. by intros ->.
    + intros k Hpk [Hne' Hk]%not_elem_of_cons.
      rewrite Hkept by done. by apply Hothers.
Qed.

(** X27: with the store reachable, a run of the Ingestion Job passes over
    every pending batch, whatever the others hold: after the run a pending
    batch is still in the store exactly when its text is empty or does not
    parse; every batch that parses (to submissions, or to anything that is
    not a sequence of them) is gone. *)
Theorem ingestion_leaves_unparsed w k e :
  redis_faults w = [] →
  (∀ k e v, String.prefix "bulk_books:" k = true → redis w !! k = Some e →
     JSON_parse (payload e) = Ok v → Forall submission (elements v)) →
  String.prefix "bulk_books:" k = true →
  redis w !! k = Some e →
  redis (processBulkBooks w).2 !! k = if left_pending e then Some e else None.
Proof.
  intros Hup Hall Hp He. unfold processBulkBooks, try_catch.
  unfold mbind, M_bind. rewrite (redis_keys_up _ _ Hup).
  set (keys := filter _ _).
  assert (NoDup keys) as Hnd by apply NoDup_filter, NoDup_fst_map_to_list.
  assert (k ∈ keys) as Hk by (apply scanned; split; [done|by exists e]).
  destruct (pending_loop keys w Hnd Hup) as (w1 & Hloop & Hdone & _).
  { intros k' [Hp' [e' He']]%scanned. split; [done|]. exists e'. split; [done|].
    intros v Hv. by apply (Hall k' e' v). }
  destruct keys as [|k0 ks] eqn:Hks; [by apply elem_of_nil in Hk|].
  rewrite Hloop. cbn [snd]. by apply Hdone.
Qed.

(** *** The message of a report *)

(** X28: the message of a report goes to the address that was resolved
    for the user, from the sender of the configuration ([EMAIL_FROM] when
    it is set and not empty, 'noreply@booksapi.com' when it is not), under
    the subject of the report, with the document that was rendered as its
    attachment, named after the user and the time; the pass succeeds or
    fails as the transport accepts or refuses that message. *)
Theorem report_message uid ps w address w1 pdf w2 texts sender :
  getUserEmail uid w = (Ok address, w1) →
  generatePDFReport ps uid w1 = (Ok pdf, w2) →
  is_Ok (ToString address) = true →
  mail_texts ps uid = Ok texts →
  (EMAIL_FROM (env w2) = Some sender ∧ sender ≠ "") ∨
  ((EMAIL_FROM (env w2) = None ∨ EMAIL_FROM (env w2) = Some "") ∧
   sender = "noreply@booksapi.com") →
  let mail :=
    {| from := sender;
       to := address;
       subject := "Books Bulk Insertion Report";
       html := texts;
       attachment_filename :=
         "books-report-" +:+ tpl uid +:+ "-" +:+ pretty (now w2) +:+ ".pdf";
       attachment_content := pdf |} in
  smtp w2 = smtp w ∧
  smtp (send_report uid ps w).2 = (transporter_sendMail mail (smtp w2)).2 ∧
  (send_report uid ps w).1 =
    match (transporter_sendMail mail (smtp w2)).1 with
    | Ok _ => Ok tt
    | Throw e => Throw e
    end.
Proof.
  intros Hget Hpdf Hprint Htexts Hsender mail.
  assert (smtp w2 = smtp w) as Hsilent.
  { assert (H1 := silent_getUserEmail uid w). assert (H2 := silent_generatePDFReport ps uid w1).
    rewrite Hget in H1. rewrite Hpdf in H2. unfold same_smtp in *. cbn in *. congruence. }
  split; [done|].
  assert (env_or (EMAIL_FROM (env w2)) "noreply@booksapi.com" = sender) as Hfrom.
  { unfold env_or. destruct Hsender as [[-> Hne]|[[->| ->] ->]]; [|done|done].
    by rewrite truthy_str_Some. }
  assert (interpolate address = mret tt) as Hlog.
  { unfold interpolate, mbind, M_bind, lift.
    destruct (ToString address); [done|discriminate Hprint]. }
  assert (send_report uid ps w =
          (match (transporter_sendMail mail (smtp w2)).1 with
           | Ok _ => Ok tt
           | Throw e => Throw e
           end,
           set_smtp (transporter_sendMail mail (smtp w2)).2
             (set_clock (now w2 + hd 0%Z (ticks w2)) (tl (ticks w2)) w2))) as ->; [|done].
  unfold send_report.
  unfold mbind at 1, M_bind. rewrite Hget.
  unfold mbind at 1, M_bind. rewrite Hpdf.
  unfold sendReportEmail. rewrite Hlog.
  unfold try_catch, mbind, M_bind, get_env, lift, Date_now, on_smtp, mret, M_ret, throw.
  rewrite Htexts. cbn [smtp set_clock env now]. rewrite Hfrom. fold mail.
  by destruct (transporter_sendMail mail (smtp w2)) as [[info|e] t].
Qed.

End Correctness.

(** ** The single-book read *)

Section SingleBookCorrectness.
Context {host : Host} {services : Collaborators} {finder : Finder}.

(** X24: [GET /:id] never goes through the cache: it sends no command to
    the Key-Value Store, so it answers with the document store's book (or
    404 when there is none) whatever the cached list holds and whether the
    store is reachable or not; an error of the document store becomes a
    500. *)
Theorem get_book_bypasses_cache uid id w :
  let w' := (get_book uid id w).2 in
  redis w' = redis w ∧ redis_faults w' = redis_faults w ∧
  w' = set_mongo (Book_findOne id uid (mongo w)).2 w ∧
  (get_book uid id w).1 =
    Ok match (Book_findOne id uid (mongo w)).1 with
       | Ok book =>
           if truthy book then {| status := 200; json := Obj [("book", book)] |}
           else {| status := 404; json := error_body "Book not found" |}
       | Throw e => {| status := 500; json := error_details "Error fetching book" e |}
       end.
Proof.
  intros w'. subst w'. unfold get_book, try_catch, mbind, M_bind, on_mongo.
  destruct (Book_findOne id uid (mongo w)) as [[book|e] d]; cbn [fst snd]; [|done].
  by destruct (truthy book).
Qed.

End SingleBookCorrectness.

(** ** The authentication middleware *)

Section AuthCorrectness.
Context {jwt : Auth.Jwt}.

Lemma substring_all s : substring 0 (String.length s) s = s.
Proof. induction s as [|c s IH]; simpl; [done|]. by rewrite IH. Qed.

Lemma substring_after p : ∀ s, substring (String.length p) (String.length s) (p +:+ s) = s.
Proof. induction p as [|c p IH]; intros s; simpl; [apply substring_all|apply IH]. Qed.

(** A text with the prefix [p] is [p] followed by what [substring] cuts
    after it. *)
Lemma prefix_substring p : ∀ s,
  String.prefix p s = true →
  s = p +:+ substring (String.length p) (String.length s - String.length p) s.
Proof.
  induction p as [|a p IH]; intros s Hs.
  - simpl. by rewrite Nat.sub_0_r, substring_all.
  - destruct s as [|b s]; [done|]. simpl in Hs.
    destruct (ascii_dec a b) as [->|]; [|done].
    change (String b s =
            String b (p +:+ substring (String.length p)
                              (String.length s - String.length p) s)).
    f_equal. by apply IH.
Qed.

Lemma on_error_denies error_name :
  ∃ msg, Auth.on_error error_name = Auth.access_denied msg.
Proof.
  unfold Auth.on_error.
  destruct (String.eqb error_name "JsonWebTokenError"); [by eexists|].
  destruct (String.eqb error_name "TokenExpiredError"); by eexists.
Qed.

Lemma attach_run decoded :
  Auth.attach decoded =
    if nullish decoded
    then Throw (match get_prop decoded "id" with Throw e => e | Ok _ => TypeError "" end)
    else Ok {| Auth.id := or_else (field decoded "id") (field decoded "userId");
               Auth.email := field decoded "email";
               Auth.username := field decoded "username" |}.
Proof.
  unfold Auth.attach. destruct (nullish decoded) eqn:Hn.
  - by destruct decoded.
  - rewrite !(get_prop_field _ _ Hn). unfold mbind, result_bind, or_else.
    by destruct (truthy (field decoded "id")).
Qed.

(** X25: the middleware calls [next()] only for a request whose
    [Authorization] header is [Bearer] and a token that [jwt.verify]
    accepts, and then [req.user] holds the id of the decoded payload, or
    its userId when it has no id, with its email and username. *)
Theorem authMiddleware_calls_next secret authorization req_user :
  Auth.authMiddleware secret authorization = Auth.Next req_user ↔
  ∃ token decoded,
    authorization = Some ("Bearer " +:+ token) ∧ token ≠ "" ∧
    Auth.jwt_verify token secret = inr decoded ∧
    nullish decoded = false ∧
    req_user = {| Auth.id := or_else (field decoded "id") (field decoded "userId");
                  Auth.email := field decoded "email";
                  Auth.username := field decoded "username" |}.
Proof.
  unfold Auth.authMiddleware. split.
  - destruct authorization as [authHeader|]; [|done]. cbn [truthy_str default from_option id].
    destruct (String.eqb authHeader ""); [done|]. cbn [negb].
    destruct (String.prefix "Bearer " authHeader) eqn:Hprefix; [|done]. cbn [negb].
    apply prefix_substring in Hprefix. cbn [String.length] in Hprefix.
    set (token := substring 7 (String.length authHeader - 7) authHeader) in *.
    destruct (String.eqb_spec token "") as [|Htoken]; [done|].
    destruct (Auth.jwt_verify token secret) as [error|decoded] eqn:Hverify.
    { destruct (on_error_denies (Auth.name error)) as [msg ->]. done. }
    rewrite attach_run. destruct (nullish decoded) eqn:Hn.
    { destruct (on_error_denies "TypeError") as [msg ->]. done. }
    intros [= <-]. exists token, decoded. by rewrite Hprefix at 1.
  - intros (token & decoded & -> & Htoken & Hverify & Hn & ->).
    cbn [truthy_str default from_option id String.eqb Ascii.eqb negb].
    rewrite (prefix_app "Bearer "). cbn [negb].
    replace (substring 7 _ _) with token; cycle 1.
    { symmetry. rewrite length_append.
      replace (String.length "Bearer " + String.length token - 7)
        with (String.length token) by (simpl; lia).
      apply (substring_after "Bearer "). }
    destruct (String.eqb_spec token ""); [done|].
    rewrite Hverify, attach_run, Hn. done.
Qed.

(** X26: whatever the middleware answers itself is a 401 with the error
    'Access denied': a request it does not let through is never answered
    with another status, and no error escapes it. *)
Theorem authMiddleware_denies secret authorization res :
  Auth.authMiddleware secret authorization = Auth.Answered res →
  status res = 401 ∧ field (json res) "error" = Str "Access denied" ∧
  ∃ msg, field (json res) "message" = Str msg.
Proof.
  assert (∀ msg, Auth.access_denied msg = Auth.Answered res →
            status res = 401 ∧ field (json res) "error" = Str "Access denied" ∧
            ∃ msg, field (json res) "message" = Str msg) as Hdenied.
  { intros msg [= <-]. split_and!; [done|done|by exists msg]. }
  unfold Auth.authMiddleware.
  destruct (negb (truthy_str authorization)); [apply Hdenied|].
  destruct (negb (String.prefix _ _)); [apply Hdenied|].
  destruct (String.eqb _ ""); [apply Hdenied|].
  destruct (Auth.jwt_verify _ _) as [error|decoded].
  { destruct (on_error_denies (Auth.name error)) as [msg ->]. apply Hdenied. }
  destruct (Auth.attach decoded); [done|].
  destruct (on_error_denies "TypeError") as [msg ->]. apply Hdenied.
Qed.

End AuthCorrectness.

(** * The jobs on the reference implementations *)

Import Reference Examples.

(** The batch of the specification's example: three submissions, one
    accepted; the record that is written holds the counts 3, 1 and 2 and
    two details. *)
Lemma batch_status_record_witness :
  ∃ details : list FailureDetail,
    redis (process_bulk_key "bulk_books:u1" pending).2 !! "bulk_status:u1:1700000000000" =
      Some {| payload :=
                stringify
                  (Obj [("userId", Str "u1");
                        ("totalBooks", Num 3);
                        ("successCount", Num 1);
                        ("failureCount", Num 2);
                        ("timestamp", Str (iso_text 1700000000000));
                        ("failures",
                         Arr ((λ f, Obj [("index", Num (of_nat (index f)));
                                         ("title", title f);
                                         ("error", Str (error f))]) <$> details))]);
              ttl := Some 86400%Z |} ∧
    length details = 2.
Proof.
  destruct (batch_status_record "bulk_books:u1" pending
              (fresh_entry (stringify (Arr batch))) batch)
    as (details & Hrec & Hl & _);
    [reflexivity | reflexivity | reflexivity | discriminate
    | vm_compute; reflexivity | discriminate | repeat constructor |].
  exists details. split; [exact Hrec | exact Hl].
Defined.

(** The specification's example, run: one book persisted, the failures at
    the positions 1 and 2. *)
Example example_status_record :
  payload <$> redis (processBulkBooks pending).2 !! "bulk_status:u1:1700000000000" =
  Some (stringify
          (Obj [("userId", Str "u1"); ("totalBooks", Num 3); ("successCount", Num 1);
                ("failureCount", Num 2); ("timestamp", Str "2023-11-14T22:13:20.000Z");
                ("failures",
                 Arr [Obj [("index", Num 1); ("title", Str "Unknown");
                           ("error", Str "Missing required fields: title and author")];
                      Obj [("index", Num 2); ("title", Str "C");
                           ("error", Str (message duplicate_key))]])])).
Proof. vm_compute. reflexivity. Qed.

(** A batch with a [null] element: the first book is persisted, then the
    inner catch throws; no status record is written, the key stays and a
    Batch Error Record is stored. *)
Example null_element_batch :
  let w' := (process_bulk_key "bulk_books:u1" holed).2 in
  length (books (mongo w')) = 2 ∧
  redis w' !! "bulk_status:u1:1700000000000" = None ∧
  is_Some (redis w' !! "bulk_books:u1") ∧
  payload <$> redis w' !! "bulk_error:u1:1700000000000" =
    Some (stringify
            (bulk_error_json (Some "u1")
               (TypeError "Cannot read properties of null (reading 'title')")
               1700000000000)).
Proof. vm_compute. split_and!; [done..|by eexists|done]. Qed.

(** C1: a batch of one mapping that has its title and author and is
    persisted (N = 1, K = 1), the title being an object that no log line
    can print.  The log line after the save throws, inside the [try] that
    has counted the success, and the [catch] counts the same book as a
    failure: the record that is written has successCount 1 and
    failureCount 1, not N - K = 0, and one Failure Detail, for the book
    that is in the document store. *)
Theorem saved_book_counted_as_failure :
  let w' := (process_bulk_key "bulk_books:u1" exotic).2 in
  JSON_parse (stringify (Arr [unprintable])) = Ok (Arr [unprintable]) ∧
  has_required_fields unprintable = true ∧
  is_Ok (save (book_document (Some "u1") unprintable) library).1 = true ∧
  length (books (mongo w')) = S (length (books library)) ∧
  payload <$> redis w' !! "bulk_status:u1:1700000000000" =
    Some (stringify
            (Obj [("userId", Str "u1"); ("totalBooks", Num 1); ("successCount", Num 1);
                  ("failureCount", Num 1); ("timestamp", Str "2023-11-14T22:13:20.000Z");
                  ("failures",
                   Arr [Obj [("index", Num 0); ("title", Obj [("toString", Num 1)]);
                             ("error", Str "Cannot convert object to primitive value")]])])).
Proof. vm_compute. done. Qed.

(** The second submission of the example has an empty title. *)
Lemma missing_title_placeholder_witness :
  ∃ succeeded failed (details : list FailureDetail),
    redis (process_bulk_key "bulk_books:u1" pending).2 !! "bulk_status:u1:1700000000000" =
      Some {| payload :=
                stringify
                  (Obj [("userId", Str "u1");
                        ("totalBooks", Num 3);
                        ("successCount", Num (of_nat succeeded));
                        ("failureCount", Num (of_nat failed));
                        ("timestamp", Str (iso_text 1700000000000));
                        ("failures",
                         Arr ((λ f, Obj [("index", Num (of_nat (index f)));
                                         ("title", title f);
                                         ("error", Str (error f))]) <$> details))]);
              ttl := Some 86400%Z |} ∧
    {| index := 1; title := Str "Unknown";
       error := "Missing required fields: title and author" |} ∈ details.
Proof.
  destruct (missing_title_placeholder "bulk_books:u1" pending
              (fresh_entry (stringify (Arr batch))) batch 1
              (Obj [("title", Str ""); ("author", Str "Y")]))
    as (succeeded & failed & details & Hrec & Hin & _);
    [reflexivity | reflexivity | reflexivity | discriminate
    | vm_compute; reflexivity | repeat constructor | reflexivity | reflexivity |].
  exists succeeded, failed, details. split; [exact Hrec | exact Hin].
Defined.

(** The pending batch [[]] is deleted. *)
Lemma malformed_batch_witness :
  redis (process_bulk_key "bulk_books:u1" empty_batch).2 =
  delete "bulk_books:u1" (redis empty_batch).
Proof.
  refine (malformed_batch "bulk_books:u1" empty_batch (fresh_entry "[]") _ _ _ _ _);
    [reflexivity | reflexivity | reflexivity | discriminate | right; reflexivity].
Defined.


(** C2: a pending batch whose text is not JSON is left in place, with a
    Batch Error Record. *)
Lemma unparsed_batch_left_in_place :
  is_Ok (JSON_parse "not json") = false ∧
  let w' := (processBulkBooks unparsed).2 in
  redis w' !! "bulk_books:u1" = Some (fresh_entry "not json") ∧
  is_Some (redis w' !! "bulk_error:u1:1700000000000").
Proof. vm_compute. split_and!; [done..|by eexists]. Qed.


(** C3: a status record with a total of zero is rendered with the rate
    'NaN%', in the summary of the message too. *)
Lemma zero_total_renders_NaN :
  field zero_total "totalBooks" = Num 0 ∧
  success_rate zero_total = Ok "NaN%" ∧
  (html <$> outbox (smtp (process_status_key "bulk_status:u1:1699999999000"
                            (reported zero_total)).2)) =
    [["u1"; "0"; "0"; "0"; "NaN%"; "2023-11-14T22:13:20.000Z"; all_succeeded]].
Proof. vm_compute. done. Qed.

(** Three successes out of zero, one out of the negative zero, and a
    negative count out of the negative zero. *)
Lemma zero_total_rate_witness :
  success_rate (Obj [("totalBooks", Num 0); ("successCount", Num 3)]) = Ok "Infinity%" ∧
  success_rate (Obj [("totalBooks", Num (-0)); ("successCount", Num 1)]) = Ok "-Infinity%" ∧
  success_rate (Obj [("totalBooks", Num (-0)); ("successCount", Num (-2))]) = Ok "Infinity%".
Proof.
  split; [|split].
  - exact (zero_total_rate (Obj [("totalBooks", Num 0); ("successCount", Num 3)])
             (Num 0) 0%float false (Num 3) 3%float eq_refl eq_refl eq_refl eq_refl eq_refl).
  - exact (zero_total_rate (Obj [("totalBooks", Num (-0)); ("successCount", Num 1)])
             (Num (-0)) (-0)%float true (Num 1) 1%float
             eq_refl eq_refl eq_refl eq_refl eq_refl).
  - exact (zero_total_rate (Obj [("totalBooks", Num (-0)); ("successCount", Num (-2))])
             (Num (-0)) (-0)%float true (Num (-2)) (-2)%float
             eq_refl eq_refl eq_refl eq_refl eq_refl).
Defined.

(** A valid record whose report is sent: the message is in the outbox and
    the key is gone. *)
Example report_sent :
  let key := "bulk_status:u1:1699999999000" in
  let w' := (process_status_key key (reported report)).2 in
  redis w' = ∅ ∧
  (λ m, (to m, attachment_filename m)) <$> outbox (smtp w') =
    [(Str "u1@example.com", "books-report-u1-1700000000000.pdf")].
Proof. vm_compute. done. Qed.

(** A valid record whose message the transport refuses: the key stays and
    the error record is written. *)
Lemma report_disposition_witness :
  let key := "bulk_status:u1:1699999999000" in
  let w' := (process_status_key key (refusing (reported report))).2 in
  redis w' !! key = Some (status_entry report) ∧
  ttl <$> redis w' !! "report_error:u1:1700000000000" = Some (Some 86400%Z).
Proof.
  intros key w'.
  pose proof (report_disposition key (refusing (reported report)) (status_entry report)
                report (Throw refused)
                (send_report (Some "u1") report
                   (after_command (refusing (reported report)))).2) as W.
  destruct W as (Hw' & Hkept & _ & _);
    [reflexivity | exact I | reflexivity | discriminate | vm_compute; reflexivity
    | reflexivity | vm_compute; reflexivity | exact I |].
  split; [exact Hkept|]. fold key w' in Hw'. rewrite Hw'. reflexivity.
Defined.

(** The sources of the address: the user record, the cached address, the
    default of the configuration when it is set, the fixed one when it is
    not. *)
Lemma address_resolution_witness :
  (getUserEmail (Some "u1") addressed).1 = Ok (Str "u1@example.com") ∧
  (getUserEmail (Some "u2") addressed).1 = Ok (Str "u2@example.org") ∧
  (getUserEmail (Some "u3") (configured "ops@example.com" addressed)).1 =
    Ok (Str "ops@example.com") ∧
  (getUserEmail (Some "u3") addressed).1 = Ok (Str "admin@example.com").
Proof.
  split_and!.
  - rewrite (proj1 (address_resolution (Some "u1") addressed
                      (Obj [("_id", Str "u1"); ("email", Str "u1@example.com")])
                      library eq_refl) eq_refl).
    reflexivity.
  - rewrite (proj1 (proj2 (address_resolution (Some "u2") addressed Null library eq_refl)
                      eq_refl I)
               (fresh_entry "u2@example.org") eq_refl ltac:(discriminate)).
    reflexivity.
  - rewrite (proj1 (proj2 (proj2 (address_resolution (Some "u3")
                                    (configured "ops@example.com" addressed) Null library
                                    eq_refl)
                             eq_refl I)
                      (or_introl eq_refl))
               "ops@example.com" eq_refl ltac:(discriminate)).
    reflexivity.
  - rewrite (proj2 (proj2 (proj2 (address_resolution (Some "u3") addressed Null library
                                    eq_refl)
                             eq_refl I)
                      (or_introl eq_refl))
               (or_introl eq_refl)).
    reflexivity.
Defined.

(** The lookup of the user throws; the lookup finds no user and the read
    of the cached address throws. *)
Lemma lookup_errors_propagate_witness :
  let key := "bulk_status:u1:1699999999000" in
  let w := unreachable_users (reported report) in
  let w2 := flaky (anonymous (reported report)) in
  ((getUserEmail (Some "u1") (after_command w)).1 = Throw disconnected ∧
   redis (process_status_key key w).2 !! key = Some (status_entry report)) ∧
  ((getUserEmail (Some "u1") (after_command w2)).1 = Throw lost ∧
   redis (process_status_key key w2).2 !! key = Some (status_entry report)).
Proof.
  intros key w w2. split.
  - destruct (lookup_errors_propagate key w (status_entry report) report disconnected)
      as (Hthrown & Hrecord);
      [reflexivity | exact I | reflexivity | discriminate | vm_compute; reflexivity
      | reflexivity | left; reflexivity |].
    split; [exact Hthrown|]. exact (proj1 (Hrecord I)).
  - destruct (lookup_errors_propagate key w2 (status_entry report) report lost)
      as (Hthrown & Hrecord);
      [reflexivity | exact I | reflexivity | discriminate | vm_compute; reflexivity
      | reflexivity | right; exists Null, [None]; repeat split |].
    split; [exact Hthrown|]. exact (proj1 (Hrecord I)).
Defined.

(** C6: a status key that holds the empty text is skipped and stays; one
    that holds the text [null], which parses and has neither field, stays
    too, with an error record, and the next scan finds it again. *)
Lemma status_key_not_deleted :
  let key := "bulk_status:u1:1699999999000" in
  let w0 := (process_status_key key empty_status).2 in
  let w1 := (process_status_key key null_status).2 in
  redis w0 !! key = Some (fresh_entry "") ∧
  JSON_parse "null" = Ok Null ∧
  redis w1 !! key = Some (fresh_entry "null") ∧
  payload <$> redis w1 !! "report_error:u1:1700000000000" =
    Some (stringify (report_error_json (Some "u1") key null_userId 1700000000000)) ∧
  (redis_keys "bulk_status:" w1).1 = Ok [key].
Proof. vm_compute. done. Qed.

(** A record without its [totalBooks] is deleted. *)
Lemma malformed_status_witness :
  let key := "bulk_status:u1:1699999999000" in
  redis (process_status_key key (reported incomplete)).2 !! key = None.
Proof.
  intros key.
  destruct (proj2 (malformed_status key (reported incomplete) I)
              (status_entry incomplete) incomplete) as [_ Hw'];
    [reflexivity | discriminate | vm_compute; reflexivity | reflexivity
    | right; reflexivity | exact I |].
  rewrite Hw'. reflexivity.
Defined.

(** C7: the Ingestion Job persists a book for the user u1 and leaves the
    cached list of u1 in the store, so that the next read answers from the
    cache, with the list that lacks the book. *)
Theorem ingestion_leaves_cache_stale :
  let w' := (processBulkBooks cached).2 in
  (find "u1" (mongo w')).1 =
    Ok [Obj [("_id", Str "1"); ("title", Str "A"); ("author", Str "X"); ("isbn", Null);
             ("publishedDate", Null); ("genre", Null); ("description", Null);
             ("userId", Str "u1")]] ∧
  redis w' !! getUserCacheKey "u1" "books" = Some {| payload := "[]"; ttl := Some 3600%Z |} ∧
  (list_books "u1" w').1 =
    Ok {| status := 200; json := Obj [("source", Str "cache"); ("books", Arr [])] |}.
Proof. vm_compute. done. Qed.

(** * The further properties on the reference implementations *)

(** The store rejects the scan of either job: the pending batch is not
    looked at. *)
Lemma scan_rejected_witness :
  processBulkBooks (unreachable pending) = (Ok tt, pending) ∧
  processStatusReports (unreachable pending) = (Ok tt, pending).
Proof. exact (scan_rejected (unreachable pending) lost [] eq_refl). Defined.

(** Two pending batches, both gone after one run; the second run is
    idle. *)
Lemma ingestion_drains_pending_witness :
  let w' := (processBulkBooks two_pending).2 in
  redis w' !! "bulk_books:u1" = None ∧ redis w' !! "bulk_books:u2" = None ∧
  processBulkBooks w' = (Ok tt, w').
Proof.
  intros w'.
  assert (∀ k e, String.prefix "bulk_books:" k = true → redis two_pending !! k = Some e →
            payload e ≠ "" ∧
            ∃ v, JSON_parse (payload e) = Ok v ∧ Forall submission (elements v)) as Hall.
  { intros k e _ He. change (redis two_pending) with
      ({[ "bulk_books:u1" := fresh_entry (stringify (Arr batch));
          "bulk_books:u2" := fresh_entry "[]" ]} : gmap string entry) in He.
    apply lookup_insert_Some in He as [[_ <-]|[_ [_ <-]%lookup_singleton_Some]].
    - split; [discriminate|]. exists (Arr batch).
      split; [vm_compute; reflexivity|repeat constructor].
    - split; [discriminate|]. exists (Arr []). split; [vm_compute; reflexivity|constructor]. }
  destruct (ingestion_drains_pending two_pending eq_refl Hall) as [Hnone Hidle].
  split; [apply Hnone; reflexivity|]. split; [apply Hnone; reflexivity|exact Hidle].
Defined.

(** The cached book list of u1 is as it was after a run of the Ingestion
    Job, and no message was sent. *)
Lemma ingestion_footprint_witness :
  redis (processBulkBooks cached).2 !! "user:u1:books" = redis cached !! "user:u1:books" ∧
  smtp (processBulkBooks cached).2 = smtp cached.
Proof.
  apply (ingestion_footprint cached "user:u1:books").
  unfold ingestion_key. simpl. intros [H|[H|H]]; discriminate H.
Defined.

(** The store goes down after the scan: the batch is still pending and
    no book of it is persisted. *)
Lemma run_ends_when_error_record_rejected_witness :
  let w' := (processBulkBooks (going_down pending)).2 in
  redis w' = redis pending ∧ mongo w' = library ∧
  smtp w' = smtp pending ∧ redis_faults w' = [].
Proof.
  exact (run_ends_when_error_record_rejected (going_down pending) "bulk_books:u1"
           (fresh_entry (stringify (Arr batch))) lost lost [] eq_refl eq_refl eq_refl).
Defined.

Lemma report_reads_ingestion_user_witness :
  key_userId (status_key (key_userId "bulk_books:u1") 1700000000000) = Some "u1".
Proof. exact (report_reads_ingestion_user "bulk_books:u1" 1700000000000 eq_refl). Defined.

(** A batch stored for the id u1:eu is processed for u1. *)
Lemma key_userId_first_segment_witness :
  key_userId "bulk_books:u1" = Some "u1" ∧ key_userId "bulk_books:u1:eu" = Some "u1".
Proof. exact (key_userId_first_segment "u1" "eu" eq_refl). Defined.

(** A pending batch is as it was after a run of the Report Job. *)
Lemma report_footprint_witness :
  let w := set_redis (<["bulk_books:u1" := fresh_entry "[]"]> (redis (reported report)))
             (reported report) in
  redis (processStatusReports w).2 !! "bulk_books:u1" = Some (fresh_entry "[]").
Proof.
  intros w. rewrite (report_footprint w "bulk_books:u1").
  - reflexivity.
  - unfold report_key. simpl. intros [H|H]; discriminate H.
Defined.

(** The pass over the example's status record sends a message: the record
    is valid. *)
Lemma message_only_for_valid_record_witness :
  ∃ e ps, redis (reported report) !! "bulk_status:u1:1699999999000" = Some e ∧
    payload e ≠ "" ∧ JSON_parse (payload e) = Ok ps ∧ invalid_status ps = Ok false.
Proof.
  apply (message_only_for_valid_record "bulk_status:u1:1699999999000" (reported report)).
  vm_compute. discriminate.
Defined.

Lemma resolved_address_is_present_witness :
  truthy (Str "u2@example.org") = true ∧
  redis (getUserEmail (Some "u2") addressed).2 = redis addressed.
Proof.
  apply (resolved_address_is_present (Some "u2") addressed).
  vm_compute. reflexivity.
Defined.

(** Nine failures: the ninth starts the second page. *)
Lemma failure_details_pages_witness :
  ∃ ops, failure_blocks nine_failures 0 325 = Ok ops ∧ page_breaks ops = 1.
Proof.
  destruct (failure_blocks nine_failures 0 325) as [ops|e] eqn:Hops;
    [|vm_compute in Hops; discriminate Hops].
  exists ops. split; [reflexivity|]. exact (failure_details_pages nine_failures ops Hops).
Defined.

Lemma failure_details_rows_witness :
  ∃ ops, failure_blocks nine_failures 0 325 = Ok ops ∧
    length (text_rows ops) = 27 ∧ Forall (λ r, 50 ≤ r ≤ 730) (text_rows ops).
Proof.
  destruct (failure_blocks nine_failures 0 325) as [ops|e] eqn:Hops;
    [|vm_compute in Hops; discriminate Hops].
  exists ops. split; [reflexivity|]. exact (failure_details_rows nine_failures ops Hops).
Defined.

(** A book created for u1 while the list of u1 is cached: the cached list
    is gone. *)
Lemma routes_invalidate_cache_witness :
  redis (create_book "u1" new_book cached).2 !! "user:u1:books" = None.
Proof.
  apply (routes_invalidate_cache "u1" "" new_book cached
           {| status := 201;
              json := Obj [("message", Str "Book created successfully");
                           ("book", with_id 1 (Obj [("title", Str "A"); ("author", Str "X");
                                                    ("isbn", Str "111");
                                                    ("publishedYear", Undefined);
                                                    ("genre", Undefined);
                                                    ("userId", Str "u1")]))] |}
           (create_book "u1" new_book cached).2);
    [left; vm_compute; reflexivity|right; reflexivity].
Defined.

Lemma create_book_rejects_incomplete_witness :
  create_book "u1" no_isbn cached =
    (Ok {| status := 400; json := error_body "Title, author, and ISBN are required" |},
     cached).
Proof. exact (create_book_rejects_incomplete "u1" no_isbn cached eq_refl eq_refl). Defined.

(** A batch of a complete book and one without isbn: neither is
    inserted. *)
Lemma bulk_create_all_or_nothing_witness :
  bulk_create "u1" mixed_batch cached =
    (Ok {| status := 400; json := error_body "Each book must have title, author, and ISBN" |},
     cached).
Proof.
  apply (bulk_create_all_or_nothing "u1" mixed_batch [new_book; no_isbn] cached).
  - reflexivity.
  - repeat constructor.
  - right. left. reflexivity.
Defined.

(** A batch with a new book and the isbn of a book of the library: the
    new book is in, the answer is 400 and the cached list is gone. *)
Lemma bulk_create_duplicate_witness :
  let w' := (bulk_create "u1" duplicate_batch cached).2 in
  length (books (mongo w')) = 2 ∧
  (bulk_create "u1" duplicate_batch cached).1 =
    Ok {| status := 400;
          json := error_details "Some books have duplicate ISBNs" duplicate_key |} ∧
  redis w' !! "user:u1:books" = None.
Proof.
  intros w'.
  destruct (bulk_create_duplicate "u1" duplicate_batch [new_book; taken] cached duplicate_key
              (insertMany (with_userId "u1" <$> [new_book; taken]) library).2)
    as [Hmongo [Hanswer Hgone]];
    [reflexivity | discriminate | reflexivity | vm_compute; reflexivity | reflexivity |].
  fold w' in Hmongo, Hgone.
  split; [rewrite Hmongo; reflexivity|]. split; [exact Hanswer|exact Hgone].
Defined.

(** No book 7 of u1: the cached list stays. *)
Lemma not_found_keeps_cache_witness :
  update_book "u1" "7" new_book cached =
    (Ok {| status := 404; json := error_body "Book not found" |}, cached) ∧
  delete_book "u1" "7" cached =
    (Ok {| status := 404; json := error_body "Book not found" |}, cached).
Proof.
  destruct (not_found_keeps_cache "u1" "7" new_book cached) as [Hupdate Hdelete].
  split.
  - exact (Hupdate eq_refl Null library eq_refl eq_refl).
  - exact (Hdelete Null library eq_refl eq_refl).
Defined.

(** The books of u9, read twice: from the document store, then from the
    cache. *)
Lemma list_books_second_read_witness :
  let stored := [Obj [("_id", Str "0"); ("title", Str "Old"); ("author", Str "O");
                      ("isbn", Str "same"); ("userId", Str "u9")]] in
  let w1 := (list_books "u9" pending).2 in
  (list_books "u9" pending).1 =
    Ok {| status := 200; json := Obj [("source", Str "database"); ("books", Arr stored)] |} ∧
  mongo w1 = library ∧
  list_books "u9" w1 =
    (Ok {| status := 200; json := Obj [("source", Str "cache"); ("books", Arr stored)] |}, w1).
Proof.
  intros stored.
  apply (list_books_second_read "u9" pending stored library (Arr stored));
    [reflexivity | reflexivity | reflexivity | discriminate | vm_compute; reflexivity].
Defined.

Lemma list_books_corrupt_cache_witness :
  (list_books "u1" corrupt).1 =
    Ok {| status := 500;
          json := error_details "Error fetching books" (SyntaxError "[{") |} ∧
  (list_books "u1" corrupt).2 = corrupt.
Proof.
  rewrite (list_books_corrupt_cache "u1" corrupt {| payload := "[{"; ttl := Some 3600%Z |}
             (SyntaxError "[{"));
    [split; reflexivity | reflexivity | reflexivity | discriminate | vm_compute; reflexivity].
Defined.

(** A book created for u2 leaves the cached list of u1 in place. *)
Lemma routes_keep_other_users_witness :
  redis (create_book "u2" new_book cached).2 !! "user:u1:books" =
  Some {| payload := "[]"; ttl := Some 3600%Z |}.
Proof.
  destruct (routes_keep_other_users "u2" "u1" "" new_book cached) as [Hcreate _];
    [discriminate|].
  exact (eq_trans Hcreate eq_refl).
Defined.

(** The book is saved and the store rejects the invalidation: the answer
    is 500 with the book in the document store. *)
Lemma create_book_saved_but_refused_witness :
  (create_book "u1" new_book (unreachable cached)).1 =
    Ok {| status := 500; json := error_details "Error creating book" lost |} ∧
  length (books (mongo (create_book "u1" new_book (unreachable cached)).2)) = 2.
Proof.
  set (doc := Obj [("title", Str "A"); ("author", Str "X"); ("isbn", Str "111");
                   ("publishedYear", Undefined); ("genre", Undefined);
                   ("userId", Str "u1")]).
  destruct (create_book_saved_but_refused "u1" new_book (unreachable cached)
              (with_id 1 doc) (save doc library).2 lost [])
    as [Hanswer Hmongo]; [reflexivity | reflexivity | vm_compute; reflexivity | reflexivity |].
  split; [exact Hanswer|]. rewrite Hmongo. reflexivity.
Defined.

(** A request with the token of u1 is let through as u1; one without
    header is answered 401. *)
Lemma authMiddleware_calls_next_witness :
  Auth.authMiddleware (Some "s3cret") (Some ("Bearer " +:+ token_u1)) =
  Auth.Next {| Auth.id := Str "u1"; Auth.email := Undefined; Auth.username := Undefined |}.
Proof.
  apply (proj2 (authMiddleware_calls_next (Some "s3cret") (Some ("Bearer " +:+ token_u1)) _)).
  exists token_u1, (Obj [("userId", Str "u1")]).
  split; [reflexivity|]. split; [discriminate|]. split; [vm_compute; reflexivity|].
  split; reflexivity.
Defined.

Lemma authMiddleware_denies_witness :
  ∃ res, Auth.authMiddleware (Some "s3cret") None = Auth.Answered res ∧ status res = 401.
Proof.
  eexists. split; [reflexivity|].
  eapply (proj1 (authMiddleware_denies (Some "s3cret") None _ eq_refl)).
Defined.

(** A batch that is not JSON beside the batch of the example: after the
    run the first is still pending and the second is gone. *)
Lemma ingestion_leaves_unparsed_witness :
  let w' := (processBulkBooks mixed_pending).2 in
  redis w' !! "bulk_books:u1" = Some (fresh_entry "not json") ∧
  redis w' !! "bulk_books:u2" = None.
Proof.
  intros w'.
  assert (∀ k e v, String.prefix "bulk_books:" k = true → redis mixed_pending !! k = Some e →
            JSON_parse (payload e) = Ok v → Forall submission (elements v)) as Hall.
  { intros k e v _ He. change (redis mixed_pending) with
      ({[ "bulk_books:u1" := fresh_entry "not json";
          "bulk_books:u2" := fresh_entry (stringify (Arr batch)) ]} : gmap string entry) in He.
    apply lookup_insert_Some in He as [[_ <-]|[_ [_ <-]%lookup_singleton_Some]].
    - intros Hv. vm_compute in Hv. discriminate Hv.
    - intros Hv. vm_compute in Hv. injection Hv as <-. repeat constructor. }
  split.
  - exact (ingestion_leaves_unparsed mixed_pending "bulk_books:u1" (fresh_entry "not json")
             eq_refl Hall eq_refl eq_refl).
  - exact (ingestion_leaves_unparsed mixed_pending "bulk_books:u2"
             (fresh_entry (stringify (Arr batch))) eq_refl Hall eq_refl eq_refl).
Defined.

(** The report of the example with the sender configured: one message,
    from that sender to the address of u1. *)
Lemma report_message_witness :
  let w := sending_as "books@example.com" (reported report) in
  (λ m, (from m, to m, subject m, attachment_filename m)) <$>
    outbox (smtp (send_report (Some "u1") report w).2) =
    [("books@example.com", Str "u1@example.com", "Books Bulk Insertion Report",
      "books-report-u1-1700000000000.pdf")] ∧
  (send_report (Some "u1") report w).1 = Ok tt.
Proof.
  intros w.
  set (w1 := (getUserEmail (Some "u1") w).2).
  set (pdf := match (generatePDFReport report (Some "u1") w1).1 with
              | Ok text => text
              | Throw _ => ""
              end).
  set (w2 := (generatePDFReport report (Some "u1") w1).2).
  destruct (report_message (Some "u1") report w (Str "u1@example.com") w1 pdf w2
              ["u1"; "3"; "1"; "2"; "33.33%"; "2023-11-14T22:13:20.000Z"; some_failed]
              "books@example.com")
    as (_ & Hsmtp & Hresult);
    [vm_compute; reflexivity | vm_compute; reflexivity | reflexivity
    | vm_compute; reflexivity | left; split; [reflexivity|discriminate] |].
  rewrite Hsmtp, Hresult. split; vm_compute; reflexivity.
Defined.
